(** * nifgen: a shallow embedding of the schema interpretation pipeline

    The development follows the Python package [nifgen] file by file:
    - [PyStr]      the [str] methods and [int()] the package relies on;
    - [Predicates] [predicates.py] ([check_version], [should_emit_struct],
                   [should_emit_member]) with [TARGET_VERSIONS] of
                   [__init__.py];
    - [Re]         the fragment of Python's backtracking [re] engine that the
                   three patterns of [expr.py] use;
    - [Expr]       [expr.py] ([parse_expression]) with [convert_field_name];
    - [Dict]       insertion-ordered dictionaries, for the field maps;
    - [Types]      [types.py] ([Type], the five [from_xml] builders).
    The properties follow the definitions, in the order of the modules.

    Strings are Rocq strings read as sequences of code points below 128: the
    character classes ([isspace], [isnumeric], [\w], [lower], ...) are the
    ASCII restrictions of the Python ones, and a code of 128 or more is an
    uncased symbol that is neither a space, a digit nor a word character.
    Exceptions are values of [exn]; a function that can raise returns a
    [result].  Interpreter limits (recursion depth, the digit limit of
    [int()]) are not modelled: [RecursionError] only marks an exhausted bound
    of [parse_expression_fuel], which [parse_expression] never reaches. *)

From Stdlib Require Import ZArith Lia Bool Ascii String List.
From stdpp Require Import base option strings gmap.
Import ListNotations.

Local Open Scope string_scope.

(** ** Exceptions *)

Inductive exn : Type :=
| KeyError (key : string)
| ValueError
| IndexError
| AttributeError
| TypeError
| RecursionError.

Inductive result (A : Type) : Type :=
| Ok (a : A)
| Raise (e : exn).

Arguments Ok {A} a.
Arguments Raise {A} e.

Definition bind {A B : Type} (m : result A) (f : A -> result B) : result B :=
  match m with
  | Ok a => f a
  | Raise e => Raise e
  end.

Declare Scope result_scope.
Delimit Scope result_scope with result.
Notation "'let*' x := m 'in' k" := (bind m (fun x => k))
  (at level 10, x name, m at level 100, k at level 200) : result_scope.
Local Open Scope result_scope.

(** [k in d] and [d[k]] on a dictionary keyed by strings. *)
Definition has_key {V : Type} (d : gmap string V) (k : string) : bool :=
  match d !! k with
  | Some _ => true
  | None => false
  end.

Definition getitem {V : Type} (d : gmap string V) (k : string) : result V :=
  match d !! k with
  | Some v => Ok v
  | None => Raise (KeyError k)
  end.

(** [for x in xs: ...] threading a state through a body that can raise. *)
Fixpoint foldM {A St : Type} (body : St -> A -> result St) (xs : list A)
  (st : St) : result St :=
  match xs with
  | [] => Ok st
  | x :: xs' => let* st' := body st x in foldM body xs' st'
  end.

(** [[f(x) for x in xs]], left to right, stopping at the first exception. *)
Fixpoint mapM {A B : Type} (f : A -> result B) (xs : list A) : result (list B) :=
  match xs with
  | [] => Ok []
  | x :: xs' => let* y := f x in let* ys := mapM f xs' in Ok (y :: ys)
  end.

(** [any(p(x) for x in xs)]: the generator is consumed up to the first true
    element, so an exception raised by a later element is never seen. *)
Fixpoint anyM {A : Type} (p : A -> result bool) (xs : list A) : result bool :=
  match xs with
  | [] => Ok false
  | x :: xs' => let* b := p x in if b then Ok true else anyM p xs'
  end.

(** ** Python strings *)

Module PyStr.

Definition code (c : ascii) : N := N_of_ascii c.

Definition between (lo hi : N) (c : ascii) : bool :=
  ((lo <=? code c) && (code c <=? hi))%N.

Definition is_digit (c : ascii) : bool := between 48 57 c.
Definition is_upper (c : ascii) : bool := between 65 90 c.
Definition is_lower (c : ascii) : bool := between 97 122 c.
Definition is_alnum (c : ascii) : bool := is_digit c || is_upper c || is_lower c.

(** [str.isspace] on one character: TAB..CR, FS..US and the blank. *)
Definition is_space (c : ascii) : bool :=
  between 9 13 c || between 28 32 c.

(** The C-level [Py_ISSPACE] that [int()] skips: TAB..CR and the blank. *)
Definition is_c_space (c : ascii) : bool :=
  between 9 13 c || (code c =? 32)%N.

(** [\w] of the [re] module: alphanumeric or underscore. *)
Definition is_word (c : ascii) : bool := is_alnum c || (code c =? 95)%N.

Definition lower_char (c : ascii) : ascii :=
  if is_upper c then ascii_of_N (code c + 32) else c.
Definition upper_char (c : ascii) : ascii :=
  if is_lower c then ascii_of_N (code c - 32) else c.

Fixpoint map_chars (f : ascii -> ascii) (s : string) : string :=
  match s with
  | EmptyString => EmptyString
  | String c s' => String (f c) (map_chars f s')
  end.

Definition lower (s : string) : string := map_chars lower_char s.
Definition upper (s : string) : string := map_chars upper_char s.

Fixpoint all_chars (p : ascii -> bool) (s : string) : bool :=
  match s with
  | EmptyString => true
  | String c s' => p c && all_chars p s'
  end.

(** [s.isnumeric()]: at least one character and all of them numeric. *)
Definition isnumeric (s : string) : bool :=
  match s with
  | EmptyString => false
  | _ => all_chars is_digit s
  end.

(** [s.startswith(p)]. *)
Fixpoint startswith (p s : string) : bool :=
  match p, s with
  | EmptyString, _ => true
  | String a p', String b s' => Ascii.eqb a b && startswith p' s'
  | String _ _, EmptyString => false
  end.

(** [sub in s]. *)
Fixpoint contains (sub s : string) : bool :=
  startswith sub s ||
  match s with
  | EmptyString => false
  | String _ s' => contains sub s'
  end.

(** [s.split(sep)] for a separator of one character. *)
Fixpoint split (sep : ascii) (s : string) : list string :=
  match s with
  | EmptyString => [EmptyString]
  | String c s' =>
      if Ascii.eqb c sep then EmptyString :: split sep s'
      else match split sep s' with
           | p :: ps => String c p :: ps
           | [] => [String c EmptyString]
           end
  end.

(** [sep.join(parts)]. *)
Fixpoint join (sep : string) (parts : list string) : string :=
  match parts with
  | [] => EmptyString
  | [p] => p
  | p :: ps => p ++ sep ++ join sep ps
  end.

(** [s.replace(old, new)] for [old] of one character. *)
Fixpoint replace (old : ascii) (new : string) (s : string) : string :=
  match s with
  | EmptyString => EmptyString
  | String c s' =>
      if Ascii.eqb c old then new ++ replace old new s'
      else String c (replace old new s')
  end.

(** [s.lstrip(chars)] and [s.lstrip()], as one function of the set of
    characters that is stripped. *)
Fixpoint lstrip_with (p : ascii -> bool) (s : string) : string :=
  match s with
  | EmptyString => EmptyString
  | String c s' => if p c then lstrip_with p s' else s
  end.

Fixpoint rstrip_with (p : ascii -> bool) (s : string) : string :=
  match s with
  | EmptyString => EmptyString
  | String c s' =>
      match rstrip_with p s' with
      | EmptyString => if p c then EmptyString else String c EmptyString
      | r => String c r
      end
  end.

Definition lstrip (s : string) : string := lstrip_with is_space s.
Definition rstrip (s : string) : string := rstrip_with is_space s.
Definition strip (s : string) : string := rstrip (lstrip s).

(** [s.lstrip("V")]. *)
Definition lstrip_V (s : string) : string :=
  lstrip_with (fun c => Ascii.eqb c "V") s.

(** *** [int(s)] and [int(s, 16)] *)

(** The digit table of the interpreter: ['0'..'9'] are 0..9 and the letters
    of either case are 10..35. *)
Definition digit_value (c : ascii) : option Z :=
  if is_digit c then Some (Z.of_N (code c) - 48)%Z
  else if is_lower c then Some (Z.of_N (code c) - 87)%Z
  else if is_upper c then Some (Z.of_N (code c) - 55)%Z
  else None.

Definition is_base_digit (base : Z) (c : ascii) : option Z :=
  match digit_value c with
  | Some d => if (d <? base)%Z then Some d else None
  | None => None
  end.

(** The digit scan: digits with single underscores between them.  [prev_us]
    says that the previous character was an underscore and [seen] that a
    digit was read.  The scan stops at the first character that is neither;
    it fails on a doubled or trailing underscore and on an empty run. *)
Fixpoint scan_digits (base : Z) (s : string) (prev_us seen : bool) (acc : Z)
  : option (Z * string) :=
  let finish := if prev_us then None
                else if seen then Some (acc, s) else None in
  match s with
  | EmptyString => finish
  | String c s' =>
      if Ascii.eqb c "_" then
        if prev_us then None else scan_digits base s' true seen acc
      else
        match is_base_digit base c with
        | Some d => scan_digits base s' false true (acc * base + d)%Z
        | None => finish
        end
  end.

Definition skip_sign (s : string) : Z * string :=
  match s with
  | String "+" s' => (1%Z, s')
  | String "-" s' => ((-1)%Z, s')
  | _ => (1%Z, s)
  end.

(** The [0x] prefix, with the one underscore allowed after it. *)
Definition skip_hex_prefix (s : string) : string :=
  match s with
  | String "0" (String x s') =>
      if Ascii.eqb x "x" || Ascii.eqb x "X" then
        match s' with
        | String "_" s'' => s''
        | _ => s'
        end
      else s
  | _ => s
  end.

Definition int_base (base : Z) (s : string) : result Z :=
  let s1 := lstrip_with is_c_space s in
  let '(sign, s2) := skip_sign s1 in
  let s3 := if (base =? 16)%Z then skip_hex_prefix s2 else s2 in
  if startswith "_" s3 then Raise ValueError
  else match scan_digits base s3 false false 0%Z with
       | Some (v, rest) =>
           if all_chars is_c_space rest then Ok (sign * v)%Z
           else Raise ValueError
       | None => Raise ValueError
       end.

(** [int(s)]. *)
Definition int (s : string) : result Z := int_base 10 s.
(** [int(s, 16)]. *)
Definition int16 (s : string) : result Z := int_base 16 s.

End PyStr.

(** ** predicates.py *)

Module Predicates.

Inductive VersionRelation : Type := LOWER | EXACT | HIGHER.

Definition rel_eqb (a b : VersionRelation) : bool :=
  match a, b with
  | LOWER, LOWER | EXACT, EXACT | HIGHER, HIGHER => true
  | _, _ => false
  end.

(** [VersionInfo] and [TARGET_VERSIONS] of [__init__.py]. *)
Record VersionInfo : Type := mkVersion { major : Z; minor : Z; micro : Z; patch : Z }.

Definition TARGET_VERSIONS : list VersionInfo :=
  [ mkVersion 20 1 0 3;
    mkVersion 20 2 0 7;
    mkVersion 20 2 0 8;
    mkVersion 20 3 0 9;
    mkVersion 20 6 0 0 ].

Definition BETHESDA_MODULES : list string :=
  ["BSMain"; "BSAnimation"; "BSParticle"; "BSHavok"; "BSLegacy"].
Definition EXCLUDED_NAMES : list string := ["RendererID"; "BoneTransform"].

(** [x in xs] for a list of strings. *)
Definition in_list (x : string) (xs : list string) : bool :=
  existsb (String.eqb x) xs.

Definition split_version_string (s : string) : result (list string) :=
  let parts := if PyStr.contains "." s then PyStr.split "." s
               else PyStr.split "_" s in
  match parts with
  | p0 :: rest => Ok (PyStr.lstrip_V p0 :: rest)
  | [] => Raise IndexError
  end.

(** [parts.get(i, 0)] on the dictionary built by [enumerate]. *)
Definition parts_get (parts : list Z) (i : nat) : Z := nth i parts 0%Z.

Definition check_version (version : VersionInfo) (s : string)
  : result VersionRelation :=
  let* strs := split_version_string s in
  let* parts := mapM PyStr.int strs in
  let major' := parts_get parts 0 in
  let minor' := parts_get parts 1 in
  let micro' := parts_get parts 2 in
  let patch' := parts_get parts 3 in
  Ok (if (major' <? major version)%Z then LOWER
      else if (major' >? major version)%Z then HIGHER
      else if (minor' <? minor version)%Z then LOWER
      else if (minor' >? minor version)%Z then HIGHER
      else if (micro' <? micro version)%Z then LOWER
      else if (micro' >? micro version)%Z then HIGHER
      else if (patch' <? patch version)%Z then LOWER
      else if (patch' >? patch version)%Z then HIGHER
      else EXACT).

(** The inner [check_target_version] of [should_emit_struct]. *)
Definition struct_check_target_version (attrib : gmap string string)
  (version : VersionInfo) : result bool :=
  if has_key attrib "since" && negb (has_key attrib "versions") then
    let* since := getitem attrib "since" in
    let* r := check_version version since in
    let x := negb (rel_eqb r HIGHER) in
    if has_key attrib "until" then
      if x then
        let* until := getitem attrib "until" in
        let* r' := check_version version until in
        Ok (negb (rel_eqb r' HIGHER))
      else Ok false
    else Ok x
  else if has_key attrib "versions" then
    let* versions := getitem attrib "versions" in
    if negb (PyStr.startswith "#" versions) then
      anyM (fun ver => let* r := check_version version ver in
                       Ok (rel_eqb r EXACT))
           (PyStr.split " " versions)
    else Ok true
  else Ok true.

Definition should_emit_struct (attrib : gmap string string) : result bool :=
  if has_key attrib "versions" then Ok false
  else if has_key attrib "module" &&
          match attrib !! "module" with
          | Some m => in_list m BETHESDA_MODULES
          | None => false
          end then Ok false
  else if match attrib !! "name" with
          | Some n => in_list n EXCLUDED_NAMES
          | None => false
          end then Ok false
  else if match attrib !! "name" with
          | Some n => PyStr.contains "physx" (PyStr.lower n)
          | None => false
          end then Ok false
  else if match attrib !! "name" with
          | Some n => PyStr.startswith "bhk" n
          | None => false
          end then Ok false
  else anyM (struct_check_target_version attrib) TARGET_VERSIONS.

(** The inner [check_target_version] of [should_emit_member]. *)
Definition member_check_target_version (attrib : gmap string string)
  (version : VersionInfo) : result bool :=
  let* hi :=
    match attrib !! "ver1" with
    | Some v1 => let* r := check_version version v1 in Ok (rel_eqb r HIGHER)
    | None => Ok false
    end in
  if hi then Ok false
  else
    let* lo :=
      match attrib !! "ver2" with
      | Some v2 => let* r := check_version version v2 in Ok (rel_eqb r LOWER)
      | None => Ok false
      end in
    if lo then Ok false else Ok true.

(** The allowlist test on a [vercond] value: true when the member is
    dropped. *)
Definition vercond_rejected (vercond : string) : bool :=
  negb (String.eqb vercond "#NISTREAM#")
  && negb (PyStr.startswith "!" vercond)
  && negb (PyStr.startswith "#NI" vercond)
  && negb (PyStr.startswith "#BSVER# #LT" vercond).

Definition should_emit_member (attrib : gmap string string) : result bool :=
  let* some := anyM (member_check_target_version attrib) TARGET_VERSIONS in
  if negb some then Ok false
  else if match attrib !! "vercond" with
          | Some vercond => vercond_rejected vercond
          | None => false
          end then Ok false
  else if match attrib !! "cond" with
          | Some c => String.eqb c "#BSSTREAMHEADER#"
          | None => false
          end then Ok false
  else Ok true.

End Predicates.

Import Predicates.

(** ** The [re] fragment used by expr.py

    Python's [re] is a backtracking matcher: alternatives are tried left to
    right, a greedy star takes as many characters as it can and gives them
    back one at a time, and [search] tries the start positions from left to
    right.  The matcher below is written in continuation-passing style, so
    that this order is the order of evaluation. *)

Module Re.

Inductive regex : Type :=
| Eps
| Chr (c : ascii)
| Cls (p : ascii -> bool)
| Star (p : ascii -> bool)
| Seq (r1 r2 : regex)
| Alt (r1 r2 : regex)
| Group (n : nat) (r : regex).

(** The groups set so far, most recent first. *)
Definition captures : Type := list (nat * string).

Fixpoint group (caps : captures) (n : nat) : option string :=
  match caps with
  | [] => None
  | (m, g) :: caps' => if Nat.eqb m n then Some g else group caps' n
  end.

(** What was read between the input [s] and its suffix [s']. *)
Definition consumed (s s' : string) : string :=
  String.substring 0 (String.length s - String.length s') s.

Fixpoint star {R : Type} (p : ascii -> bool) (s : string)
  (k : string -> option R) : option R :=
  match s with
  | EmptyString => k s
  | String c s' =>
      if p c then
        match star p s' k with
        | Some r => Some r
        | None => k s
        end
      else k s
  end.

Fixpoint run (r : regex) (s : string) (caps : captures)
  (k : string -> captures -> option captures) : option captures :=
  match r with
  | Eps => k s caps
  | Chr c =>
      match s with
      | String c' s' => if Ascii.eqb c c' then k s' caps else None
      | EmptyString => None
      end
  | Cls p =>
      match s with
      | String c' s' => if p c' then k s' caps else None
      | EmptyString => None
      end
  | Star p => star p s (fun s' => k s' caps)
  | Seq r1 r2 => run r1 s caps (fun s' caps' => run r2 s' caps' k)
  | Alt r1 r2 =>
      match run r1 s caps k with
      | Some m => Some m
      | None => run r2 s caps k
      end
  | Group n r1 =>
      run r1 s caps (fun s' caps' => k s' ((n, consumed s s') :: caps'))
  end.

(** [pattern.match(s)]: a match that starts at the first character. *)
Definition match_here (r : regex) (s : string) : option captures :=
  run r s [] (fun _ caps => Some caps).

(** [pattern.search(s)]. *)
Fixpoint search (r : regex) (s : string) : option captures :=
  match match_here r s with
  | Some caps => Some caps
  | None =>
      match s with
      | EmptyString => None
      | String _ s' => search r s'
      end
  end.

Fixpoint cat (rs : list regex) : regex :=
  match rs with
  | [] => Eps
  | [r] => r
  | r :: rs' => Seq r (cat rs')
  end.

(** [.] (any character but the newline), [\w] and [\W]. *)
Definition dot (c : ascii) : bool := negb (Ascii.eqb c "010").
Definition w (c : ascii) : bool := PyStr.is_word c.
Definition W (c : ascii) : bool := negb (PyStr.is_word c).

End Re.

(** ** expr.py *)

Module Expr.

Import Re.

Definition _RUST_KEYWORDS : list string :=
  [ "as"; "break"; "const"; "continue"; "crate"; "else"; "enum"; "extern";
    "false"; "fn"; "for"; "if"; "impl"; "in"; "let"; "loop"; "match"; "mod";
    "move"; "mut"; "pub"; "ref"; "return"; "self"; "Self"; "static"; "struct";
    "super"; "trait"; "true"; "type"; "unsafe"; "use"; "where"; "while"; "async";
    "await"; "dyn"; "abstract"; "become"; "box"; "do"; "final"; "macro";
    "override"; "priv"; "typeof"; "unsized"; "virtual"; "yield"; "try" ].

(** [convert_field_name] of types.py. *)
Definition convert_field_name (name : string) : string :=
  if String.eqb name "#ARG#" then "arg"
  else if PyStr.contains "." name then
    "FileVersion(" ++ PyStr.join ", " (PyStr.split "." name) ++ ")"
  else
    let name' := PyStr.replace ":" "" (PyStr.replace " " "_" (PyStr.lower name)) in
    if in_list name' _RUST_KEYWORDS then "r#" ++ name' else name'.

Definition OPERATORS : list (string * string) :=
  [ ("#ADD#", "+");
    ("#SUB#", "-");
    ("#MUL#", "*");
    ("#DIV#", "/");
    ("#AND#", "&&");
    ("#OR#", "||");
    ("#LT#", "<");
    ("#GT#", ">");
    ("#LTE#", "<=");
    ("#GTE#", ">=");
    ("#EQ#", "==");
    ("#NEQ#", "!=");
    ("#RSH#", ">>");
    ("#LSH#", "<<");
    ("#BITAND#", "&");
    ("#BITOR#", "|") ].

(** [OPERATORS.get(op, op)]. *)
Fixpoint operators_get (table : list (string * string)) (op : string) : string :=
  match table with
  | [] => op
  | (k, v) :: table' => if String.eqb k op then v else operators_get table' op
  end.

(** The operator group of the three patterns: a non-word character, word
    characters and a non-word character, or else a run of non-word
    characters. *)
Definition OP : regex := Alt (cat [Cls W; Star w; Cls W]) (Star W).

Definition EXPR_RE_1 : regex :=
  cat [ Group 1 (Star dot); Chr "("; Group 2 (Star dot); Chr ")"; Chr " ";
        Group 3 OP; Chr " "; Chr "("; Group 4 (Star dot); Chr ")" ].
Definition EXPR_RE_2 : regex :=
  cat [ Group 1 (Star dot); Chr "("; Group 2 (Star dot); Chr " ";
        Group 3 OP; Chr " "; Group 4 (Star dot); Chr ")" ].
Definition EXPR_RE_3 : regex :=
  cat [ Group 1 (Star dot); Chr " "; Group 2 OP; Chr " "; Group 3 (Star dot) ].

Definition _contains_any_operator (s : string) : bool :=
  existsb (fun kv => PyStr.contains (fst kv) s || PyStr.contains (snd kv) s)
          OPERATORS.

Definition is_compound (expr : string) : bool :=
  PyStr.contains "(" expr || PyStr.contains ")" expr
  || _contains_any_operator expr.

(** The outcome of the three [search] calls: the match, [no_unary] and
    [group_indices]. *)
Definition first_shape (expr : string)
  : option (captures * bool * (nat * nat * nat)) :=
  match search EXPR_RE_1 expr with
  | Some m => Some (m, false, (2, 3, 4)%nat)
  | None =>
      match search EXPR_RE_2 expr with
      | Some m => Some (m, false, (2, 3, 4)%nat)
      | None =>
          match search EXPR_RE_3 expr with
          | Some m => Some (m, true, (1, 2, 3)%nat)
          | None => None
          end
      end
  end.

(** [result.group(i)]; a group that took no part in the match is [None] in
    Python and the next string operation on it raises [TypeError]. *)
Definition get_group (m : captures) (i : nat) : result string :=
  match group m i with
  | Some g => Ok g
  | None => Raise TypeError
  end.

(** The parenthesization of a parsed operand. *)
Definition wrap (e : string) : string :=
  if PyStr.contains " " e && negb (PyStr.startswith "FileVersion" e)
  then "(" ++ e ++ ")" else e.

(** [parse_expression], by recursion on a bound on the length of the
    expression: each recursive call is on a group of a match, which is
    shorter than the text matched.  [RecursionError] stands for an exhausted
    bound. *)
Fixpoint parse_expression_fuel (fuel : nat) (expr : string) : result string :=
  match fuel with
  | O => Raise RecursionError
  | S fuel' =>
      if is_compound expr then
        match first_shape expr with
        | None => Raise AttributeError
        | Some (m, no_unary, (i1, i2, i3)) =>
            let* unary := (if no_unary then Ok EmptyString else get_group m 1) in
            let* g1 := get_group m i1 in
            let* expr1 := parse_expression_fuel fuel' g1 in
            let expr1 := wrap expr1 in
            let* op := get_group m i2 in
            if String.eqb (PyStr.rstrip (PyStr.lstrip op)) "|" then Ok expr1
            else
              let* g3 := get_group m i3 in
              let* expr2 := parse_expression_fuel fuel' g3 in
              let expr2 := wrap expr2 in
              let op := operators_get OPERATORS op in
              let res := expr1 ++ " " ++ op ++ " " ++ expr2 in
              match unary with
              | EmptyString => Ok res
              | _ => Ok (unary ++ "(" ++ res ++ ")")
              end
        end
      else
        Ok (if negb (PyStr.isnumeric expr) then convert_field_name expr else expr)
  end.

Definition parse_expression (expr : string) : result string :=
  parse_expression_fuel (S (String.length expr)) expr.

End Expr.

Import Expr.

(** ** types.py *)

(** Python dictionaries keep their keys in insertion order, and the field
    maps of the schema model are read in that order by the emitter: they are
    association lists with at most one entry per key.  An assignment to a key
    that is present replaces its value in place; a new key goes to the end. *)

Module Dict.

Definition t (V : Type) : Type := list (string * V).

Fixpoint get {V : Type} (d : t V) (k : string) : option V :=
  match d with
  | [] => None
  | (k', v) :: d' => if String.eqb k' k then Some v else get d' k
  end.

Fixpoint set {V : Type} (d : t V) (k : string) (v : V) : t V :=
  match d with
  | [] => [(k, v)]
  | (k', v') :: d' =>
      if String.eqb k' k then (k', v) :: d' else (k', v') :: set d' k v
  end.

Definition mem {V : Type} (d : t V) (k : string) : bool :=
  match get d k with
  | Some _ => true
  | None => false
  end.

(** The number of entries stored under [k]. *)
Definition count {V : Type} (d : t V) (k : string) : nat :=
  List.length (List.filter (fun kv => String.eqb (fst kv) k) d).

End Dict.

Module Types.

(** An XML element as the builders read it: its attributes, its text and the
    attributes of its children in document order. *)
Record Element : Type := mkElement {
  attrib : gmap string string;
  text : option string;
  children : list (gmap string string)
}.

Definition _BUILTIN_TYPES : list (string * string) :=
  [ ("uint64", "u64");
    ("int64", "i64");
    ("ulittle32", "u32");
    ("uint", "u32");
    ("int", "i32");
    ("ushort", "u16");
    ("short", "i16");
    ("char", "i8");
    ("byte", "u8");
    ("bool", "bool");
    ("float", "f32");
    ("hfloat", "f16");
    ("string", "NiString");
    ("#T#", "T") ].

(** [name[0].upper() + name[1:]]; indexing the empty string raises. *)
Definition _convert_struct_name (name : string) : result string :=
  match name with
  | EmptyString => Raise IndexError
  | String c rest => Ok (String (PyStr.upper_char c) rest)
  end.

Definition _convert_variant_name (name : string) : string :=
  PyStr.replace ":" "" (PyStr.replace " " "" name).

(** [_BUILTIN_TYPES.get(ty, _convert_struct_name(ty))]: the default is
    computed before the lookup, so the empty name raises. *)
Definition _convert_type (ty : option string) : result (option string) :=
  match ty with
  | None => Ok None
  | Some ty =>
      let* dflt := _convert_struct_name ty in
      Ok (Some (match Dict.get _BUILTIN_TYPES ty with
                | Some b => b
                | None => dflt
                end))
  end.

(** [_convert_type] on a value that is a string. *)
Definition _convert_type_str (ty : string) : result string :=
  let* r := _convert_type (Some ty) in
  match r with
  | Some t => Ok t
  | None => Raise TypeError
  end.

Definition is_linebreak (c : ascii) : bool :=
  PyStr.between 10 13 c || PyStr.between 28 30 c.

(** [s.splitlines()]; [after_cr] says that the previous character was a
    carriage return, whose line feed belongs to the same boundary. *)
Fixpoint splitlines_from (after_cr : bool) (s : string) : list string :=
  match s with
  | EmptyString => []
  | String c s' =>
      if after_cr && Ascii.eqb c "010" then splitlines_from false s'
      else if is_linebreak c then
        EmptyString :: splitlines_from (Ascii.eqb c "013") s'
      else
        match splitlines_from false s' with
        | l :: ls => String c l :: ls
        | [] => [String c EmptyString]
        end
  end.

Definition splitlines (s : string) : list string := splitlines_from false s.

Definition _format_doc (doc : option string) : string :=
  match doc with
  | None | Some EmptyString => EmptyString
  | Some doc =>
      let lines := map (fun l => PyStr.rstrip (PyStr.lstrip l))
                       (splitlines (PyStr.strip doc)) in
      fold_left (fun acc line => acc ++ "/// " ++ line ++ String "010" EmptyString)
                lines EmptyString
  end.

(** *** class Type *)

Record Type_ : Type := mkType {
  ty : string;
  t_arg : option string;
  arr1 : option string;
  arr2 : option string;
  arg : option string;
  cond : option string;
  ver1 : option string;
  ver2 : option string
}.

Definition set_cond (f : Type_) (c : option string) : Type_ :=
  mkType (ty f) (t_arg f) (arr1 f) (arr2 f) (arg f) c (ver1 f) (ver2 f).
Definition set_arr1 (f : Type_) (a : option string) : Type_ :=
  mkType (ty f) (t_arg f) a (arr2 f) (arg f) (cond f) (ver1 f) (ver2 f).

(** Truthiness of an optional string: [None] and the empty string are false. *)
Definition truthy (o : option string) : bool :=
  match o with
  | None | Some EmptyString => false
  | Some _ => true
  end.

(** [str(x)] inside an f-string. *)
Definition py_str (o : option string) : string :=
  match o with
  | None => "None"
  | Some s => s
  end.

Definition opt_eqb (a b : option string) : bool :=
  match a, b with
  | None, None => true
  | Some x, Some y => String.eqb x y
  | _, _ => false
  end.

Definition get_inner_type (self : Type_) : string :=
  if truthy (t_arg self) then ty self ++ "<" ++ py_str (t_arg self) ++ ">"
  else ty self.

Definition get_full_type (self : Type_) : string :=
  let t := get_inner_type self in
  match arr1 self with
  | None | Some EmptyString => t
  | Some a1 =>
      if PyStr.isnumeric a1 then
        let size := match arr2 self with
                    | Some a2 => if truthy (Some a2) && PyStr.isnumeric a2
                                 then a1 ++ " + " ++ a2 else a1
                    | None => a1
                    end in
        "[" ++ t ++ "; " ++ size ++ "]"
      else "Vec<" ++ t ++ ">"
  end.

Definition is_optional (self : Type_) : bool :=
  match cond self with
  | Some _ => true
  | None => false
  end.

(** [Type.__str__]. *)
Definition to_str (self : Type_) : string :=
  let t := get_full_type self in
  if is_optional self then "Option<" ++ t ++ ">" else t.

(** [Type.from_xml]. *)
Definition Type_from_xml (a : gmap string string) : result Type_ :=
  let* type := getitem a "type" in
  let* ty := _convert_type_str type in
  let* t_arg := _convert_type (a !! "template") in
  Ok (mkType ty t_arg (a !! "arr1") (a !! "arr2") (a !! "arg")
             (a !! "cond") (a !! "ver1") (a !! "ver2")).

(** [Type.matches]. *)
Definition matches (self other : Type_) : bool :=
  String.eqb (ty self) (ty other)
  && opt_eqb (t_arg self) (t_arg other)
  && opt_eqb (arr1 self) (arr1 other)
  && opt_eqb (arr2 self) (arr2 other)
  && opt_eqb (arg self) (arg other).

(** The loop header [for x in filter(lambda f: should_emit_member(f.attrib),
    entry)]: [filter] is lazy, so the predicate of a child runs just before
    the body on that child. *)
Definition for_emitted {St : Type}
  (body : St -> gmap string string -> result St)
  (entry : Element) (st : St) : result St :=
  foldM (fun st child =>
           let* keep := should_emit_member child in
           if keep then body st child else Ok st)
        (children entry) st.

(** [name], prefixed when the entry declares a prefix. *)
Definition with_prefix (entry : Element) (name : string) : string :=
  match attrib entry !! "prefix" with
  | Some p => p ++ "_" ++ name
  | None => name
  end.

(** *** class BitFlags *)

Record BitFlags : Type := mkBitFlags {
  bf_name : string;
  bf_doc : string;
  bf_storage : string;
  flags : Dict.t Z
}.

Definition BitFlags_from_xml (entry : Element) : result BitFlags :=
  let* name := getitem (attrib entry) "name" in
  let doc := _format_doc (text entry) in
  let* storage := getitem (attrib entry) "storage" in
  let* storage := _convert_type_str storage in
  let* flags :=
    for_emitted (fun flags flag =>
      let* b := getitem flag "bit" in
      let* bit := PyStr.int b in
      let* n := getitem flag "name" in
      let name := with_prefix entry (_convert_variant_name n) in
      Ok (Dict.set flags name bit)) entry [] in
  Ok (mkBitFlags name doc storage flags).

(** *** class Enum *)

Record Enum : Type := mkEnum {
  en_name : string;
  en_doc : string;
  en_storage : string;
  options : Dict.t Z
}.

Definition Enum_from_xml (entry : Element) : result Enum :=
  let* name := getitem (attrib entry) "name" in
  let doc := _format_doc (text entry) in
  let* storage := getitem (attrib entry) "storage" in
  let* storage := _convert_type_str storage in
  let* options :=
    for_emitted (fun options option =>
      let* value := getitem option "value" in
      let* value := (if PyStr.startswith "0x" value then PyStr.int16 value
                     else PyStr.int value) in
      let* n := getitem option "name" in
      let variant_name := with_prefix entry (_convert_variant_name n) in
      Ok (Dict.set options variant_name value)) entry [] in
  Ok (mkEnum name doc storage options).

(** *** class BitField *)

Record BitField : Type := mkBitField {
  bfd_name : string;
  bfd_doc : string;
  bfd_storage : string;
  bfd_fields : Dict.t (Type_ * string * string * option string)
}.

Definition BitField_from_xml (entry : Element) (prefixes : gmap string string)
  : result BitField :=
  let* name := getitem (attrib entry) "name" in
  let doc := _format_doc (text entry) in
  let* storage := getitem (attrib entry) "storage" in
  let* storage := _convert_type_str storage in
  let* fields :=
    for_emitted (fun fields field =>
      let* pos := getitem field "pos" in
      let* mask := getitem field "mask" in
      let* n := getitem field "name" in
      let name := convert_field_name n in
      let* t := Type_from_xml field in
      let default :=
        match field !! "default", prefixes !! ty t with
        | Some d, Some p => Some (p ++ "_" ++ d)
        | d, _ => d
        end in
      Ok (Dict.set fields name (t, pos, mask, default))) entry [] in
  Ok (mkBitField name doc storage fields).

(** *** class Compound *)

Record Compound : Type := mkCompound {
  c_name : string;
  c_doc : string;
  generic : bool;
  c_fields : Dict.t Type_
}.

(** The body of the loop of [Compound.from_xml]. *)
Definition Compound_add_field (fields : Dict.t Type_)
  (field : gmap string string) : result (Dict.t Type_) :=
  let* n := getitem field "name" in
  let name := convert_field_name n in
  if Dict.mem fields name then Ok fields
  else
    let* t := Type_from_xml field in
    Ok (Dict.set fields name t).

Definition Compound_from_xml (entry : Element) : result Compound :=
  let* n := getitem (attrib entry) "name" in
  let* name := _convert_type_str n in
  let doc := _format_doc (text entry) in
  let generic := opt_eqb (attrib entry !! "generic") (Some "true") in
  let* fields := for_emitted Compound_add_field entry [] in
  Ok (mkCompound name doc generic fields).

(** *** class NiObject *)

Record NiObject : Type := mkNiObject {
  o_name : string;
  o_doc : string;
  parent : string;
  o_fields : Dict.t Type_
}.

(** The state of the loop of [NiObject.from_xml]: the field map and the
    lines printed so far. *)
Definition obj_state : Type := (Dict.t Type_ * list string)%type.

Definition is_palette (obj_name name : string) : bool :=
  String.eqb obj_name "NiPalette" && String.eqb name "palette".

(** The three lines printed on an incompatible redeclaration. *)
Definition redeclaration (obj_name name : string) (old field : Type_)
  : list string :=
  [ "Redeclaration of field " ++ name ++ " in " ++ obj_name
      ++ ", with incompatible signature:";
    " old: " ++ to_str old;
    " new: " ++ to_str field ].

(** The body of the loop of [NiObject.from_xml]. *)
Definition NiObject_add_field (obj_name : string) (st : obj_state)
  (xml : gmap string string) : result obj_state :=
  let '(fields, out) := st in
  let* n := getitem xml "name" in
  let name := convert_field_name n in
  let* field := Type_from_xml xml in
  match Dict.get fields name with
  | Some old =>
      if negb (truthy (cond field)) && negb (truthy (cond old)) then Ok st
      else if negb (matches field old) && negb (is_palette obj_name name) then
        Ok (fields, app out (redeclaration obj_name name old field))
      else
        Ok (Dict.set fields name
              (set_cond old (Some ("(" ++ py_str (cond old) ++ ") #OR# ("
                                       ++ py_str (cond field) ++ ")"))),
            out)
  | None =>
      let field := if is_palette obj_name name
                   then set_cond (set_arr1 field (Some "Num Entries")) None
                   else field in
      Ok (Dict.set fields name field, out)
  end.

(** [NiObject.from_xml], with the lines it prints. *)
Definition NiObject_from_xml (entry : Element) : result (NiObject * list string) :=
  let* n := getitem (attrib entry) "name" in
  let* name := _convert_struct_name n in
  let doc := _format_doc (text entry) in
  let* parent := getitem (attrib entry) "inherit" in
  let* st := for_emitted (NiObject_add_field name) entry ([], []) in
  Ok (mkNiObject name doc parent (fst st), snd st).

(** *** The version guard of [Type] and the import attribute of [Compound] *)

(** [Type.get_vercond_attr]. *)
Definition get_vercond_attr (self : Type_) : string :=
  let stmt :=
    match ver1 self with
    | Some v1 =>
        "FileVersion(" ++ PyStr.replace "." "," v1 ++ ") <= _header_version"
    | None => EmptyString
    end in
  match ver2 self with
  | Some v2 =>
      (if negb (String.eqb stmt EmptyString) then stmt ++ " && " else stmt)
      ++ "_header_version <= FileVersion(" ++ PyStr.replace "." "," v2 ++ ")"
  | None => stmt
  end.

(** [Compound.get_import_attr]. *)
Definition get_import_attr (self : Compound) : string :=
  let field_needs_arg :=
    existsb (fun kv => if truthy (cond (snd kv))
                       then PyStr.contains "#ARG#" (py_str (cond (snd kv)))
                       else false)
            (c_fields self) in
  if in_list (c_name self) ["Morph"; "NiAGDDataBlocks"] || field_needs_arg
  then "#[br(import(arg: usize, _header_version: FileVersion))]"
       ++ String "010" EmptyString
  else "#[br(import(_header_version: FileVersion))]" ++ String "010" EmptyString.

End Types.

Import Types.

(** * Specification-level definitions

    The notions the properties below are stated with. *)

Import Re.

(** Component-wise comparison of two lists of numbers, decided at the first
    place where they differ. *)
Fixpoint lex_compare (xs ys : list Z) : VersionRelation :=
  match xs, ys with
  | x :: xs', y :: ys' =>
      if (x <? y)%Z then LOWER
      else if (y <? x)%Z then HIGHER
      else lex_compare xs' ys'
  | _, _ => EXACT
  end.

(** The first four components, a missing one being 0. *)
Definition four (nums : list Z) : list Z :=
  map (fun i => nth i nums 0%Z) [0; 1; 2; 3]%nat.

Definition components (v : VersionInfo) : list Z :=
  [major v; minor v; micro v; patch v].

Fixpoint repeat_char (c : ascii) (n : nat) : string :=
  match n with
  | O => EmptyString
  | S n' => String c (repeat_char c n')
  end.

Definition sep_of (s : string) : ascii :=
  if PyStr.contains "." s then "."%char else "_"%char.

(** A version string that [check_version] can read. *)
Definition parses (s : string) : Prop :=
  exists v r, check_version v s = Ok r.

(** The denylist rules of [should_emit_struct]. *)
Definition denied (attrib : gmap string string) : Prop :=
  is_Some (attrib !! "versions")
  \/ (exists m, attrib !! "module" = Some m /\ In m BETHESDA_MODULES)
  \/ (exists n, attrib !! "name" = Some n
                /\ (In n EXCLUDED_NAMES
                    \/ PyStr.contains "physx" (PyStr.lower n) = true
                    \/ PyStr.startswith "bhk" n = true)).

(** [check_version v s] answers, and its answer is not [rel]. *)
Definition answers_not (rel : VersionRelation) (v : VersionInfo) (s : string)
  : Prop :=
  exists r, check_version v s = Ok r /\ r <> rel.

(** The [since]/[until] test of a structure on the target [v], through the
    answers of [check_version]: the answer for [since] is not HIGHER and,
    when there is an [until], the answer for it is not HIGHER.  A structure
    without [since] declares no range. *)
Definition struct_in_range (attrib : gmap string string) (v : VersionInfo)
  : Prop :=
  forall since, attrib !! "since" = Some since ->
    answers_not HIGHER v since
    /\ (forall until, attrib !! "until" = Some until -> answers_not HIGHER v until).

(** The target [v] satisfies the [ver1]/[ver2] range of a member. *)
Definition member_in_range (attrib : gmap string string) (v : VersionInfo)
  : Prop :=
  (forall v1, attrib !! "ver1" = Some v1 -> answers_not HIGHER v v1)
  /\ (forall v2, attrib !! "ver2" = Some v2 -> answers_not LOWER v v2).

(** The target [v] fails the [ver1]/[ver2] range of a member: [ver1] is
    HIGHER, or [ver1] lets it through and [ver2] is LOWER. *)
Definition member_out_of_range (attrib : gmap string string) (v : VersionInfo)
  : Prop :=
  (exists v1, attrib !! "ver1" = Some v1 /\ check_version v v1 = Ok HIGHER)
  \/ ((forall v1, attrib !! "ver1" = Some v1 -> answers_not HIGHER v v1)
      /\ exists v2, attrib !! "ver2" = Some v2 /\ check_version v v2 = Ok LOWER).

(** The [vercond] allowlist, in the words of the four rules. *)
Definition vercond_allowed (vercond : string) : Prop :=
  vercond = "#NISTREAM#"
  \/ PyStr.startswith "!" vercond = true
  \/ PyStr.startswith "#NI" vercond = true
  \/ PyStr.startswith "#BSVER# #LT" vercond = true.

(** The chain of early returns of [should_emit_struct] as one test. *)
Definition denied_b (attrib : gmap string string) : bool :=
  has_key attrib "versions"
  || (has_key attrib "module" &&
      match attrib !! "module" with
      | Some m => in_list m BETHESDA_MODULES
      | None => false
      end)
  || match attrib !! "name" with
     | Some n => in_list n EXCLUDED_NAMES
     | None => false
     end
  || match attrib !! "name" with
     | Some n => PyStr.contains "physx" (PyStr.lower n)
     | None => false
     end
  || match attrib !! "name" with
     | Some n => PyStr.startswith "bhk" n
     | None => false
     end.

(** A field map in which no name is stored twice. *)
Definition unique_keys {V : Type} (d : Dict.t V) : Prop :=
  forall k, (Dict.count d k <= 1)%nat.

(** The condition stored by a merge of [old] with the redeclaration [field]. *)
Definition or_cond (old field : Type_) : string :=
  "(" ++ py_str (cond old) ++ ") #OR# (" ++ py_str (cond field) ++ ")".

(** One of the two occurrences carries an existence-condition. *)
Definition conditioned (old field : Type_) : Prop :=
  truthy (cond field) = true \/ truthy (cond old) = true.

(** [b] is [a] up to the version range: every attribute but [ver1] and
    [ver2] is the same. *)
Definition same_but_versions (a b : Type_) : Prop :=
  ty a = ty b /\ t_arg a = t_arg b /\ arr1 a = arr1 b /\ arr2 a = arr2 b
  /\ arg a = arg b /\ cond a = cond b.

(** [b] has the shape of [a]: every attribute but the condition and the
    version range is the same. *)
Definition same_shape (a b : Type_) : Prop :=
  ty a = ty b /\ t_arg a = t_arg b /\ arr1 a = arr1 b /\ arr2 a = arr2 b
  /\ arg a = arg b.

(** The two [Palette] fields of a [NiPalette] object. *)
Definition palette_entry : Element :=
  mkElement
    (<[ "inherit" := "NiObject" ]> {[ "name" := "NiPalette" ]})
    None
    [ <[ "cond" := "Num Entries #EQ# 256" ]>
        (<[ "arr1" := "256" ]>
           (<[ "type" := "ByteColor4" ]> {[ "name" := "Palette" ]}));
      <[ "cond" := "Num Entries #EQ# 16" ]>
        (<[ "arr1" := "16" ]>
           (<[ "type" := "ByteColor4" ]> {[ "name" := "Palette" ]})) ].

(** A compound that declares the field [x] twice, with the same shape and
    the conditions [A] and [B]. *)
Definition twice_x_entry : Element :=
  mkElement
    {[ "name" := "Foo" ]}
    None
    [ <[ "cond" := "A" ]> (<[ "type" := "uint" ]> {[ "name" := "x" ]});
      <[ "cond" := "B" ]> (<[ "type" := "uint" ]> {[ "name" := "x" ]}) ].

(** What [parse_expression] makes of a leaf: a number is kept and any other
    text is a field name. *)
Definition leaf (expr : string) : string :=
  if PyStr.isnumeric expr then expr else convert_field_name expr.

(** The text is matched by one of the three grammar shapes. *)
Definition matches_a_shape (expr : string) : Prop :=
  search EXPR_RE_1 expr <> None
  \/ search EXPR_RE_2 expr <> None
  \/ search EXPR_RE_3 expr <> None.

(** The binary expression [a op b] as the specification writes it. *)
Definition binary (a op b : string) : string := a ++ " " ++ op ++ " " ++ b.

(** An operand that is a plain name or number: a non-empty run of word
    characters. *)
Definition ident (a : string) : Prop :=
  a <> EmptyString /\ PyStr.all_chars PyStr.is_word a = true.

(** A character an operator is written with: not a word character, not the
    blank and not the opening parenthesis. *)
Definition sym (c : ascii) : bool :=
  W c && negb (Ascii.eqb c " ") && negb (Ascii.eqb c "(").

(** Word characters closed by an operator character. *)
Fixpoint word_then_sym (s : string) : bool :=
  match s with
  | EmptyString => false
  | String c EmptyString => sym c
  | String c s' => PyStr.is_word c && word_then_sym s'
  end.

(** The two spellings of the operators of the table: one operator character,
    or two of them around a (possibly empty) word. *)
Definition op_shape (op : string) : bool :=
  match op with
  | EmptyString => false
  | String c EmptyString => sym c
  | String c rest => sym c && word_then_sym rest
  end.

(** The matcher read declaratively: [reads r s caps s' caps'] says that [r]
    can read a prefix of [s] and leave [s'], setting the groups [caps'] from
    [caps].  It has no order of preference: [run] finds one of these
    readings. *)
Fixpoint reads (r : regex) (s : string) (caps : captures)
  (s' : string) (caps' : captures) : Prop :=
  match r with
  | Eps => s' = s /\ caps' = caps
  | Chr c => s = String c s' /\ caps' = caps
  | Cls p => (exists c, s = String c s' /\ p c = true) /\ caps' = caps
  | Star p => (exists pre, s = pre ++ s' /\ PyStr.all_chars p pre = true)
              /\ caps' = caps
  | Seq r1 r2 =>
      exists s1 caps1, reads r1 s caps s1 caps1 /\ reads r2 s1 caps1 s' caps'
  | Alt r1 r2 => reads r1 s caps s' caps' \/ reads r2 s caps s' caps'
  | Group n r1 =>
      exists caps1, reads r1 s caps s' caps1
                    /\ caps' = (n, consumed s s') :: caps1
  end.

(** The numbers of a version string, as [check_version] reads them. *)
Definition version_numbers (s : string) : result (list Z) :=
  let* strs := split_version_string s in mapM PyStr.int strs.

(** The version [s] is not above the target [v]: [s] is a version string
    and its first four numbers, compared with those of [v] component by
    component, are lower or the same. *)
Definition not_above (s : string) (v : VersionInfo) : Prop :=
  exists nums, version_numbers s = Ok nums
               /\ lex_compare (four nums) (components v) <> HIGHER.


(** The version check of [should_emit_member] raises: [ver1] is present and
    is not a version string, or [ver2] is present and is not one while [ver1]
    is absent or is not above one of the targets, for which [ver2] is then
    read. *)
Definition version_check_raises (attrib : gmap string string) : Prop :=
  (exists v1, attrib !! "ver1" = Some v1 /\ ~ parses v1)
  \/ ((exists v2, attrib !! "ver2" = Some v2 /\ ~ parses v2)
      /\ exists v, In v TARGET_VERSIONS
                   /\ forall v1, attrib !! "ver1" = Some v1 -> not_above v1 v).

(** The newest and the oldest target. *)
Definition newest : VersionInfo := mkVersion 20 6 0 0.
Definition oldest : VersionInfo := mkVersion 20 1 0 3.

(** Two attribute sets agree on the keys [ks]. *)
Definition agree_on (ks : list string) (a b : gmap string string) : Prop :=
  forall k, In k ks -> a !! k = b !! k.

(** The child is kept by the filter of the builders. *)
Definition emitted (c : gmap string string) : bool :=
  match should_emit_member c with
  | Ok true => true
  | _ => false
  end.

(** The child declares the field that is stored under [k]. *)
Definition declares (c : gmap string string) (k : string) : bool :=
  match c !! "name" with
  | Some n => String.eqb (convert_field_name n) k
  | None => false
  end.

(** The first emitted declaration of the field [k] among the children. *)
Fixpoint first_decl (cs : list (gmap string string)) (k : string)
  : option (gmap string string) :=
  match cs with
  | [] => None
  | c :: cs' => if emitted c && declares c k then Some c else first_decl cs' k
  end.

(** [t'] is [t] up to the condition. *)
Definition same_but_cond (t t' : Type_) : Prop :=
  ty t' = ty t /\ t_arg t' = t_arg t /\ arr1 t' = arr1 t /\ arr2 t' = arr2 t
  /\ arg t' = arg t /\ ver1 t' = ver1 t /\ ver2 t' = ver2 t.

(** The field stored under [k] keeps the declaration [t0]: all of it but the
    condition, and but the array length for [palette] of [NiPalette]. *)
Definition keeps_decl (obj_name k : string) (t0 t : Type_) : Prop :=
  ty t = ty t0 /\ t_arg t = t_arg t0 /\ arr2 t = arr2 t0 /\ arg t = arg t0
  /\ ver1 t = ver1 t0 /\ ver2 t = ver2 t0
  /\ (is_palette obj_name k = false -> arr1 t = arr1 t0).

(** The guards of the version range of a field. *)
Definition version_guards (t : Type_) : list string :=
  match ver1 t with
  | Some v1 =>
      ["FileVersion(" ++ PyStr.replace "." "," v1 ++ ") <= _header_version"]
  | None => []
  end
  ++ match ver2 t with
     | Some v2 =>
         ["_header_version <= FileVersion(" ++ PyStr.replace "." "," v2 ++ ")"]
     | None => []
     end.

(** What the loop bodies of [BitFlags.from_xml], [Enum.from_xml] and
    [BitField.from_xml] store for a child: the key and the value. *)
Definition flag_entry (entry : Element) (flag : gmap string string)
  : result (string * Z) :=
  let* b := getitem flag "bit" in
  let* bit := PyStr.int b in
  let* n := getitem flag "name" in
  Ok (with_prefix entry (_convert_variant_name n), bit).

Definition option_entry (entry : Element) (option : gmap string string)
  : result (string * Z) :=
  let* value := getitem option "value" in
  let* value := (if PyStr.startswith "0x" value then PyStr.int16 value
                 else PyStr.int value) in
  let* n := getitem option "name" in
  Ok (with_prefix entry (_convert_variant_name n), value).

Definition bitfield_entry (prefixes : gmap string string)
  (field : gmap string string)
  : result (string * (Type_ * string * string * option string)) :=
  let* pos := getitem field "pos" in
  let* mask := getitem field "mask" in
  let* n := getitem field "name" in
  let* t := Type_from_xml field in
  let default :=
    match field !! "default", prefixes !! ty t with
    | Some d, Some p => Some (p ++ "_" ++ d)
    | d, _ => d
    end in
  Ok (convert_field_name n, (t, pos, mask, default)).

(** The value of the last emitted child that stores something under [k]. *)
Fixpoint last_entry {V : Type} (f : gmap string string -> result (string * V))
  (cs : list (gmap string string)) (k : string) : option V :=
  match cs with
  | [] => None
  | c :: cs' =>
      match last_entry f cs' k with
      | Some v => Some v
      | None =>
          if emitted c then
            match f c with
            | Ok (k', v) => if String.eqb k' k then Some v else None
            | Raise _ => None
            end
          else None
      end
  end.

(** A text that a unary prefix may be: it has no newline and no closing
    parenthesis. *)
Definition prefix_ok (u : string) : Prop :=
  PyStr.all_chars (fun c => dot c && negb (Ascii.eqb ")" c)) u = true.

(** A binary expression put back together: [x op y], inside the prefix [u]
    and a pair of parentheses when there is a prefix. *)
Definition assembled (u x op y : string) : string :=
  match u with
  | EmptyString => binary x op y
  | _ => u ++ "(" ++ binary x op y ++ ")"
  end.

(** * Properties *)

(** ** Sanity checks of the embedding *)

Example int_ok : PyStr.int "20" = Ok 20%Z /\ PyStr.int " -1_0 " = Ok (-10)%Z
  /\ PyStr.int16 "0x1F" = Ok 31%Z /\ PyStr.int "" = Raise ValueError
  /\ PyStr.int "1__0" = Raise ValueError /\ PyStr.int "0x10" = Raise ValueError.
Proof. repeat split; reflexivity. Qed.


Example split_ok : PyStr.split "." "20.1.0.4" = ["20"; "1"; "0"; "4"]
  /\ PyStr.split "." "" = [""] /\ PyStr.split "_" "a_" = ["a"; ""].
Proof. repeat split; reflexivity. Qed.


Example check_version_examples :
  check_version (mkVersion 20 1 0 3) "20.1.0.4" = Ok HIGHER
  /\ check_version (mkVersion 20 2 0 7) "20_2_0_7" = Ok EXACT
  /\ check_version (mkVersion 20 2 0 7) "V20.2" = Ok LOWER
  /\ check_version (mkVersion 20 2 0 7) "20.x" = Raise ValueError.
Proof. repeat split; vm_compute; reflexivity. Qed.


Example emit_examples :
  should_emit_struct {[ "module" := "BSHavok" ]} = Ok false
  /\ should_emit_struct {[ "since" := "20.7.0.0" ]} = Ok false
  /\ should_emit_struct {[ "since" := "20.3.0.0" ]} = Ok true
  /\ should_emit_member {[ "ver1" := "20.7.0.0" ]} = Ok false
  /\ should_emit_member (<[ "cond" := "#BSSTREAMHEADER#" ]> {[ "ver1" := "x" ]}) = Raise ValueError.
Proof. repeat split; vm_compute; reflexivity. Qed.


Example parse_examples :
  parse_expression "(fizz) #ADD# (buzz)" = Ok "fizz + buzz"
  /\ parse_expression "!(fizz #ADD# buzz)" = Ok "!(fizz + buzz)"
  /\ parse_expression "fizz #AND# buzz" = Ok "fizz && buzz"
  /\ parse_expression "a #BITOR# b" = Ok "a | b"
  /\ parse_expression "a | b" = Ok "a"
  /\ parse_expression "a+b" = Raise AttributeError
  /\ parse_expression "Num Entries" = Ok "num_entries"
  /\ parse_expression "(Version #GTE# 20.2.0.7) #AND# (User Version #LT# 11)"
     = Ok "(version >= FileVersion(20, 2, 0, 7)) && (user_version < 11)".
Proof. repeat split; vm_compute; reflexivity. Qed.


(** ** Version comparison *)

Section CheckVersion.

Lemma append_cons c a b : String c a ++ b = String c (a ++ b).
Proof. reflexivity. Qed.

Lemma append_nil b : EmptyString ++ b = b.
Proof. reflexivity. Qed.

Lemma split_not_nil sep s : PyStr.split sep s <> [].
Proof.
  destruct s as [|c s]; simpl; [discriminate|].
  destruct (Ascii.eqb c sep); [discriminate|].
  destruct (PyStr.split sep s); discriminate.
Qed.

Lemma join_split sep s :
  PyStr.join (String sep EmptyString) (PyStr.split sep s) = s.
Proof.
  induction s as [|c s IH]; simpl; [reflexivity|].
  destruct (Ascii.eqb_spec c sep) as [->|Hne].
  - pose proof (split_not_nil sep s) as Hnn.
    destruct (PyStr.split sep s) as [|p ps] eqn:E; [contradiction|].
    change (PyStr.join (String sep EmptyString) (EmptyString :: p :: ps))
      with (String sep (PyStr.join (String sep EmptyString) (p :: ps))).
    now rewrite IH.
  - destruct (PyStr.split sep s) as [|p ps] eqn:E.
    + now destruct (split_not_nil sep s).
    + destruct ps as [|q qs]; simpl in *; now rewrite <- IH.
Qed.

Lemma startswith_single a c p :
  PyStr.startswith (String a EmptyString) (String c p) = Ascii.eqb a c.
Proof. cbn [PyStr.startswith]. apply andb_true_r. Qed.

Lemma contains_single sep c p :
  PyStr.contains (String sep EmptyString) (String c p)
  = Ascii.eqb sep c || PyStr.contains (String sep EmptyString) p.
Proof. cbn [PyStr.contains]. now rewrite startswith_single. Qed.

Lemma split_no_sep sep s :
  Forall (fun p => PyStr.contains (String sep EmptyString) p = false)
         (PyStr.split sep s).
Proof.
  induction s as [|c s IH]; simpl.
  - constructor; [reflexivity|constructor].
  - destruct (Ascii.eqb_spec c sep) as [->|Hne].
    + constructor; [reflexivity|exact IH].
    + destruct (PyStr.split sep s) as [|p ps]; simpl.
      * constructor; [|constructor]. rewrite contains_single. simpl.
        rewrite orb_false_r. apply Ascii.eqb_neq. congruence.
      * inversion IH as [|? ? Hp Hps]; subst. constructor; [|exact Hps].
        rewrite contains_single, Hp, orb_false_r.
        apply Ascii.eqb_neq. congruence.
Qed.

Lemma lstrip_V_run p :
  exists n, p = repeat_char "V" n ++ PyStr.lstrip_V p.
Proof.
  induction p as [|c p [n IH]].
  - now exists O.
  - unfold PyStr.lstrip_V in *. simpl.
    destruct (Ascii.eqb_spec c "V"%char) as [->|Hne].
    + exists (S n). simpl. rewrite append_cons. now f_equal.
    + now exists O.
Qed.

Lemma lstrip_V_done p : PyStr.startswith "V" (PyStr.lstrip_V p) = false.
Proof.
  unfold PyStr.lstrip_V.
  induction p as [|c p IH]; cbn [PyStr.lstrip_with]; [reflexivity|].
  destruct (Ascii.eqb_spec c "V"%char) as [->|Hne]; [exact IH|].
  rewrite startswith_single. apply Ascii.eqb_neq. congruence.
Qed.

Lemma nested_is_lex (a b c d : Z) (v : VersionInfo) :
  (if (a <? major v)%Z then LOWER
   else if (a >? major v)%Z then HIGHER
   else if (b <? minor v)%Z then LOWER
   else if (b >? minor v)%Z then HIGHER
   else if (c <? micro v)%Z then LOWER
   else if (c >? micro v)%Z then HIGHER
   else if (d <? patch v)%Z then LOWER
   else if (d >? patch v)%Z then HIGHER
   else EXACT)
  = lex_compare [a; b; c; d] (components v).
Proof. unfold components. simpl. now rewrite !Z.gtb_ltb. Qed.

End CheckVersion.

(** C1 (as amended): [check_version v s] splits [s] on the dot when it has
    one and on the underscore otherwise, strips the leading run of [V] from
    the first component only, reads every component with [int] (raising when
    one is not a number), takes a missing one of the first four as 0 and
    compares them with [v] component by component, deciding at the first
    difference.  The relation is that of the string to the target:
    [check_version (20,1,0,3) "20.1.0.4"] is HIGHER, and
    [check_version (20,2,0,7) "20_2_0_7"] is EXACT. *)
Theorem check_version_componentwise :
  (forall (v : VersionInfo) (s : string),
     exists (p0 : string) (rest : list string) (n : nat),
       s = PyStr.join (String (sep_of s) EmptyString) (p0 :: rest)
       /\ Forall (fun p => PyStr.contains (String (sep_of s) EmptyString) p = false)
                 (p0 :: rest)
       /\ p0 = repeat_char "V" n ++ PyStr.lstrip_V p0
       /\ PyStr.startswith "V" (PyStr.lstrip_V p0) = false
       /\ check_version v s =
            (let* nums := mapM PyStr.int (PyStr.lstrip_V p0 :: rest) in
             Ok (lex_compare (four nums) (components v))))
  /\ check_version (mkVersion 20 1 0 3) "20.1.0.4" = Ok HIGHER
  /\ check_version (mkVersion 20 2 0 7) "20_2_0_7" = Ok EXACT.
Proof.
  split; [|split; vm_compute; reflexivity].
  intros v s.
  pose proof (join_split (sep_of s) s) as Hjoin.
  pose proof (split_no_sep (sep_of s) s) as Hno.
  destruct (PyStr.split (sep_of s) s) as [|p0 rest] eqn:E.
  { now destruct (split_not_nil (sep_of s) s). }
  destruct (lstrip_V_run p0) as [n Hn].
  exists p0, rest, n. repeat split; auto using lstrip_V_done.
  unfold check_version, split_version_string.
  replace (if PyStr.contains "." s then PyStr.split "." s else PyStr.split "_" s)
    with (PyStr.split (sep_of s) s)
    by (unfold sep_of; now destruct (PyStr.contains "." s)).
  rewrite E. cbn [bind].
  destruct (mapM PyStr.int (PyStr.lstrip_V p0 :: rest)) as [nums|e]; cbn [bind];
    [|reflexivity].
  f_equal. unfold parts_get. apply nested_is_lex.
Qed.

(** C1, the instance that does not hold as stated: the answer on
    [(20,1,0,3)] and ["20.1.0.4"] is not LOWER. *)
Lemma check_version_not_lower :
  check_version (mkVersion 20 1 0 3) "20.1.0.4" <> Ok LOWER.
Proof. vm_compute. discriminate. Qed.

(** ** The loops over the target versions *)

Section AnyM.

Context {A : Type} (p : A -> result bool).

Lemma anyM_false_iff (xs : list A) :
  anyM p xs = Ok false <-> Forall (fun x => p x = Ok false) xs.
Proof.
  induction xs as [|x xs IH]; cbn [anyM bind].
  - split; [constructor|reflexivity].
  - destruct (p x) as [[|]|e] eqn:E; cbn [bind].
    + split; [discriminate|]. intros H. inversion H; congruence.
    + rewrite IH. split; intros H.
      * now constructor.
      * now inversion H.
    + split; [discriminate|]. intros H. inversion H; congruence.
Qed.

Lemma anyM_true_elim (xs : list A) :
  anyM p xs = Ok true -> exists x, In x xs /\ p x = Ok true.
Proof.
  induction xs as [|x xs IH]; cbn [anyM bind]; [discriminate|].
  destruct (p x) as [[|]|e] eqn:E; cbn [bind].
  - intros _. exists x. split; [now left|exact E].
  - intros H. destruct (IH H) as [y [Hy Hp]]. exists y. split; [now right|exact Hp].
  - discriminate.
Qed.

Lemma anyM_true_intro (xs : list A) :
  (forall x, In x xs -> exists b, p x = Ok b) ->
  (exists x, In x xs /\ p x = Ok true) ->
  anyM p xs = Ok true.
Proof.
  induction xs as [|x xs IH]; intros Htot [y [Hy Hp]]; [destruct Hy|].
  cbn [anyM bind].
  destruct (Htot x (or_introl eq_refl)) as [b Hb]. rewrite Hb. cbn [bind].
  destruct b; [reflexivity|].
  apply IH.
  - intros z Hz. apply Htot. now right.
  - destruct Hy as [->|Hy]; [congruence|]. now exists y.
Qed.

Lemma anyM_raise_elim (xs : list A) e :
  anyM p xs = Raise e -> exists x, In x xs /\ p x = Raise e.
Proof.
  induction xs as [|x xs IH]; cbn [anyM bind]; [discriminate|].
  destruct (p x) as [[|]|e'] eqn:E; cbn [bind].
  - discriminate.
  - intros H. destruct (IH H) as [y [Hy Hp]]. exists y. split; [now right|exact Hp].
  - intros [= ->]. exists x. split; [now left|exact E].
Qed.

Lemma anyM_raises (xs : list A) :
  (forall x, In x xs -> p x <> Ok true) ->
  (exists x e, In x xs /\ p x = Raise e) ->
  exists e, anyM p xs = Raise e.
Proof.
  induction xs as [|x xs IH]; intros Hnt [y [e [Hy Hp]]]; [destruct Hy|].
  cbn [anyM bind]. destruct (p x) as [[|]|e'] eqn:E; cbn [bind].
  - exfalso. now apply (Hnt x (or_introl eq_refl)).
  - apply IH.
    + intros z Hz. apply Hnt. now right.
    + destruct Hy as [->|Hy]; [congruence|]. now exists y, e.
  - now exists e'.
Qed.

End AnyM.

(** ** [check_version] answers on the same strings for every target *)

Lemma check_version_defined v v' s r :
  check_version v s = Ok r -> exists r', check_version v' s = Ok r'.
Proof.
  unfold check_version.
  destruct (split_version_string s) as [strs|e]; cbn [bind]; [|discriminate].
  destruct (mapM PyStr.int strs) as [nums|e]; cbn [bind]; [|discriminate].
  intros _. eexists. reflexivity.
Qed.

Lemma parses_all s : parses s -> forall v, exists r, check_version v s = Ok r.
Proof. intros [v0 [r Hr]] v. exact (check_version_defined v0 v s r Hr). Qed.

Lemma int_raises s e : PyStr.int s = Raise e -> e = ValueError.
Proof.
  unfold PyStr.int, PyStr.int_base.
  destruct (PyStr.skip_sign _) as [sign s2].
  repeat match goal with
         | |- context [if ?b then _ else _] => destruct b
         | |- context [match ?o with Some _ => _ | None => _ end] => destruct o as [[? ?]|]
         end; congruence.
Qed.

Lemma mapM_int_raises strs e : mapM PyStr.int strs = Raise e -> e = ValueError.
Proof.
  induction strs as [|s strs IH]; cbn [mapM bind]; [discriminate|].
  destruct (PyStr.int s) as [z|e'] eqn:E; cbn [bind].
  - destruct (mapM PyStr.int strs) as [zs|e'']; cbn [bind]; [discriminate|].
    intros [= ->]. now apply IH.
  - intros [= ->]. exact (int_raises s e E).
Qed.

Lemma check_version_raises v s e : check_version v s = Raise e -> e = ValueError.
Proof.
  unfold check_version, split_version_string.
  set (parts := if PyStr.contains "." s then _ else _).
  assert (Hnn : parts <> []).
  { unfold parts. destruct (PyStr.contains "." s); apply split_not_nil. }
  destruct parts as [|p0 rest]; [contradiction|]. cbn [bind].
  destruct (mapM PyStr.int _) as [nums|e'] eqn:E; cbn [bind]; [discriminate|].
  intros [= ->]. exact (mapM_int_raises _ _ E).
Qed.

Lemma check_version_lex v s :
  check_version v s
  = (let* nums := version_numbers s in
     Ok (lex_compare (four nums) (components v))).
Proof.
  unfold check_version, version_numbers.
  destruct (split_version_string s) as [strs|e]; cbn [bind]; [|reflexivity].
  destruct (mapM PyStr.int strs) as [nums|e]; cbn [bind]; [|reflexivity].
  f_equal. unfold parts_get. apply nested_is_lex.
Qed.

Lemma answers_not_above v s : answers_not HIGHER v s <-> not_above s v.
Proof.
  unfold answers_not, not_above. rewrite check_version_lex.
  destruct (version_numbers s) as [nums|e]; cbn [bind].
  - split.
    + intros [r [[= <-] Hne]]. now exists nums.
    + intros [nums' [[= <-] Hne]]. now eexists.
  - split; [intros [r [[=] _]]|intros [nums' [[=] _]]].
Qed.

Lemma not_parses_raises v s : ~ parses s -> exists e, check_version v s = Raise e.
Proof.
  intros H. destruct (check_version v s) as [r|e] eqn:E; [|now exists e].
  exfalso. apply H. now exists v, r.
Qed.

(** ** [should_emit_struct] *)

Lemma in_list_In x xs : in_list x xs = true <-> In x xs.
Proof.
  unfold in_list. rewrite existsb_exists. split.
  - intros [y [Hy Heq]]. apply String.eqb_eq in Heq. now subst.
  - intros H. exists x. split; [exact H|apply String.eqb_refl].
Qed.

Lemma has_key_true {V : Type} (d : gmap string V) k :
  has_key d k = true <-> is_Some (d !! k).
Proof.
  unfold has_key. destruct (d !! k); split; intros H; try reflexivity;
    try discriminate; [now eexists|now destruct H].
Qed.

Lemma should_emit_struct_chain attrib :
  should_emit_struct attrib =
  if denied_b attrib then Ok false
  else anyM (struct_check_target_version attrib) TARGET_VERSIONS.
Proof.
  unfold should_emit_struct, denied_b.
  destruct (has_key attrib "versions"); [reflexivity|].
  destruct (has_key attrib "module" && _); [reflexivity|].
  destruct (attrib !! "name") as [n|]; [|reflexivity].
  destruct (in_list n EXCLUDED_NAMES); [reflexivity|].
  destruct (PyStr.contains "physx" (PyStr.lower n)); [reflexivity|].
  destruct (PyStr.startswith "bhk" n); reflexivity.
Qed.

Lemma denied_b_spec attrib : denied_b attrib = true <-> denied attrib.
Proof.
  unfold denied_b, denied. rewrite !orb_true_iff, andb_true_iff, !has_key_true.
  split.
  - intros [[[[Hv|[_ Hm]]|Hn]|Hn]|Hn].
    + now left.
    + right; left. destruct (attrib !! "module") as [m|]; [|discriminate].
      exists m. split; [reflexivity|now apply in_list_In].
    + right; right. destruct (attrib !! "name") as [n|]; [|discriminate].
      exists n. split; [reflexivity|left; now apply in_list_In].
    + right; right. destruct (attrib !! "name") as [n|]; [|discriminate].
      exists n. split; [reflexivity|right; now left].
    + right; right. destruct (attrib !! "name") as [n|]; [|discriminate].
      exists n. split; [reflexivity|right; now right].
  - intros [Hv|[[m [Hm Hin]]|[n [Hn [Hin|[Hp|Hb]]]]]].
    + now repeat left.
    + left; left; left; right. rewrite Hm. split; [now eexists|now apply in_list_In].
    + left; left; right. rewrite Hn. now apply in_list_In.
    + left; right. now rewrite Hn.
    + right. now rewrite Hn.
Qed.

Lemma rel_eqb_eq a b : rel_eqb a b = true <-> a = b.
Proof. destruct a, b; simpl; split; congruence. Qed.

Lemma rel_neqb a b : negb (rel_eqb a b) = true <-> a <> b.
Proof. destruct a, b; simpl; split; congruence. Qed.

Lemma struct_target_true attrib v :
  attrib !! "versions" = None ->
  struct_check_target_version attrib v = Ok true <-> struct_in_range attrib v.
Proof.
  intros Hv. unfold struct_check_target_version, struct_in_range, has_key, getitem.
  rewrite Hv. cbn [negb andb].
  destruct (attrib !! "since") as [since|]; cbn [andb bind].
  2:{ split; [intros _ ? [=]|reflexivity]. }
  destruct (check_version v since) as [r|e] eqn:Hr; cbn [bind].
  2:{ split; [discriminate|]. intros H. destruct (H since eq_refl) as [[r [Hr' _]] _].
      congruence. }
  destruct (attrib !! "until") as [until|]; cbn [bind].
  - destruct (negb (rel_eqb r HIGHER)) eqn:Hx.
    + apply rel_neqb in Hx.
      destruct (check_version v until) as [r'|e] eqn:Hr'; cbn [bind].
      * split.
        -- intros [= Hne]. apply rel_neqb in Hne. intros s [= <-]. split.
           ++ now exists r.
           ++ intros u [= <-]. now exists r'.
        -- intros H. destruct (H since eq_refl) as [_ Hu].
           destruct (Hu until eq_refl) as [r'' [Hr'' Hne]].
           rewrite Hr' in Hr''. injection Hr'' as <-.
           f_equal. now apply rel_neqb.
      * split; [discriminate|]. intros H. destruct (H since eq_refl) as [_ Hu].
        destruct (Hu until eq_refl) as [r'' [Hr'' _]]. congruence.
    + split; [discriminate|]. intros H.
      destruct (H since eq_refl) as [[r0 [Hr0 Hne]] _].
      rewrite Hr in Hr0. injection Hr0 as <-.
      apply rel_neqb in Hne. congruence.
  - split.
    + intros [= Hne]. apply rel_neqb in Hne. intros s [= <-]. split.
      * now exists r.
      * intros u [=].
    + intros H. destruct (H since eq_refl) as [[r0 [Hr0 Hne]] _].
      rewrite Hr in Hr0. injection Hr0 as <-. f_equal. now apply rel_neqb.
Qed.

Lemma struct_target_total attrib v0 v :
  attrib !! "versions" = None ->
  struct_in_range attrib v0 ->
  exists b, struct_check_target_version attrib v = Ok b.
Proof.
  intros Hv H0. unfold struct_check_target_version, has_key, getitem.
  rewrite Hv. cbn [negb andb].
  destruct (attrib !! "since") as [since|] eqn:Hs; cbn [andb bind].
  2:{ now eexists. }
  destruct (H0 since Hs) as [[r0 [Hr0 _]] Hu].
  destruct (check_version_defined v0 v since r0 Hr0) as [r Hr].
  rewrite Hr. cbn [bind].
  destruct (attrib !! "until") as [until|] eqn:Hun; cbn [bind]; [|now eexists].
  destruct (negb (rel_eqb r HIGHER)); [|now eexists].
  destruct (Hu until eq_refl) as [r1 [Hr1 _]].
  destruct (check_version_defined v0 v until r1 Hr1) as [r' Hr'].
  rewrite Hr'. cbn [bind]. now eexists.
Qed.





(** ** [should_emit_member] *)

Lemma member_target_true attrib v :
  member_check_target_version attrib v = Ok true <-> member_in_range attrib v.
Proof.
  unfold member_check_target_version, member_in_range, answers_not.
  destruct (attrib !! "ver1") as [v1|]; cbn [bind].
  - destruct (check_version v v1) as [r|e] eqn:Hr; cbn [bind].
    + destruct (rel_eqb r HIGHER) eqn:Hh.
      * apply rel_eqb_eq in Hh. subst r. split; [discriminate|].
        intros [H _]. destruct (H v1 eq_refl) as [r [Hr' Hne]]. congruence.
      * assert (Hne : r <> HIGHER).
        { intros ->. discriminate. }
        destruct (attrib !! "ver2") as [v2|]; cbn [bind].
        -- destruct (check_version v v2) as [r2|e] eqn:Hr2; cbn [bind].
           ++ destruct (rel_eqb r2 LOWER) eqn:Hl.
              ** apply rel_eqb_eq in Hl. subst r2. split; [discriminate|].
                 intros [_ H]. destruct (H v2 eq_refl) as [r' [Hr' Hne']]. congruence.
              ** split; [intros _|reflexivity]. split.
                 --- intros ? [= <-]. now exists r.
                 --- intros ? [= <-]. exists r2. split; [exact Hr2|].
                     intros ->. discriminate.
           ++ split; [discriminate|].
              intros [_ H]. destruct (H v2 eq_refl) as [r' [Hr' _]]. congruence.
        -- split; [intros _|reflexivity]. split.
           ++ intros ? [= <-]. now exists r.
           ++ intros ? [=].
    + split; [discriminate|].
      intros [H _]. destruct (H v1 eq_refl) as [r [Hr' _]]. congruence.
  - destruct (attrib !! "ver2") as [v2|]; cbn [bind].
    + destruct (check_version v v2) as [r2|e] eqn:Hr2; cbn [bind].
      * destruct (rel_eqb r2 LOWER) eqn:Hl.
        -- apply rel_eqb_eq in Hl. subst r2. split; [discriminate|].
           intros [_ H]. destruct (H v2 eq_refl) as [r' [Hr' Hne']]. congruence.
        -- split; [intros _|reflexivity]. split.
           ++ intros ? [=].
           ++ intros ? [= <-]. exists r2. split; [exact Hr2|].
              intros ->. discriminate.
      * split; [discriminate|].
        intros [_ H]. destruct (H v2 eq_refl) as [r' [Hr' _]]. congruence.
    + split; [intros _|reflexivity]. split; intros ? [=].
Qed.

Lemma member_target_false attrib v :
  member_check_target_version attrib v = Ok false
  <-> member_out_of_range attrib v.
Proof.
  unfold member_check_target_version, member_out_of_range, answers_not.
  destruct (attrib !! "ver1") as [v1|]; cbn [bind].
  - destruct (check_version v v1) as [r|e] eqn:Hr; cbn [bind].
    + destruct (rel_eqb r HIGHER) eqn:Hh.
      * apply rel_eqb_eq in Hh. subst r. split; [intros _|reflexivity].
        left. now exists v1.
      * assert (Hne : r <> HIGHER).
        { intros ->. discriminate. }
        destruct (attrib !! "ver2") as [v2|]; cbn [bind].
        -- destruct (check_version v v2) as [r2|e] eqn:Hr2; cbn [bind].
           ++ destruct (rel_eqb r2 LOWER) eqn:Hl.
              ** apply rel_eqb_eq in Hl. subst r2. split; [intros _|reflexivity].
                 right. split; [|now exists v2].
                 intros ? [= <-]. now exists r.
              ** split; [discriminate|].
                 intros [[? [[= <-] H]]|[_ [? [[= <-] H]]]]; [congruence|].
                 rewrite Hr2 in H. injection H as ->. discriminate.
           ++ split; [discriminate|].
              intros [[? [[= <-] H]]|[_ [? [[= <-] H]]]]; congruence.
        -- split; [discriminate|].
           intros [[? [[= <-] H]]|[_ [? [[=] _]]]]. congruence.
    + split; [discriminate|].
      intros [[? [[= <-] H]]|[H _]]; [congruence|].
      destruct (H v1 eq_refl) as [r [Hr' _]]. congruence.
  - destruct (attrib !! "ver2") as [v2|]; cbn [bind].
    + destruct (check_version v v2) as [r2|e] eqn:Hr2; cbn [bind].
      * destruct (rel_eqb r2 LOWER) eqn:Hl.
        -- apply rel_eqb_eq in Hl. subst r2. split; [intros _|reflexivity].
           right. split; [intros ? [=]|now exists v2].
        -- split; [discriminate|].
           intros [[? [[=] _]]|[_ [? [[= <-] H]]]].
           rewrite Hr2 in H. injection H as ->. discriminate.
      * split; [discriminate|].
        intros [[? [[=] _]]|[_ [? [[= <-] H]]]]. congruence.
    + split; [discriminate|].
      intros [[? [[=] _]]|[_ [? [[=] _]]]].
Qed.

Lemma member_target_total attrib :
  (forall v1, attrib !! "ver1" = Some v1 -> parses v1) ->
  (forall v2, attrib !! "ver2" = Some v2 -> parses v2) ->
  forall v, exists b, member_check_target_version attrib v = Ok b.
Proof.
  intros H1 H2 v. unfold member_check_target_version.
  destruct (attrib !! "ver1") as [v1|]; cbn [bind].
  - destruct (parses_all v1 (H1 v1 eq_refl) v) as [r ->]. cbn [bind].
    destruct (rel_eqb r HIGHER); [now eexists|].
    destruct (attrib !! "ver2") as [v2|]; cbn [bind]; [|now eexists].
    destruct (parses_all v2 (H2 v2 eq_refl) v) as [r2 ->]. cbn [bind].
    destruct (rel_eqb r2 LOWER); now eexists.
  - destruct (attrib !! "ver2") as [v2|]; cbn [bind]; [|now eexists].
    destruct (parses_all v2 (H2 v2 eq_refl) v) as [r2 ->]. cbn [bind].
    destruct (rel_eqb r2 LOWER); now eexists.
Qed.

Lemma member_in_range_parses attrib v :
  member_in_range attrib v ->
  (forall v1, attrib !! "ver1" = Some v1 -> parses v1)
  /\ (forall v2, attrib !! "ver2" = Some v2 -> parses v2).
Proof.
  intros [H1 H2]. split; intros s Hs.
  - destruct (H1 s Hs) as [r [Hr _]]. now exists v, r.
  - destruct (H2 s Hs) as [r [Hr _]]. now exists v, r.
Qed.

Lemma member_target_raises attrib v e :
  member_check_target_version attrib v = Raise e -> e = ValueError.
Proof.
  unfold member_check_target_version.
  destruct (attrib !! "ver1") as [v1|]; cbn [bind].
  - destruct (check_version v v1) as [r|e'] eqn:Hr; cbn [bind].
    + destruct (rel_eqb r HIGHER); [discriminate|].
      destruct (attrib !! "ver2") as [v2|]; cbn [bind]; [|discriminate].
      destruct (check_version v v2) as [r2|e'] eqn:Hr2; cbn [bind].
      * destruct (rel_eqb r2 LOWER); discriminate.
      * intros [= ->]. exact (check_version_raises _ _ _ Hr2).
    + intros [= ->]. exact (check_version_raises _ _ _ Hr).
  - destruct (attrib !! "ver2") as [v2|]; cbn [bind]; [|discriminate].
    destruct (check_version v v2) as [r2|e'] eqn:Hr2; cbn [bind].
    + destruct (rel_eqb r2 LOWER); discriminate.
    + intros [= ->]. exact (check_version_raises _ _ _ Hr2).
Qed.

Lemma should_emit_member_plain attrib :
  attrib !! "vercond" = None -> attrib !! "cond" = None ->
  should_emit_member attrib
  = anyM (member_check_target_version attrib) TARGET_VERSIONS.
Proof.
  intros Hv Hc. unfold should_emit_member. rewrite Hv, Hc.
  destruct (anyM _ _) as [[|]|e]; reflexivity.
Qed.

Lemma targets_below_20_7 v :
  In v TARGET_VERSIONS -> check_version v "20.7.0.0" = Ok HIGHER.
Proof.
  intros H. repeat (destruct H as [<-|H]; [vm_compute; reflexivity|]).
  destruct H.
Qed.

(** C3: on an attribute set with neither [vercond] nor [cond],
    [should_emit_member] answers False exactly when each of the five targets
    fails the [ver1]/[ver2] range, and True exactly when one of them
    satisfies it.  Every target is below ["20.7.0.0"], so a member with that
    [ver1] is dropped. *)
Theorem should_emit_member_versions (attrib : gmap string string) :
  attrib !! "vercond" = None -> attrib !! "cond" = None ->
  (should_emit_member attrib = Ok false
   <-> forall v, In v TARGET_VERSIONS -> member_out_of_range attrib v)
  /\ (should_emit_member attrib = Ok true
      <-> exists v, In v TARGET_VERSIONS /\ member_in_range attrib v)
  /\ (attrib !! "ver1" = Some "20.7.0.0" ->
      (forall v, In v TARGET_VERSIONS ->
                 lex_compare (components v) [20; 7; 0; 0]%Z = LOWER)
      /\ should_emit_member attrib = Ok false).
Proof.
  intros Hv Hc. rewrite (should_emit_member_plain attrib Hv Hc).
  assert (Hfalse : anyM (member_check_target_version attrib) TARGET_VERSIONS = Ok false
                   <-> forall v, In v TARGET_VERSIONS -> member_out_of_range attrib v).
  { rewrite anyM_false_iff, List.Forall_forall.
    split; intros H v Hin; apply member_target_false; now apply H. }
  split; [exact Hfalse|split].
  - split.
    + intros H. apply anyM_true_elim in H. destruct H as [v [Hin Hp]].
      exists v. split; [exact Hin|]. now apply member_target_true.
    + intros [v [Hin Hr]]. apply anyM_true_intro.
      * destruct (member_in_range_parses attrib v Hr) as [H1 H2].
        intros x _. now apply member_target_total.
      * exists v. split; [exact Hin|]. now apply member_target_true.
  - intros H1. split.
    + intros v H. repeat (destruct H as [<-|H]; [vm_compute; reflexivity|]).
      destruct H.
    + apply Hfalse. intros v Hin. left. exists "20.7.0.0".
      split; [exact H1|now apply targets_below_20_7].
Qed.

(** C3 at concrete attribute sets: [ver1="20.7.0.0"] is dropped and
    [ver1="20.3.0.0"] is kept. *)
Lemma should_emit_member_versions_witness :
  should_emit_member {[ "ver1" := "20.7.0.0" ]} = Ok false
  /\ should_emit_member {[ "ver1" := "20.3.0.0" ]} = Ok true.
Proof.
  split.
  - apply (should_emit_member_versions {[ "ver1" := "20.7.0.0" ]});
      vm_compute; reflexivity.
  - apply (should_emit_member_versions {[ "ver1" := "20.3.0.0" ]});
      [vm_compute; reflexivity|vm_compute; reflexivity|].
    exists (mkVersion 20 3 0 9). split; [vm_compute; tauto|]. split.
    + intros v1 H. vm_compute in H. injection H as <-.
      exists LOWER. split; [vm_compute; reflexivity|discriminate].
    + intros v2 H. vm_compute in H. discriminate.
Defined.

Lemma vercond_rejected_spec vercond :
  vercond_rejected vercond = true <-> ~ vercond_allowed vercond.
Proof.
  unfold vercond_rejected, vercond_allowed.
  rewrite !andb_true_iff, !negb_true_iff, String.eqb_neq.
  split.
  - intros [[[H1 H2] H3] H4] [H|[H|[H|H]]]; congruence.
  - intros H. repeat split.
    + intros E. apply H. now left.
    + destruct (PyStr.startswith "!" vercond) eqn:E; [|reflexivity].
      exfalso. apply H. right. now left.
    + destruct (PyStr.startswith "#NI" vercond) eqn:E; [|reflexivity].
      exfalso. apply H. right. right. now left.
    + destruct (PyStr.startswith "#BSVER# #LT" vercond) eqn:E; [|reflexivity].
      exfalso. apply H. now repeat right.
Qed.

Lemma should_emit_member_raises attrib e :
  should_emit_member attrib = Raise e -> e = ValueError.
Proof.
  unfold should_emit_member.
  destruct (anyM _ _) as [b|e'] eqn:E; cbn [bind].
  - destruct (negb b); [discriminate|].
    destruct (match attrib !! "vercond" with Some _ => _ | None => _ end);
      [discriminate|].
    destruct (match attrib !! "cond" with Some _ => _ | None => _ end);
      discriminate.
  - intros [= ->]. apply anyM_raise_elim in E. destruct E as [v [_ Hv]].
    exact (member_target_raises _ _ _ Hv).
Qed.

Lemma should_emit_member_raise_iff attrib e :
  should_emit_member attrib = Raise e
  <-> anyM (member_check_target_version attrib) TARGET_VERSIONS = Raise e.
Proof.
  unfold should_emit_member.
  destruct (anyM _ _) as [b|e']; cbn [bind]; [|reflexivity].
  split; [|discriminate].
  destruct (negb b); [discriminate|].
  destruct (match attrib !! "vercond" with Some _ => _ | None => _ end);
    [discriminate|].
  destruct (match attrib !! "cond" with Some _ => _ | None => _ end);
    discriminate.
Qed.

Lemma member_target_raise_elim attrib v e :
  member_check_target_version attrib v = Raise e ->
  (exists v1, attrib !! "ver1" = Some v1 /\ ~ parses v1)
  \/ ((exists v2, attrib !! "ver2" = Some v2 /\ ~ parses v2)
      /\ forall v1, attrib !! "ver1" = Some v1 -> not_above v1 v).
Proof.
  unfold member_check_target_version.
  destruct (attrib !! "ver1") as [v1|]; cbn [bind].
  - destruct (check_version v v1) as [r|e'] eqn:Hr; cbn [bind].
    + destruct (rel_eqb r HIGHER) eqn:Hh; [discriminate|].
      destruct (attrib !! "ver2") as [v2|]; cbn [bind]; [|discriminate].
      destruct (check_version v v2) as [r2|e''] eqn:Hr2; cbn [bind].
      { destruct (rel_eqb r2 LOWER); discriminate. }
      intros _. right. split.
      * exists v2. split; [reflexivity|]. intros Hp.
        destruct (parses_all v2 Hp v) as [r' Hr']. congruence.
      * intros ? [= <-]. apply answers_not_above. exists r.
        split; [exact Hr|]. intros ->. discriminate.
    + intros _. left. exists v1. split; [reflexivity|]. intros Hp.
      destruct (parses_all v1 Hp v) as [r' Hr']. congruence.
  - destruct (attrib !! "ver2") as [v2|]; cbn [bind]; [|discriminate].
    destruct (check_version v v2) as [r2|e''] eqn:Hr2; cbn [bind].
    { destruct (rel_eqb r2 LOWER); discriminate. }
    intros _. right. split.
    + exists v2. split; [reflexivity|]. intros Hp.
      destruct (parses_all v2 Hp v) as [r' Hr']. congruence.
    + intros ? [=].
Qed.

Lemma version_check_raises_spec attrib :
  anyM (member_check_target_version attrib) TARGET_VERSIONS = Raise ValueError
  <-> version_check_raises attrib.
Proof.
  split.
  - intros H. apply anyM_raise_elim in H. destruct H as [v [Hin Hv]].
    destruct (member_target_raise_elim attrib v _ Hv) as [H1|[H2 H1]].
    + now left.
    + right. split; [exact H2|]. now exists v.
  - intros H.
    assert (He : exists e, anyM (member_check_target_version attrib)
                             TARGET_VERSIONS = Raise e).
    { apply anyM_raises.
      - intros x _ Hx. apply member_target_true in Hx.
        apply member_in_range_parses in Hx. destruct Hx as [P1 P2].
        destruct H as [[v1 [E1 N1]]|[[v2 [E2 N2]] _]].
        + exact (N1 (P1 v1 E1)).
        + exact (N2 (P2 v2 E2)).
      - destruct H as [[v1 [E1 N1]]|[[v2 [E2 N2]] [v [Hin Hv1]]]].
        + destruct (not_parses_raises (mkVersion 20 1 0 3) v1 N1) as [e He].
          exists (mkVersion 20 1 0 3), e. split; [now left|].
          unfold member_check_target_version. rewrite E1. cbn [bind].
          now rewrite He.
        + destruct (not_parses_raises v v2 N2) as [e He].
          exists v, e. split; [exact Hin|].
          unfold member_check_target_version.
          destruct (attrib !! "ver1") as [v1|] eqn:E1; cbn [bind].
          * destruct (proj2 (answers_not_above v v1) (Hv1 v1 eq_refl)) as [r [Hr Hne]].
            rewrite Hr. cbn [bind].
            replace (rel_eqb r HIGHER) with false
              by (destruct r; try reflexivity; congruence).
            rewrite E2. cbn [bind]. now rewrite He.
          * rewrite E2. cbn [bind]. now rewrite He. }
    destruct He as [e He]. rewrite He. f_equal.
    apply anyM_raise_elim in He. destruct He as [v [_ Hv]].
    exact (member_target_raises _ _ _ Hv).
Qed.

(** C4 (as amended): on an attribute set whose [vercond] is present and
    outside the allowlist (not ["#NISTREAM#"], no leading ["!"], ["#NI"] or
    ["#BSVER# #LT"]), or whose [cond] is ["#BSSTREAMHEADER#"],
    [should_emit_member] never answers True.  It raises [ValueError] exactly
    when the version check that runs first raises: when [ver1] is present
    and is not a version string, or when [ver2] is present and is not one
    while [ver1] is absent or is not above one of the targets.  In every
    other case it answers False; in particular it answers False whenever
    [ver1] and [ver2], where present, are version strings. *)
Theorem should_emit_member_excluded (attrib : gmap string string) :
  (exists vercond, attrib !! "vercond" = Some vercond
                   /\ ~ vercond_allowed vercond)
  \/ attrib !! "cond" = Some "#BSSTREAMHEADER#" ->
  should_emit_member attrib <> Ok true
  /\ (should_emit_member attrib = Raise ValueError
      <-> version_check_raises attrib)
  /\ (should_emit_member attrib = Ok false
      <-> ~ version_check_raises attrib)
  /\ ((forall v1, attrib !! "ver1" = Some v1 -> parses v1) ->
      (forall v2, attrib !! "ver2" = Some v2 -> parses v2) ->
      should_emit_member attrib = Ok false).
Proof.
  intros Hex.
  assert (Hnt : should_emit_member attrib <> Ok true).
  { unfold should_emit_member.
    destruct (anyM _ _) as [b|e']; cbn [bind]; [|discriminate].
    destruct (negb b); [discriminate|].
    destruct Hex as [[vc [Hvc Hna]]|Hc].
    - rewrite Hvc. apply vercond_rejected_spec in Hna. rewrite Hna. discriminate.
    - rewrite Hc. rewrite String.eqb_refl.
      destruct (match attrib !! "vercond" with Some _ => _ | None => _ end);
        discriminate. }
  assert (Hr : should_emit_member attrib = Raise ValueError
               <-> version_check_raises attrib).
  { rewrite should_emit_member_raise_iff. apply version_check_raises_spec. }
  assert (Hf : should_emit_member attrib = Ok false
               <-> ~ version_check_raises attrib).
  { split.
    - intros H Hv. apply Hr in Hv. congruence.
    - intros Hn.
      destruct (should_emit_member attrib) as [[|]|e] eqn:E;
        [congruence|reflexivity|].
      exfalso. apply Hn, Hr. f_equal.
      exact (should_emit_member_raises attrib e E). }
  split; [exact Hnt|split; [exact Hr|split; [exact Hf|]]].
  intros H1 H2. apply Hf.
  intros [[v1 [E1 N1]]|[[v2 [E2 N2]] _]].
  - exact (N1 (H1 v1 E1)).
  - exact (N2 (H2 v2 E2)).
Qed.

(** C4 at concrete attribute sets with a [vercond] outside the allowlist:
    without version attributes the answer is False; with [ver1 = "20.7.0.0"],
    which is above every target, [ver2] is never read and the answer is
    False although [ver2] is not a version string; with [ver1 = "20.3.0.0"]
    the fourth target reads [ver2] and the call raises. *)
Lemma should_emit_member_excluded_witness :
  should_emit_member {[ "vercond" := "#BSVER# #GT# 0" ]} = Ok false
  /\ should_emit_member
       (<[ "ver2" := "x" ]>
          (<[ "ver1" := "20.7.0.0" ]> {[ "vercond" := "#BSVER# #GT# 0" ]}))
     = Ok false
  /\ should_emit_member
       (<[ "ver2" := "x" ]>
          (<[ "ver1" := "20.3.0.0" ]> {[ "vercond" := "#BSVER# #GT# 0" ]}))
     = Raise ValueError.
Proof.
  assert (Hbad : ~ vercond_allowed "#BSVER# #GT# 0").
  { apply vercond_rejected_spec. vm_compute. reflexivity. }
  split; [|split].
  - destruct (should_emit_member_excluded {[ "vercond" := "#BSVER# #GT# 0" ]})
      as (_ & _ & _ & Hparses).
    + left. exists "#BSVER# #GT# 0". split; [vm_compute; reflexivity|exact Hbad].
    + apply Hparses.
      * intros v1 H. vm_compute in H. discriminate.
      * intros v2 H. vm_compute in H. discriminate.
  - set (attrib := <[ "ver2" := "x" ]>
                     (<[ "ver1" := "20.7.0.0" ]>
                        ({[ "vercond" := "#BSVER# #GT# 0" ]} : gmap string string))).
    assert (Hk : attrib !! "ver1" = Some "20.7.0.0") by (vm_compute; reflexivity).
    destruct (should_emit_member_excluded attrib) as (_ & _ & Hfalse & _).
    + left. exists "#BSVER# #GT# 0". split; [vm_compute; reflexivity|exact Hbad].
    + apply Hfalse. intros [[v1 [E N]]|[_ [v [Hin Hv]]]].
      * rewrite Hk in E. injection E as <-. apply N.
        exists (mkVersion 20 1 0 3), HIGHER. vm_compute. reflexivity.
      * destruct (Hv "20.7.0.0" Hk) as [nums [Hn Hne]].
        vm_compute in Hn. injection Hn as <-.
        repeat (destruct Hin as [<-|Hin]; [apply Hne; vm_compute; reflexivity|]).
        destruct Hin.
  - set (attrib := <[ "ver2" := "x" ]>
                     (<[ "ver1" := "20.3.0.0" ]>
                        ({[ "vercond" := "#BSVER# #GT# 0" ]} : gmap string string))).
    assert (Hk : attrib !! "ver1" = Some "20.3.0.0") by (vm_compute; reflexivity).
    destruct (should_emit_member_excluded attrib) as (_ & Hraise & _ & _).
    + left. exists "#BSVER# #GT# 0". split; [vm_compute; reflexivity|exact Hbad].
    + apply Hraise. right. split.
      * exists "x". split; [vm_compute; reflexivity|].
        intros [v [r Hr]].
        destruct (check_version_defined v (mkVersion 20 1 0 3) "x" r Hr) as [r' Hr'].
        vm_compute in Hr'. discriminate.
      * exists (mkVersion 20 3 0 9). split; [vm_compute; tauto|].
        intros v1 E. rewrite Hk in E. injection E as <-.
        exists [20; 3; 0; 0]%Z. split; [vm_compute; reflexivity|].
        vm_compute. discriminate.
Defined.

(** C4, an attribute set on which the stated property fails: with a [ver1] that is not a version string
    the call raises instead of answering False, whatever [vercond] and
    [cond] are. *)
Lemma should_emit_member_bad_ver1 :
  let attrib : gmap string string :=
    <[ "cond" := "#BSSTREAMHEADER#" ]>
      (<[ "vercond" := "#BSVER# #GT# 0" ]> {[ "ver1" := "x" ]}) in
  attrib !! "vercond" = Some "#BSVER# #GT# 0"
  /\ ~ vercond_allowed "#BSVER# #GT# 0"
  /\ attrib !! "cond" = Some "#BSSTREAMHEADER#"
  /\ should_emit_member attrib = Raise ValueError
  /\ should_emit_member attrib <> Ok false.
Proof.
  cbv zeta. split; [vm_compute; reflexivity|]. split.
  { apply vercond_rejected_spec. vm_compute. reflexivity. }
  split; [vm_compute; reflexivity|].
  split; [vm_compute; reflexivity|]. vm_compute. discriminate.
Qed.

(** ** Field maps *)

Section DictLemmas.

Context {V : Type}.
Implicit Types (d : Dict.t V) (k : string) (v : V).

Lemma get_set_eq d k v : Dict.get (Dict.set d k v) k = Some v.
Proof.
  induction d as [|[k' v'] d IH]; cbn [Dict.set Dict.get].
  - now rewrite String.eqb_refl.
  - destruct (String.eqb k' k) eqn:E; cbn [Dict.get]; now rewrite E.
Qed.

Lemma get_set_ne d k k' v :
  k' <> k -> Dict.get (Dict.set d k v) k' = Dict.get d k'.
Proof.
  intros Hne. induction d as [|[k0 v0] d IH]; cbn [Dict.set Dict.get].
  - apply String.eqb_neq in Hne. rewrite String.eqb_sym in Hne. now rewrite Hne.
  - destruct (String.eqb_spec k0 k) as [->|Hk]; cbn [Dict.get].
    + apply String.eqb_neq in Hne. rewrite String.eqb_sym in Hne. now rewrite Hne.
    + now rewrite IH.
Qed.

Lemma count_cons d k0 v0 k :
  Dict.count ((k0, v0) :: d) k
  = ((if String.eqb k0 k then 1 else 0) + Dict.count d k)%nat.
Proof.
  unfold Dict.count. cbn [List.filter fst].
  destruct (String.eqb k0 k); reflexivity.
Qed.

Lemma count_absent d k : Dict.get d k = None -> Dict.count d k = 0%nat.
Proof.
  induction d as [|[k0 v0] d IH]; [reflexivity|].
  cbn [Dict.get]. rewrite count_cons.
  destruct (String.eqb k0 k); [discriminate|]. exact IH.
Qed.

Lemma count_present d k v : Dict.get d k = Some v -> (1 <= Dict.count d k)%nat.
Proof.
  induction d as [|[k0 v0] d IH]; [discriminate|].
  cbn [Dict.get]. rewrite count_cons.
  destruct (String.eqb k0 k); [lia|]. exact IH.
Qed.

Lemma count_set_present d k v old k' :
  Dict.get d k = Some old -> Dict.count (Dict.set d k v) k' = Dict.count d k'.
Proof.
  induction d as [|[k0 v0] d IH]; [discriminate|].
  cbn [Dict.get Dict.set].
  destruct (String.eqb k0 k) eqn:E.
  - intros _. now rewrite !count_cons.
  - intros H. rewrite !count_cons. now rewrite IH.
Qed.

Lemma count_set_absent d k v k' :
  Dict.get d k = None ->
  Dict.count (Dict.set d k v) k'
  = (Dict.count d k' + (if String.eqb k k' then 1 else 0))%nat.
Proof.
  induction d as [|[k0 v0] d IH]; cbn [Dict.get Dict.set].
  - intros _. rewrite count_cons. unfold Dict.count. simpl. lia.
  - destruct (String.eqb k0 k) eqn:E; [discriminate|].
    intros H. rewrite !count_cons, IH by exact H. lia.
Qed.

Lemma unique_set d k v : unique_keys d -> unique_keys (Dict.set d k v).
Proof.
  intros Hu k'. destruct (Dict.get d k) as [old|] eqn:E.
  - rewrite (count_set_present d k v old k' E). apply Hu.
  - rewrite (count_set_absent d k v k' E).
    destruct (String.eqb_spec k k') as [<-|Hne].
    + rewrite (count_absent d k E). lia.
    + specialize (Hu k'). lia.
Qed.

Lemma unique_nil : unique_keys ([] : Dict.t V).
Proof. intros k. unfold Dict.count. simpl. lia. Qed.

Lemma mem_get d k : Dict.mem d k = true <-> exists v, Dict.get d k = Some v.
Proof.
  unfold Dict.mem. destruct (Dict.get d k) as [v|].
  - split; [now exists v|reflexivity].
  - split; [discriminate|]. now intros [v [=]].
Qed.

End DictLemmas.

(** ** [Type.matches] and the merge of redeclared fields *)

Lemma NiObject_add_field_dup obj_name fields out xml n field old :
  xml !! "name" = Some n ->
  Type_from_xml xml = Ok field ->
  Dict.get fields (convert_field_name n) = Some old ->
  NiObject_add_field obj_name (fields, out) xml =
  if negb (truthy (cond field)) && negb (truthy (cond old)) then Ok (fields, out)
  else if negb (matches field old)
          && negb (is_palette obj_name (convert_field_name n))
  then Ok (fields,
           app out (redeclaration obj_name (convert_field_name n) old field))
  else Ok (Dict.set fields (convert_field_name n)
                    (set_cond old (Some (or_cond old field))), out).
Proof.
  intros Hn Hf Ho. unfold NiObject_add_field, getitem.
  rewrite Hn. cbn [bind]. rewrite Hf. cbn [bind]. rewrite Ho. reflexivity.
Qed.

Lemma NiObject_add_field_new obj_name fields out xml n field :
  xml !! "name" = Some n ->
  Type_from_xml xml = Ok field ->
  Dict.get fields (convert_field_name n) = None ->
  NiObject_add_field obj_name (fields, out) xml =
  Ok (Dict.set fields (convert_field_name n)
        (if is_palette obj_name (convert_field_name n)
         then set_cond (set_arr1 field (Some "Num Entries")) None
         else field), out).
Proof.
  intros Hn Hf Ho. unfold NiObject_add_field, getitem.
  rewrite Hn. cbn [bind]. rewrite Hf. cbn [bind]. rewrite Ho. reflexivity.
Qed.

Lemma NiObject_add_field_unique obj_name fields out xml fields' out' :
  unique_keys fields ->
  NiObject_add_field obj_name (fields, out) xml = Ok (fields', out') ->
  unique_keys fields'.
Proof.
  intros Hu. unfold NiObject_add_field.
  destruct (getitem xml "name") as [n|e]; cbn [bind]; [|discriminate].
  destruct (Type_from_xml xml) as [field|e]; cbn [bind]; [|discriminate].
  destruct (Dict.get fields (convert_field_name n)) as [old|].
  - destruct (negb (truthy (cond field)) && negb (truthy (cond old))).
    + now intros [= <- <-].
    + destruct (negb (matches field old) && _).
      * now intros [= <- <-].
      * intros [= <- <-]. now apply unique_set.
  - intros [= <- <-]. now apply unique_set.
Qed.

Lemma for_emitted_invariant {St : Type} (P : St -> Prop)
  (body : St -> gmap string string -> result St) :
  (forall st child st', P st -> body st child = Ok st' -> P st') ->
  forall entry st st',
    P st -> for_emitted body entry st = Ok st' -> P st'.
Proof.
  intros Hbody entry. unfold for_emitted.
  induction (children entry) as [|c cs IH]; intros st st' HP; cbn [foldM bind].
  - now intros [= <-].
  - destruct (should_emit_member c) as [[|]|e]; cbn [bind]; [| |discriminate].
    + destruct (body st c) as [st1|e] eqn:E; cbn [bind]; [|discriminate].
      apply IH. exact (Hbody st c st1 HP E).
    + now apply IH.
Qed.

Lemma NiObject_from_xml_unique entry obj out :
  NiObject_from_xml entry = Ok (obj, out) -> unique_keys (o_fields obj).
Proof.
  unfold NiObject_from_xml.
  destruct (getitem (attrib entry) "name") as [n|e]; cbn [bind]; [|discriminate].
  destruct (_convert_struct_name n) as [name|e]; cbn [bind]; [|discriminate].
  destruct (getitem (attrib entry) "inherit") as [par|e]; cbn [bind]; [|discriminate].
  destruct (for_emitted _ entry _) as [[fields out']|e] eqn:E; cbn [bind];
    [|discriminate].
  intros [= <- <-]. cbn [o_fields fst].
  refine (for_emitted_invariant (fun st => unique_keys (fst st)) _ _ entry
            ([], []) (fields, out') unique_nil E).
  intros [f o] child [f' o'] Hu Hb. exact (NiObject_add_field_unique _ _ _ _ _ _ Hu Hb).
Qed.

Lemma not_conditioned old field :
  ~ conditioned old field
  <-> truthy (cond field) = false /\ truthy (cond old) = false.
Proof.
  unfold conditioned.
  destruct (truthy (cond field)), (truthy (cond old)); intuition congruence.
Qed.

Lemma opt_eqb_eq a b : opt_eqb a b = true <-> a = b.
Proof.
  destruct a as [x|], b as [y|]; simpl; try (split; congruence).
  rewrite String.eqb_eq. split; congruence.
Qed.

Lemma matches_same_shape a b : matches a b = true <-> same_shape a b.
Proof.
  unfold matches, same_shape.
  rewrite !andb_true_iff, String.eqb_eq, !opt_eqb_eq. tauto.
Qed.

(** The step of [NiObject.from_xml] on a name that is already stored: (a)
    with no condition on either side the state is left as it is; (b) with
    matching shape the stored field gets the condition
    ["(cond1) #OR# (cond2)"], the map keeps one entry for the name, and two
    equal conditions [A] give ["(A) #OR# (A)"]; (c) with another shape the
    three diagnostic lines are printed and the map is left as it is, except
    for [palette] of [NiPalette], where the test on the name suppresses the
    diagnostic and the merge of (b) runs.  The branch for a name that is not
    stored yet is the one that sets [arr1 = "Num Entries"] and clears the
    condition of that field.  The map built by [NiObject.from_xml] never
    holds a name twice. *)
Theorem NiObject_field_merge :
  (forall obj_name fields out xml n field old,
     xml !! "name" = Some n ->
     Type_from_xml xml = Ok field ->
     Dict.get fields (convert_field_name n) = Some old ->
     let name := convert_field_name n in
     let merged := Dict.set fields name (set_cond old (Some (or_cond old field))) in
     (~ conditioned old field ->
      NiObject_add_field obj_name (fields, out) xml = Ok (fields, out))
     /\ (conditioned old field -> matches field old = true ->
         NiObject_add_field obj_name (fields, out) xml = Ok (merged, out)
         /\ Dict.count merged name = Dict.count fields name
         /\ exists f, Dict.get merged name = Some f
                      /\ cond f = Some (or_cond old field)
                      /\ same_shape f old)
     /\ (conditioned old field -> matches field old = false ->
         is_palette obj_name name = false ->
         NiObject_add_field obj_name (fields, out) xml
         = Ok (fields, app out (redeclaration obj_name name old field)))
     /\ (conditioned old field -> is_palette obj_name name = true ->
         NiObject_add_field obj_name (fields, out) xml = Ok (merged, out)))
  /\ (forall old field A,
        cond old = Some A -> cond field = Some A ->
        or_cond old field = "(" ++ A ++ ") #OR# (" ++ A ++ ")")
  /\ (forall obj_name fields out xml n field,
        xml !! "name" = Some n ->
        Type_from_xml xml = Ok field ->
        Dict.get fields (convert_field_name n) = None ->
        is_palette obj_name (convert_field_name n) = true ->
        NiObject_add_field obj_name (fields, out) xml
        = Ok (Dict.set fields (convert_field_name n)
                (set_cond (set_arr1 field (Some "Num Entries")) None), out))
  /\ (forall entry obj out,
        NiObject_from_xml entry = Ok (obj, out) -> unique_keys (o_fields obj)).
Proof.
  split; [|split; [|split]].
  - intros obj_name fields out xml n field old Hn Hf Ho name merged.
    pose proof (NiObject_add_field_dup obj_name fields out xml n field old Hn Hf Ho)
      as Hstep.
    fold name in Hstep. fold merged in Hstep.
    split; [|split; [|split]].
    + intros Hnc. apply not_conditioned in Hnc. destruct Hnc as [H1 H2].
      now rewrite Hstep, H1, H2.
    + intros Hc Hm.
      assert (Hb : negb (truthy (cond field)) && negb (truthy (cond old)) = false).
      { destruct Hc as [-> | ->]; [reflexivity|apply andb_false_r]. }
      rewrite Hstep, Hb, Hm. cbn [negb andb]. split; [reflexivity|]. split.
      * unfold merged. exact (count_set_present fields name _ old name Ho).
      * eexists. split; [unfold merged; apply get_set_eq|].
        split; [reflexivity|]. unfold same_shape. now cbn.
    + intros Hc Hm Hp.
      assert (Hb : negb (truthy (cond field)) && negb (truthy (cond old)) = false).
      { destruct Hc as [-> | ->]; [reflexivity|apply andb_false_r]. }
      now rewrite Hstep, Hb, Hm, Hp.
    + intros Hc Hp.
      assert (Hb : negb (truthy (cond field)) && negb (truthy (cond old)) = false).
      { destruct Hc as [-> | ->]; [reflexivity|apply andb_false_r]. }
      rewrite Hstep, Hb, Hp. cbn [negb]. now rewrite andb_false_r.
  - intros old field A Ho Hf. unfold or_cond. now rewrite Ho, Hf.
  - intros obj_name fields out xml n field Hn Hf Ho Hp.
    rewrite (NiObject_add_field_new obj_name fields out xml n field Hn Hf Ho).
    now rewrite Hp.
  - exact NiObject_from_xml_unique.
Qed.

(** The merge at a concrete redeclaration: the field [x] of an object
    [NiNode] comes again with the same shape and the same condition [A]. *)
Lemma NiObject_field_merge_witness :
  let t := mkType "u32" None None None None (Some "A") None None in
  NiObject_add_field "NiNode" ([("x", t)], [])
    (<[ "cond" := "A" ]> (<[ "type" := "uint" ]> {[ "name" := "x" ]}))
  = Ok ([("x", set_cond t (Some "(A) #OR# (A)"))], []).
Proof.
  cbv zeta.
  set (t := mkType "u32" None None None None (Some "A") None None).
  set (xml := <[ "cond" := "A" ]> (<[ "type" := "uint" ]> {[ "name" := "x" ]})
              : gmap string string).
  destruct NiObject_field_merge as [Hdup _].
  assert (Hn : xml !! "name" = Some "x") by (vm_compute; reflexivity).
  assert (Hf : Type_from_xml xml = Ok t) by (vm_compute; reflexivity).
  assert (Ho : Dict.get [("x", t)] (convert_field_name "x") = Some t)
    by (vm_compute; reflexivity).
  destruct (Hdup "NiNode" [("x", t)] [] xml "x" t t Hn Hf Ho) as [_ [Hb _]].
  destruct Hb as [Hstep _].
  - left. reflexivity.
  - vm_compute. reflexivity.
  - etransitivity; [exact Hstep|]. vm_compute. reflexivity.
Defined.

(** C5 at the failing input, the two [Palette] fields of [NiPalette]: the
    second occurrence is not normalized but merged into the stored field,
    which ends with the condition ["(None) #OR# (Num Entries #EQ# 16)"]
    instead of none, and nothing is printed.  With the first occurrence
    alone the field is stored with [arr1 = "Num Entries"] and no
    condition. *)
Lemma NiPalette_second_is_merged :
  exists obj,
    NiObject_from_xml palette_entry = Ok (obj, [])
    /\ o_fields obj
       = [("palette",
           mkType "ByteColor4" None (Some "Num Entries") None None
                  (Some "(None) #OR# (Num Entries #EQ# 16)") None None)]
    /\ (forall f, Dict.get (o_fields obj) "palette" = Some f -> cond f <> None)
    /\ exists first,
         NiObject_from_xml
           (mkElement (attrib palette_entry) (text palette_entry)
                      (firstn 1 (children palette_entry)))
         = Ok (first, [])
         /\ o_fields first
            = [("palette",
                mkType "ByteColor4" None (Some "Num Entries") None None
                       None None None)].
Proof.
  eexists. split; [vm_compute; reflexivity|]. split; [reflexivity|]. split.
  - intros f Hf. vm_compute in Hf. injection Hf as <-. discriminate.
  - eexists. split; [vm_compute; reflexivity|reflexivity].
Qed.

Lemma matches_versions_irrelevant a a' b :
  same_but_versions a a' -> matches a b = matches a' b.
Proof.
  intros (H1 & H2 & H3 & H4 & H5 & _). unfold matches.
  now rewrite H1, H2, H3, H4, H5.
Qed.

(** C10: [Type.matches] reads the base type, the generic argument, the two
    array expressions and the argument expression only, so types that
    differ in [cond], [ver1] or [ver2] match.  When a redeclared field of
    matching shape is merged, the stored field changes in its condition
    alone: its type, generic argument, array and argument expressions and
    its [ver1] and [ver2] stay those of the first occurrence, the other
    fields and the order of the map are kept, nothing is printed, and the
    [ver1] and [ver2] of the redeclaration have no effect on the result. *)
Theorem matches_ignores_cond_and_versions :
  (forall a b c v1 v2 c' v1' v2',
     matches (mkType (ty a) (t_arg a) (arr1 a) (arr2 a) (arg a) c v1 v2)
             (mkType (ty b) (t_arg b) (arr1 b) (arr2 b) (arg b) c' v1' v2')
     = matches a b)
  /\ (forall obj_name fields out xml n field old,
        xml !! "name" = Some n ->
        Type_from_xml xml = Ok field ->
        Dict.get fields (convert_field_name n) = Some old ->
        conditioned old field ->
        matches field old = true ->
        exists stored fields',
          NiObject_add_field obj_name (fields, out) xml = Ok (fields', out)
          /\ Dict.get fields' (convert_field_name n) = Some stored
          /\ ty stored = ty old /\ t_arg stored = t_arg old
          /\ arr1 stored = arr1 old /\ arr2 stored = arr2 old
          /\ arg stored = arg old
          /\ ver1 stored = ver1 old /\ ver2 stored = ver2 old
          /\ cond stored = Some (or_cond old field)
          /\ (forall k, k <> convert_field_name n ->
                        Dict.get fields' k = Dict.get fields k)
          /\ map fst fields' = map fst fields
          /\ (forall xml' field',
                xml' !! "name" = Some n ->
                Type_from_xml xml' = Ok field' ->
                same_but_versions field field' ->
                NiObject_add_field obj_name (fields, out) xml'
                = Ok (fields', out))).
Proof.
  split; [reflexivity|].
  intros obj_name fields out xml n field old Hn Hf Ho Hc Hm.
  assert (Hb : forall f, cond f = cond field ->
             negb (truthy (cond f)) && negb (truthy (cond old)) = false).
  { intros f ->. destruct Hc as [-> | ->]; [reflexivity|apply andb_false_r]. }
  exists (set_cond old (Some (or_cond old field))).
  exists (Dict.set fields (convert_field_name n)
            (set_cond old (Some (or_cond old field)))).
  split.
  { rewrite (NiObject_add_field_dup obj_name fields out xml n field old Hn Hf Ho).
    now rewrite (Hb field eq_refl), Hm. }
  split; [apply get_set_eq|].
  do 8 (split; [reflexivity|]).
  split; [intros k Hk; now apply get_set_ne|].
  split.
  { clear -Ho. induction fields as [|[k0 v0] d IH]; [discriminate|].
    cbn [Dict.get] in Ho. cbn [Dict.set].
    destruct (String.eqb k0 (convert_field_name n)); [reflexivity|].
    cbn [map fst]. f_equal. now apply IH. }
  intros xml' field' Hn' Hf' Hsame.
  rewrite (NiObject_add_field_dup obj_name fields out xml' n field' old Hn' Hf' Ho).
  pose proof Hsame as (_ & _ & _ & _ & _ & Hcond).
  rewrite (Hb field' (eq_sym Hcond)).
  rewrite <- (matches_versions_irrelevant field field' old Hsame), Hm.
  cbn [negb andb]. unfold or_cond. now rewrite Hcond.
Qed.

(** C10 at a concrete redeclaration whose version range differs from that
    of the stored field. *)
Lemma matches_ignores_cond_and_versions_witness :
  let old := mkType "u32" None None None None (Some "A") (Some "10.0.1.0") None in
  exists stored fields',
    NiObject_add_field "NiNode" ([("x", old)], [])
      (<[ "ver2" := "20.0.0.5" ]>
         (<[ "cond" := "B" ]> (<[ "type" := "uint" ]> {[ "name" := "x" ]})))
    = Ok (fields', [])
    /\ Dict.get fields' "x" = Some stored
    /\ ver1 stored = Some "10.0.1.0" /\ ver2 stored = None
    /\ cond stored = Some "(A) #OR# (B)".
Proof.
  cbv zeta.
  set (old := mkType "u32" None None None None (Some "A") (Some "10.0.1.0") None).
  set (field := mkType "u32" None None None None (Some "B") None (Some "20.0.0.5")).
  destruct matches_ignores_cond_and_versions as [_ Hmerge].
  destruct (Hmerge "NiNode" [("x", old)] []
              (<[ "ver2" := "20.0.0.5" ]>
                 (<[ "cond" := "B" ]> (<[ "type" := "uint" ]> {[ "name" := "x" ]})))
              "x" field old) as (stored & fields' & H).
  - vm_compute. reflexivity.
  - vm_compute. reflexivity.
  - vm_compute. reflexivity.
  - left. reflexivity.
  - vm_compute. reflexivity.
  - exists stored, fields'.
    destruct H as (Hstep & Hget & _ & _ & _ & _ & _ & Hv1 & Hv2 & Hcond & _).
    repeat split; assumption.
Defined.

(** ** [Compound.from_xml] keeps the first declaration *)

Lemma Type_from_xml_cond xml t : Type_from_xml xml = Ok t -> cond t = xml !! "cond".
Proof.
  unfold Type_from_xml.
  destruct (getitem xml "type") as [type|e]; cbn [bind]; [|discriminate].
  destruct (_convert_type_str type) as [ty|e]; cbn [bind]; [|discriminate].
  destruct (_convert_type (xml !! "template")) as [ta|e]; cbn [bind]; [|discriminate].
  now intros [= <-].
Qed.

Lemma Compound_add_field_dup fields xml n :
  xml !! "name" = Some n ->
  Dict.mem fields (convert_field_name n) = true ->
  Compound_add_field fields xml = Ok fields.
Proof.
  intros Hn Hm. unfold Compound_add_field, getitem.
  rewrite Hn. cbn [bind]. now rewrite Hm.
Qed.

Lemma Compound_add_field_new fields xml n t :
  xml !! "name" = Some n ->
  Dict.mem fields (convert_field_name n) = false ->
  Type_from_xml xml = Ok t ->
  Compound_add_field fields xml = Ok (Dict.set fields (convert_field_name n) t).
Proof.
  intros Hn Hm Ht. unfold Compound_add_field, getitem.
  rewrite Hn. cbn [bind]. rewrite Hm, Ht. reflexivity.
Qed.

(** C6 (as amended): [Compound.from_xml] does not merge.  A declaration
    whose name is already stored is skipped, so for an entry with two
    declarations of the field [x] that are both emitted, the field map of
    the compound has one entry, and it is the first declaration with its own
    condition [cond1], whatever the shape and condition of the second. *)
Theorem Compound_first_declaration_wins :
  (forall fields xml n,
     xml !! "name" = Some n ->
     Dict.mem fields (convert_field_name n) = true ->
     Compound_add_field fields xml = Ok fields)
  /\ (forall entry cname c1 c2 x t1,
        attrib entry !! "name" = Some cname ->
        cname <> EmptyString ->
        children entry = [c1; c2] ->
        should_emit_member c1 = Ok true ->
        should_emit_member c2 = Ok true ->
        c1 !! "name" = Some x ->
        c2 !! "name" = Some x ->
        Type_from_xml c1 = Ok t1 ->
        exists c,
          Compound_from_xml entry = Ok c
          /\ c_fields c = [(convert_field_name x, t1)]
          /\ Dict.count (c_fields c) (convert_field_name x) = 1%nat
          /\ cond t1 = c1 !! "cond").
Proof.
  split; [exact Compound_add_field_dup|].
  intros entry cname c1 c2 x t1 Hname Hne Hch He1 He2 Hx1 Hx2 Ht1.
  unfold Compound_from_xml, for_emitted, getitem. rewrite Hname, Hch.
  cbn [bind].
  assert (Hconv : exists s, _convert_type_str cname = Ok s).
  { unfold _convert_type_str, _convert_type, _convert_struct_name.
    destruct cname as [|c rest]; [contradiction|]. cbn [bind]. now eexists. }
  destruct Hconv as [s ->]. cbn [bind foldM]. rewrite He1. cbn [bind].
  rewrite (Compound_add_field_new [] c1 x t1 Hx1 eq_refl Ht1).
  cbn [bind Dict.set]. rewrite He2. cbn [bind].
  rewrite (Compound_add_field_dup _ c2 x Hx2).
  2:{ unfold Dict.mem. cbn [Dict.get]. now rewrite String.eqb_refl. }
  cbn [bind]. eexists. split; [reflexivity|]. cbn [c_fields].
  split; [reflexivity|]. split.
  - rewrite count_cons, String.eqb_refl. reflexivity.
  - exact (Type_from_xml_cond c1 t1 Ht1).
Qed.

(** C6 on the compound that declares [x] twice with conditions [A] and
    [B]. *)
Lemma Compound_first_declaration_wins_witness :
  exists c,
    Compound_from_xml twice_x_entry = Ok c
    /\ c_fields c
       = [("x", mkType "u32" None None None None (Some "A") None None)].
Proof.
  destruct Compound_first_declaration_wins as [_ H].
  destruct (H twice_x_entry "Foo"
              (<[ "cond" := "A" ]> (<[ "type" := "uint" ]> {[ "name" := "x" ]}))
              (<[ "cond" := "B" ]> (<[ "type" := "uint" ]> {[ "name" := "x" ]}))
              "x" (mkType "u32" None None None None (Some "A") None None))
    as (c & Hc & Hf & _).
  - vm_compute. reflexivity.
  - discriminate.
  - reflexivity.
  - vm_compute. reflexivity.
  - vm_compute. reflexivity.
  - vm_compute. reflexivity.
  - vm_compute. reflexivity.
  - vm_compute. reflexivity.
  - exists c. split; [exact Hc|]. rewrite Hf. vm_compute. reflexivity.
Defined.

(** C6, a compound on which the stated property fails: the compound that declares [x] twice with
    conditions [A] and [B] keeps the condition [A], not their OR. *)
Lemma Compound_does_not_merge :
  exists c,
    Compound_from_xml twice_x_entry = Ok c
    /\ (exists f, Dict.get (c_fields c) "x" = Some f /\ cond f = Some "A")
    /\ (forall f, Dict.get (c_fields c) "x" = Some f ->
                  cond f <> Some "(A) #OR# (B)").
Proof.
  eexists. split; [vm_compute; reflexivity|]. split.
  - eexists. split; [vm_compute; reflexivity|reflexivity].
  - intros f Hf. vm_compute in Hf. injection Hf as <-. discriminate.
Qed.

(** ** [parse_expression] *)

(** C7: the three documented results of [parse_expression]. *)
Theorem parse_expression_documented :
  parse_expression "(fizz) #ADD# (buzz)" = Ok "fizz + buzz"
  /\ parse_expression "!(fizz #ADD# buzz)" = Ok "!(fizz + buzz)"
  /\ parse_expression "fizz #AND# buzz" = Ok "fizz && buzz".
Proof. repeat split; vm_compute; reflexivity. Qed.

Lemma first_shape_none expr :
  ~ matches_a_shape expr -> first_shape expr = None.
Proof.
  unfold matches_a_shape, first_shape. intros H.
  destruct (search EXPR_RE_1 expr); [exfalso; apply H; left; discriminate|].
  destruct (search EXPR_RE_2 expr); [exfalso; apply H; right; left; discriminate|].
  destruct (search EXPR_RE_3 expr); [exfalso; apply H; right; right; discriminate|].
  reflexivity.
Qed.

Lemma getitem_missing {V : Type} (d : gmap string V) k :
  d !! k = None -> getitem d k = Raise (KeyError k).
Proof. unfold getitem. now intros ->. Qed.

Lemma for_emitted_raises {St : Type}
  (body : St -> gmap string string -> result St) entry c :
  In c (children entry) ->
  should_emit_member c = Ok true ->
  (forall st, exists e, body st c = Raise e) ->
  forall st, exists e, for_emitted body entry st = Raise e.
Proof.
  intros Hin Hc Hbody. unfold for_emitted.
  induction (children entry) as [|x xs IH]; [destruct Hin|].
  intros st. cbn [foldM bind].
  destruct Hin as [->|Hin].
  - rewrite Hc. cbn [bind]. destruct (Hbody st) as [e ->]. now exists e.
  - destruct (should_emit_member x) as [[|]|e]; cbn [bind]; [| |now exists e].
    + destruct (body st x) as [st'|e]; cbn [bind]; [|now exists e].
      now apply IH.
    + now apply IH.
Qed.

Lemma Type_from_xml_no_type a :
  a !! "type" = None -> Type_from_xml a = Raise (KeyError "type").
Proof. intros Ha. unfold Type_from_xml. now rewrite (getitem_missing a "type" Ha). Qed.

Lemma NiObject_add_field_raises obj_name c :
  c !! "name" = None \/ c !! "type" = None ->
  forall st, exists e, NiObject_add_field obj_name st c = Raise e.
Proof.
  intros H [fields out]. unfold NiObject_add_field.
  destruct (getitem c "name") as [n|e] eqn:En; cbn [bind]; [|now exists e].
  destruct H as [H|H].
  - rewrite (getitem_missing c "name" H) in En. discriminate.
  - rewrite (Type_from_xml_no_type c H). cbn [bind]. now eexists.
Qed.

(** C9: [parse_expression] raises on a text that has a parenthesis or an
    operator and matches none of the three shapes, whatever the bound of the
    recursion; [Type.from_xml] raises [KeyError] without a [type]; each of
    the five builders raises [KeyError] without a [name], the three with a
    storage type without a [storage], and [NiObject.from_xml] without an
    [inherit] or with an emitted field that lacks its [name] or [type].  No
    object is returned in any of these cases. *)
Theorem malformed_input_raises :
  (forall expr,
     is_compound expr = true -> ~ matches_a_shape expr ->
     parse_expression expr = Raise AttributeError
     /\ forall fuel, parse_expression_fuel (S fuel) expr = Raise AttributeError)
  /\ (forall a, a !! "type" = None -> Type_from_xml a = Raise (KeyError "type"))
  /\ (forall entry prefixes,
        attrib entry !! "name" = None ->
        BitFlags_from_xml entry = Raise (KeyError "name")
        /\ Enum_from_xml entry = Raise (KeyError "name")
        /\ BitField_from_xml entry prefixes = Raise (KeyError "name")
        /\ Compound_from_xml entry = Raise (KeyError "name")
        /\ NiObject_from_xml entry = Raise (KeyError "name"))
  /\ (forall entry prefixes,
        is_Some (attrib entry !! "name") ->
        attrib entry !! "storage" = None ->
        BitFlags_from_xml entry = Raise (KeyError "storage")
        /\ Enum_from_xml entry = Raise (KeyError "storage")
        /\ BitField_from_xml entry prefixes = Raise (KeyError "storage"))
  /\ (forall entry,
        attrib entry !! "inherit" = None ->
        exists e, NiObject_from_xml entry = Raise e)
  /\ (forall entry c,
        In c (children entry) ->
        should_emit_member c = Ok true ->
        c !! "name" = None \/ c !! "type" = None ->
        exists e, NiObject_from_xml entry = Raise e).
Proof.
  split; [|split; [|split; [|split; [|split]]]].
  - intros expr Hc Hn.
    assert (H : forall fuel, parse_expression_fuel (S fuel) expr = Raise AttributeError).
    { intros fuel. cbn [parse_expression_fuel].
      now rewrite Hc, (first_shape_none expr Hn). }
    split; [apply H|exact H].
  - exact Type_from_xml_no_type.
  - intros entry prefixes Hn.
    unfold BitFlags_from_xml, Enum_from_xml, BitField_from_xml,
      Compound_from_xml, NiObject_from_xml.
    rewrite (getitem_missing _ "name" Hn). repeat split; reflexivity.
  - intros entry prefixes [n Hn] Hs.
    unfold BitFlags_from_xml, Enum_from_xml, BitField_from_xml, getitem.
    rewrite Hn, Hs. repeat split; reflexivity.
  - intros entry Hi. unfold NiObject_from_xml.
    destruct (getitem (attrib entry) "name") as [n|e]; cbn [bind]; [|now eexists].
    destruct (_convert_struct_name n) as [name|e]; cbn [bind]; [|now eexists].
    rewrite (getitem_missing _ "inherit" Hi). cbn [bind]. now eexists.
  - intros entry c Hin Hc Hmiss. unfold NiObject_from_xml.
    destruct (getitem (attrib entry) "name") as [n|e]; cbn [bind]; [|now eexists].
    destruct (_convert_struct_name n) as [name|e]; cbn [bind]; [|now eexists].
    destruct (getitem (attrib entry) "inherit") as [par|e]; cbn [bind]; [|now eexists].
    destruct (for_emitted_raises (NiObject_add_field name) entry c Hin Hc
                (NiObject_add_field_raises name c Hmiss) ([], [])) as [e ->].
    cbn [bind]. now eexists.
Qed.

(** C9 at concrete inputs: an operator without blanks around it, a field
    without a type and an enumeration without a storage type. *)
Lemma malformed_input_raises_witness :
  parse_expression "a+b" = Raise AttributeError
  /\ Type_from_xml {[ "name" := "x" ]} = Raise (KeyError "type")
  /\ Enum_from_xml (mkElement {[ "name" := "E" ]} None [])
     = Raise (KeyError "storage").
Proof.
  destruct malformed_input_raises as (Hp & Ht & _ & Hs & _ & _).
  split; [|split].
  - apply (Hp "a+b"); [vm_compute; reflexivity|].
    intros [H|[H|H]]; apply H; vm_compute; reflexivity.
  - apply Ht. vm_compute. reflexivity.
  - apply (Hs (mkElement {[ "name" := "E" ]} None []) ∅).
    + exists "E". vm_compute. reflexivity.
    + vm_compute. reflexivity.
Defined.

(** ** The matcher on texts with unknown parts *)

Section Matcher.

Lemma append_assoc (x y z : string) : (x ++ y) ++ z = x ++ y ++ z.
Proof. induction x as [|c x IH]; [reflexivity|]. rewrite !append_cons. now f_equal. Qed.

Lemma append_empty_r (x : string) : x ++ EmptyString = x.
Proof. induction x as [|c x IH]; [reflexivity|]. rewrite append_cons. now f_equal. Qed.

Lemma length_append (x y : string) :
  String.length (x ++ y) = (String.length x + String.length y)%nat.
Proof. induction x as [|c x IH]; [reflexivity|]. rewrite append_cons. cbn. now rewrite IH. Qed.

Lemma all_chars_app p x y :
  PyStr.all_chars p (x ++ y) = PyStr.all_chars p x && PyStr.all_chars p y.
Proof.
  induction x as [|c x IH]; [reflexivity|].
  rewrite append_cons. cbn [PyStr.all_chars]. now rewrite IH, andb_assoc.
Qed.

Lemma all_chars_impl (p q : ascii -> bool) x :
  (forall c, p c = true -> q c = true) ->
  PyStr.all_chars p x = true -> PyStr.all_chars q x = true.
Proof.
  intros Hpq. induction x as [|c x IH]; [reflexivity|].
  cbn [PyStr.all_chars]. rewrite !andb_true_iff. intros [Hc Hx].
  split; [now apply Hpq|now apply IH].
Qed.

Lemma substring_prefix x y :
  String.substring 0 (String.length x) (x ++ y) = x.
Proof.
  induction x as [|c x IH].
  - destruct y; reflexivity.
  - rewrite append_cons. cbn [String.length String.substring]. now rewrite IH.
Qed.

Lemma consumed_app x y : consumed (x ++ y) y = x.
Proof.
  unfold consumed. rewrite length_append.
  replace (String.length x + String.length y - String.length y)%nat
    with (String.length x) by lia.
  apply substring_prefix.
Qed.


Context {R : Type}.
Implicit Types (p : ascii -> bool) (k : string -> option R).

Lemma star_cons_true p c s k :
  p c = true ->
  star p (String c s) k
  = match star p s k with
    | Some r => Some r
    | None => k (String c s)
    end.
Proof. intros H. cbn [star]. now rewrite H. Qed.

Lemma star_cons_false p c s k :
  p c = false -> star p (String c s) k = k (String c s).
Proof. intros H. cbn [star]. now rewrite H. Qed.

(** A success after a run of [p] is found before the run is given back. *)
Lemma star_app p x y k r :
  PyStr.all_chars p x = true ->
  star p y k = Some r -> star p (x ++ y) k = Some r.
Proof.
  intros Hx Hy. induction x as [|c x IH]; [exact Hy|].
  cbn [PyStr.all_chars] in Hx. apply andb_true_iff in Hx. destruct Hx as [Hc Hx].
  rewrite append_cons, (star_cons_true p c _ k Hc), (IH Hx). reflexivity.
Qed.

(** The star fails through a run of characters on which the continuation
    fails. *)
Lemma star_none_app p (q : ascii -> bool) m rest k :
  (forall c t, q c = true -> k (String c t) = None) ->
  PyStr.all_chars q m = true ->
  star p rest k = None -> star p (m ++ rest) k = None.
Proof.
  intros Hk Hm Hrest. induction m as [|c m IH]; [exact Hrest|].
  cbn [PyStr.all_chars] in Hm. apply andb_true_iff in Hm. destruct Hm as [Hc Hm].
  rewrite append_cons. cbn [star]. rewrite (IH Hm).
  destruct (p c); now apply Hk.
Qed.

Lemma star_none_all p (q : ascii -> bool) m k :
  (forall c t, q c = true -> k (String c t) = None) ->
  k EmptyString = None ->
  PyStr.all_chars q m = true -> star p m k = None.
Proof.
  intros Hk He Hm. rewrite <- (append_empty_r m).
  now apply (star_none_app p q m EmptyString k Hk Hm).
Qed.

End Matcher.

(** ** A binary expression over two plain operands *)

Section Binary.

Lemma word_dot c : PyStr.is_word c = true -> dot c = true.
Proof.
  intros H. unfold dot. destruct (Ascii.eqb_spec c "010") as [->|_]; [|reflexivity].
  vm_compute in H. discriminate.
Qed.

Lemma word_not_blank c : PyStr.is_word c = true -> Ascii.eqb " " c = false.
Proof.
  intros H. destruct (Ascii.eqb_spec " " c) as [<-|_]; [|reflexivity].
  vm_compute in H. discriminate.
Qed.

Lemma word_not_paren c : PyStr.is_word c = true -> Ascii.eqb "(" c = false.
Proof.
  intros H. destruct (Ascii.eqb_spec "(" c) as [<-|_]; [|reflexivity].
  vm_compute in H. discriminate.
Qed.

Lemma word_not_W c : PyStr.is_word c = true -> W c = false.
Proof. intros H. unfold W. now rewrite H. Qed.

Lemma W_not_w c : W c = true -> w c = false.
Proof. unfold W, w. now destruct (PyStr.is_word c). Qed.

Lemma sym_W c : sym c = true -> W c = true.
Proof. unfold sym. rewrite !andb_true_iff. tauto. Qed.

Lemma sym_not_blank c : sym c = true -> Ascii.eqb " " c = false.
Proof.
  unfold sym. rewrite !andb_true_iff, !negb_true_iff. intros [[_ H] _].
  now rewrite Ascii.eqb_sym.
Qed.

Lemma sym_not_paren c : sym c = true -> Ascii.eqb "(" c = false.
Proof.
  unfold sym. rewrite !andb_true_iff, !negb_true_iff. intros [_ H].
  now rewrite Ascii.eqb_sym.
Qed.

Lemma word_then_sym_inv s :
  word_then_sym s = true ->
  exists wd c2, s = wd ++ String c2 EmptyString
                /\ PyStr.all_chars PyStr.is_word wd = true /\ sym c2 = true.
Proof.
  induction s as [|c s IH]; [discriminate|].
  destruct s as [|c' s'].
  - intros H. exists EmptyString, c. repeat split. exact H.
  - cbn [word_then_sym]. rewrite andb_true_iff. intros [Hc Hs].
    destruct (IH Hs) as (wd & c2 & Heq & Hw & Hc2).
    exists (String c wd), c2. rewrite append_cons, <- Heq.
    repeat split; [|exact Hc2]. cbn [PyStr.all_chars]. now rewrite Hc, Hw.
Qed.

(** The two forms of an operator spelling. *)
Lemma op_shape_inv op :
  op_shape op = true ->
  (exists c, op = String c EmptyString /\ sym c = true)
  \/ (exists c1 wd c2, op = String c1 (wd ++ String c2 EmptyString)
                       /\ sym c1 = true
                       /\ PyStr.all_chars PyStr.is_word wd = true
                       /\ sym c2 = true).
Proof.
  destruct op as [|c rest]; [discriminate|].
  destruct rest as [|c' rest'].
  - intros H. left. now exists c.
  - cbn [op_shape]. rewrite andb_true_iff. intros [Hc Hr].
    destruct (word_then_sym_inv _ Hr) as (wd & c2 & Heq & Hw & Hc2).
    right. exists c, wd, c2. now rewrite Heq.
Qed.

(** No character of an operator spelling is the blank or the opening
    parenthesis. *)
Lemma op_shape_chars (q : ascii -> bool) op :
  (forall c, sym c = true -> q c = true) ->
  (forall c, PyStr.is_word c = true -> q c = true) ->
  op_shape op = true -> PyStr.all_chars q op = true.
Proof.
  intros Hs Hw H. destruct (op_shape_inv op H) as [(c & -> & Hc)|(c1 & wd & c2 & -> & H1 & Hwd & H2)].
  - cbn [PyStr.all_chars]. now rewrite (Hs c Hc).
  - cbn [PyStr.all_chars]. rewrite all_chars_app. cbn [PyStr.all_chars].
    rewrite (Hs c1 H1), (Hs c2 H2), (all_chars_impl _ q wd Hw Hwd). reflexivity.
Qed.





(** Two operator characters around a word are read by the first
    alternative. *)
Lemma op_two c1 wd c2 rest caps k r :
  W c1 = true -> PyStr.all_chars PyStr.is_word wd = true -> W c2 = true ->
  k rest caps = Some r ->
  run OP (String c1 (wd ++ String c2 rest)) caps k = Some r.
Proof.
  intros H1 Hw H2 Hk. unfold OP. cbn [cat run]. rewrite H1.
  rewrite (star_app w wd (String c2 rest) _ r); [reflexivity|exact Hw|].
  rewrite star_cons_false by now apply W_not_w.
  now rewrite H2.
Qed.

(** One operator character before a blank and a word is read by the second
    alternative, after the first one has failed on the word. *)
Lemma op_one c c' b caps k r :
  W c = true -> PyStr.is_word c' = true ->
  k (String c' b) caps = None ->
  k (String " " (String c' b)) caps = Some r ->
  run OP (String c (String " " (String c' b))) caps k = Some r.
Proof.
  intros Hc Hc' Hnone Hsome. unfold OP. cbn [cat run]. rewrite Hc.
  rewrite star_cons_false by reflexivity.
  change (W " ") with true. cbv iota. rewrite Hnone.
  rewrite (star_cons_true W c _ _ Hc).
  rewrite (star_cons_true W " " _ _ eq_refl).
  rewrite star_cons_false by now apply word_not_W.
  now rewrite Hnone, Hsome.
Qed.






Lemma contains_absent c o s :
  PyStr.all_chars (fun x => negb (Ascii.eqb c x)) s = true ->
  PyStr.contains (String c o) s = false.
Proof.
  induction s as [|x s IH]; intros Hs; [reflexivity|].
  cbn [PyStr.all_chars] in Hs. apply andb_true_iff in Hs. destruct Hs as [Hx Hs].
  apply negb_true_iff in Hx.
  cbn [PyStr.contains PyStr.startswith]. now rewrite Hx, (IH Hs).
Qed.

Lemma contains_nonword c o a :
  PyStr.all_chars PyStr.is_word a = true -> W c = true ->
  PyStr.contains (String c o) a = false.
Proof.
  intros Ha Hc. apply contains_absent.
  apply (all_chars_impl PyStr.is_word _ a); [|exact Ha].
  intros x Hx. destruct (Ascii.eqb_spec c x) as [->|_]; [|reflexivity].
  unfold W in Hc. now rewrite Hx in Hc.
Qed.

Lemma is_compound_ident a : ident a -> is_compound a = false.
Proof.
  intros [_ Ha]. unfold is_compound, _contains_any_operator, OPERATORS.
  cbn [existsb fst snd].
  now rewrite !contains_nonword by (assumption || reflexivity).
Qed.

Lemma parse_leaf fuel a :
  ident a -> parse_expression_fuel (S fuel) a = Ok (leaf a).
Proof.
  intros Ha. cbn [parse_expression_fuel]. rewrite (is_compound_ident a Ha).
  unfold leaf. now destruct (PyStr.isnumeric a).
Qed.


Lemma contains_here sub s : PyStr.startswith sub s = true -> PyStr.contains sub s = true.
Proof. intros H. destruct s; cbn [PyStr.contains]; now rewrite H. Qed.

Lemma contains_cons sub c s :
  PyStr.contains sub s = true -> PyStr.contains sub (String c s) = true.
Proof. intros H. cbn [PyStr.contains]. rewrite H. apply orb_true_r. Qed.

Lemma contains_app_r sub x s :
  PyStr.contains sub s = true -> PyStr.contains sub (x ++ s) = true.
Proof.
  intros H. induction x as [|c x IH]; [exact H|].
  rewrite append_cons. now apply contains_cons.
Qed.



(** *** A leaf has no blank, so it is not parenthesized *)

Lemma lower_char_word c :
  PyStr.is_word c = true -> PyStr.is_word (PyStr.lower_char c) = true.
Proof.
  destruct c as [[] [] [] [] [] [] [] []]; vm_compute; intros H;
    first [reflexivity|discriminate H].
Qed.

Lemma lower_word a :
  PyStr.all_chars PyStr.is_word a = true ->
  PyStr.all_chars PyStr.is_word (PyStr.lower a) = true.
Proof.
  unfold PyStr.lower. induction a as [|c a IH]; [reflexivity|].
  cbn [PyStr.all_chars PyStr.map_chars]. rewrite !andb_true_iff.
  intros [Hc Ha]. split; [now apply lower_char_word|now apply IH].
Qed.

Lemma replace_absent c new s :
  PyStr.all_chars (fun x => negb (Ascii.eqb x c)) s = true ->
  PyStr.replace c new s = s.
Proof.
  induction s as [|x s IH]; [reflexivity|].
  cbn [PyStr.all_chars PyStr.replace]. rewrite andb_true_iff, negb_true_iff.
  intros [Hx Hs]. now rewrite Hx, (IH Hs).
Qed.

Lemma word_is_not c x :
  PyStr.is_word c = false -> PyStr.is_word x = true -> negb (Ascii.eqb x c) = true.
Proof.
  intros Hc Hx. destruct (Ascii.eqb_spec x c) as [->|_]; [congruence|reflexivity].
Qed.

Lemma convert_field_name_word a :
  ident a ->
  convert_field_name a
  = if in_list (PyStr.lower a) _RUST_KEYWORDS then "r#" ++ PyStr.lower a
    else PyStr.lower a.
Proof.
  intros [Hne Ha]. unfold convert_field_name.
  assert (Harg : String.eqb a "#ARG#" = false).
  { apply String.eqb_neq. intros ->. vm_compute in Ha. discriminate. }
  rewrite Harg, (contains_nonword "." EmptyString a Ha eq_refl).
  pose proof (lower_word a Ha) as Hl.
  rewrite (replace_absent " " "_" (PyStr.lower a))
    by (apply (all_chars_impl _ _ _ (fun x => word_is_not " " x eq_refl) Hl)).
  rewrite (replace_absent ":" EmptyString (PyStr.lower a))
    by (apply (all_chars_impl _ _ _ (fun x => word_is_not ":" x eq_refl) Hl)).
  reflexivity.
Qed.

Lemma wrap_leaf a : ident a -> wrap (leaf a) = leaf a.
Proof.
  intros Ha. unfold wrap.
  assert (H : PyStr.contains " " (leaf a) = false); [|now rewrite H].
  apply contains_absent.
  assert (Hw : forall s, PyStr.all_chars PyStr.is_word s = true ->
               PyStr.all_chars (fun x => negb (Ascii.eqb " " x)) s = true).
  { intros s. apply all_chars_impl. intros c Hc. now rewrite (word_not_blank c Hc). }
  unfold leaf. destruct (PyStr.isnumeric a); [exact (Hw a (proj2 Ha))|].
  rewrite (convert_field_name_word a Ha).
  pose proof (Hw _ (lower_word a (proj2 Ha))) as Hl.
  destruct (in_list _ _); [|exact Hl].
  change ("r#" ++ PyStr.lower a) with (String "r" (String "#" (PyStr.lower a))).
  cbn [PyStr.all_chars]. now rewrite Hl.
Qed.



End Binary.




(** ** The recursion of [parse_expression] ends *)

Section Termination.

Lemma star_sound {R : Type} p s (k : string -> option R) res :
  star p s k = Some res ->
  exists pre s', s = pre ++ s' /\ PyStr.all_chars p pre = true /\ k s' = Some res.
Proof.
  induction s as [|c s IH]; cbn [star].
  - intros H. now exists EmptyString, EmptyString.
  - destruct (p c) eqn:Hc.
    + destruct (star p s k) as [r|] eqn:E.
      * intros [= <-]. destruct (IH eq_refl) as (pre & s' & -> & Hpre & Hk).
        exists (String c pre), s'. rewrite append_cons. repeat split; [|exact Hk].
        cbn [PyStr.all_chars]. now rewrite Hc, Hpre.
      * intros H. now exists EmptyString, (String c s).
    + intros H. now exists EmptyString, (String c s).
Qed.

(** Every result of [run] comes from a reading. *)
Lemma run_sound r : forall s caps k res,
  run r s caps k = Some res ->
  exists s' caps', reads r s caps s' caps' /\ k s' caps' = Some res.
Proof.
  induction r as [|c|p|p|r1 IH1 r2 IH2|r1 IH1 r2 IH2|n r1 IH1];
    intros s caps k res; cbn [run reads].
  - intros H. now exists s, caps.
  - destruct s as [|c' s']; [discriminate|].
    destruct (Ascii.eqb_spec c c') as [<-|_]; [|discriminate].
    intros H. now exists s', caps.
  - destruct s as [|c' s']; [discriminate|].
    destruct (p c') eqn:Hc; [|discriminate].
    intros H. exists s', caps. split; [|exact H]. split; [|reflexivity].
    now exists c'.
  - intros H. apply star_sound in H. destruct H as (pre & s' & -> & Hpre & Hk).
    exists s', caps. split; [|exact Hk]. split; [|reflexivity]. now exists pre.
  - intros H. apply IH1 in H. destruct H as (s1 & caps1 & H1 & H).
    apply IH2 in H. destruct H as (s' & caps' & H2 & H).
    exists s', caps'. split; [|exact H]. now exists s1, caps1.
  - destruct (run r1 s caps k) as [m|] eqn:E.
    + intros [= <-]. apply IH1 in E. destruct E as (s' & caps' & H1 & H).
      exists s', caps'. split; [now left|exact H].
    + intros H. apply IH2 in H. destruct H as (s' & caps' & H2 & H).
      exists s', caps'. split; [now right|exact H].
  - intros H. apply IH1 in H. destruct H as (s' & caps1 & H1 & H).
    exists s', ((n, consumed s s') :: caps1). split; [|exact H]. now exists caps1.
Qed.

Lemma reads_length r : forall s caps s' caps',
  reads r s caps s' caps' -> (String.length s' <= String.length s)%nat.
Proof.
  induction r as [|c|p|p|r1 IH1 r2 IH2|r1 IH1 r2 IH2|n r1 IH1];
    intros s caps s' caps'; cbn [reads].
  - intros [-> _]. lia.
  - intros [-> _]. cbn. lia.
  - intros [(c & -> & _) _]. cbn. lia.
  - intros [(pre & -> & _) _]. rewrite length_append. lia.
  - intros (s1 & caps1 & H1 & H2). apply IH1 in H1. apply IH2 in H2. lia.
  - intros [H|H]; [now apply IH1 in H|now apply IH2 in H].
  - intros (caps1 & H & _). now apply IH1 in H.
Qed.

Lemma substring_length n s :
  (String.length (String.substring 0 n s) <= n)%nat.
Proof.
  revert s. induction n as [|n IH]; intros [|c s]; cbn; try lia.
  specialize (IH s). lia.
Qed.

Lemma consumed_length s s' :
  (String.length (consumed s s') <= String.length s - String.length s')%nat.
Proof. unfold consumed. apply substring_length. Qed.

Lemma search_sound r s m :
  search r s = Some m ->
  exists t, (String.length t <= String.length s)%nat /\ match_here r t = Some m.
Proof.
  induction s as [|c s IH]; cbn [search].
  - destruct (match_here r EmptyString) eqn:E; [|discriminate].
    intros [= <-]. now exists EmptyString.
  - destruct (match_here r (String c s)) eqn:E.
    + intros [= <-]. now exists (String c s).
    + intros H. destruct (IH H) as (t & Ht & Hm). exists t. split; [cbn; lia|exact Hm].
Qed.

Ltac open_reading H :=
  cbn [cat reads] in H;
  repeat match goal with
         | H' : exists _, _ |- _ => destruct H'
         | H' : _ /\ _ |- _ => destruct H'
         | H' : _ \/ _ |- _ => destruct H'
         end;
  subst.

Ltac bound_groups :=
  repeat match goal with
         | |- context [consumed ?x ?y] =>
             lazymatch goal with
             | _ : (String.length (consumed x y) <= _)%nat |- _ => fail
             | _ => pose proof (consumed_length x y)
             end
         end;
  repeat first [ rewrite length_append in *
               | progress cbn [String.length] in * ];
  lia.

(** The operands that the first two patterns give to the recursion are
    shorter than the text matched, and so are those of the third. *)
Lemma RE_1_groups t m :
  match_here EXPR_RE_1 t = Some m ->
  exists g1 g2 g3 g4,
    group m 1 = Some g1 /\ group m 2 = Some g2
    /\ group m 3 = Some g3 /\ group m 4 = Some g4
    /\ (String.length g2 < String.length t)%nat
    /\ (String.length g4 < String.length t)%nat.
Proof.
  unfold match_here. intros H. apply run_sound in H.
  destruct H as (s' & caps' & H & [= <-]). unfold EXPR_RE_1, OP in H.
  open_reading H; do 4 eexists; cbn [group Nat.eqb];
    (repeat split; [reflexivity..| |]); bound_groups.
Qed.

Lemma RE_2_groups t m :
  match_here EXPR_RE_2 t = Some m ->
  exists g1 g2 g3 g4,
    group m 1 = Some g1 /\ group m 2 = Some g2
    /\ group m 3 = Some g3 /\ group m 4 = Some g4
    /\ (String.length g2 < String.length t)%nat
    /\ (String.length g4 < String.length t)%nat.
Proof.
  unfold match_here. intros H. apply run_sound in H.
  destruct H as (s' & caps' & H & [= <-]). unfold EXPR_RE_2, OP in H.
  open_reading H; do 4 eexists; cbn [group Nat.eqb];
    (repeat split; [reflexivity..| |]); bound_groups.
Qed.

Lemma RE_3_groups t m :
  match_here EXPR_RE_3 t = Some m ->
  exists g1 g2 g3,
    group m 1 = Some g1 /\ group m 2 = Some g2 /\ group m 3 = Some g3
    /\ (String.length g1 < String.length t)%nat
    /\ (String.length g3 < String.length t)%nat.
Proof.
  unfold match_here. intros H. apply run_sound in H.
  destruct H as (s' & caps' & H & [= <-]). unfold EXPR_RE_3, OP in H.
  open_reading H; do 3 eexists; cbn [group Nat.eqb];
    (repeat split; [reflexivity..| |]); bound_groups.
Qed.

(** Whatever shape is found, its groups are set and the two operands are
    shorter than the expression. *)
Lemma first_shape_groups s m no_unary i1 i2 i3 :
  first_shape s = Some (m, no_unary, (i1, i2, i3)) ->
  exists u g1 op g3,
    (if no_unary then Ok EmptyString else get_group m 1) = Ok u
    /\ get_group m i1 = Ok g1 /\ get_group m i2 = Ok op
    /\ get_group m i3 = Ok g3
    /\ (String.length g1 < String.length s)%nat
    /\ (String.length g3 < String.length s)%nat.
Proof.
  unfold first_shape, get_group.
  destruct (search EXPR_RE_1 s) as [m1|] eqn:E1.
  { intros [= <- <- <- <- <-]. apply search_sound in E1.
    destruct E1 as (t & Ht & Hm).
    destruct (RE_1_groups t m1 Hm) as (g1 & g2 & g3 & g4 & -> & -> & -> & -> & L2 & L4).
    exists g1, g2, g3, g4. repeat split; lia. }
  destruct (search EXPR_RE_2 s) as [m2|] eqn:E2.
  { intros [= <- <- <- <- <-]. apply search_sound in E2.
    destruct E2 as (t & Ht & Hm).
    destruct (RE_2_groups t m2 Hm) as (g1 & g2 & g3 & g4 & -> & -> & -> & -> & L2 & L4).
    exists g1, g2, g3, g4. repeat split; lia. }
  destruct (search EXPR_RE_3 s) as [m3|] eqn:E3; [|discriminate].
  intros [= <- <- <- <- <-]. apply search_sound in E3.
  destruct E3 as (t & Ht & Hm).
  destruct (RE_3_groups t m3 Hm) as (g1 & g2 & g3 & -> & -> & -> & L1 & L3).
  exists EmptyString, g1, g2, g3. repeat split; lia.
Qed.

(** Two bounds above the length of the expression give the same result. *)
Lemma parse_expression_fuel_stable n : forall n' e,
  (String.length e < n)%nat -> (String.length e < n')%nat ->
  parse_expression_fuel n e = parse_expression_fuel n' e.
Proof.
  induction n as [|n IH]; intros [|n'] e Hn Hn'; try lia.
  cbn [parse_expression_fuel].
  destruct (is_compound e); [|reflexivity].
  destruct (first_shape e) as [[[m no_unary] [[i1 i2] i3]]|] eqn:E; [|reflexivity].
  destruct (first_shape_groups e m no_unary i1 i2 i3 E)
    as (u & g1 & op & g3 & -> & -> & -> & -> & L1 & L3).
  cbn [bind].
  rewrite (IH n' g1) by lia. rewrite (IH n' g3) by lia. reflexivity.
Qed.

(** The bound that [parse_expression] starts from is enough: a larger one
    changes nothing, and the bound is never exhausted. *)
Lemma parse_expression_fuel_enough n e :
  (String.length e < n)%nat -> parse_expression_fuel n e = parse_expression e.
Proof.
  intros H. unfold parse_expression. apply parse_expression_fuel_stable; lia.
Qed.

Lemma parse_expression_fuel_ends n : forall e,
  (String.length e < n)%nat -> parse_expression_fuel n e <> Raise RecursionError.
Proof.
  induction n as [|n IH]; intros e Hn; [lia|].
  cbn [parse_expression_fuel].
  destruct (is_compound e); [|discriminate].
  destruct (first_shape e) as [[[m no_unary] [[i1 i2] i3]]|] eqn:E; [|discriminate].
  destruct (first_shape_groups e m no_unary i1 i2 i3 E)
    as (u & g1 & op & g3 & -> & -> & -> & -> & L1 & L3).
  cbn [bind].
  destruct (parse_expression_fuel n g1) as [e1|x1] eqn:E1; cbn [bind].
  2:{ intros [= ->]. apply (IH g1); [lia|exact E1]. }
  destruct (String.eqb _ "|"); [discriminate|].
  destruct (parse_expression_fuel n g3) as [e3|x3] eqn:E3; cbn [bind].
  2:{ intros [= ->]. apply (IH g3); [lia|exact E3]. }
  destruct u; discriminate.
Qed.

Lemma parse_expression_ends e : parse_expression e <> Raise RecursionError.
Proof. unfold parse_expression. apply parse_expression_fuel_ends. lia. Qed.

End Termination.

(** * Further properties of the code *)

(** ** Version strings *)

Lemma version_numbers_raises s e : version_numbers s = Raise e -> e = ValueError.
Proof.
  intros H. apply (check_version_raises oldest s e).
  rewrite check_version_lex, H. reflexivity.
Qed.

(** X1: the only exception of [check_version] is [ValueError], and whether
    it raises depends on the string alone: it answers for one target exactly
    when it answers for any other. *)
Theorem check_version_failure (v v' : VersionInfo) (s : string) :
  (forall e, check_version v s = Raise e -> e = ValueError)
  /\ ((exists r, check_version v s = Ok r)
      <-> (exists r', check_version v' s = Ok r')).
Proof.
  split; [intros e; apply check_version_raises|].
  split; intros [r Hr]; eapply check_version_defined; exact Hr.
Qed.

Lemma check_version_failure_witness :
  check_version oldest "20.x" = Raise ValueError
  /\ exists r, check_version newest "20.1" = Ok r.
Proof.
  split.
  - destruct (check_version oldest "20.x") as [r|e] eqn:E.
    + vm_compute in E. discriminate.
    + f_equal. exact (proj1 (check_version_failure oldest newest "20.x") e E).
  - apply (proj2 (check_version_failure oldest newest "20.1")).
    exists LOWER. vm_compute. reflexivity.
Defined.

Lemma split_cons_other sep c s :
  Ascii.eqb c sep = false ->
  exists p ps, PyStr.split sep s = p :: ps
               /\ PyStr.split sep (String c s) = String c p :: ps.
Proof.
  intros Hc. pose proof (split_not_nil sep s) as Hnn.
  cbn [PyStr.split]. rewrite Hc.
  destruct (PyStr.split sep s) as [|p ps]; [contradiction|]. now exists p, ps.
Qed.

(** X2: a leading [V] is ignored: ["V20.1.0.3"] and ["20.1.0.3"] compare
    alike with every target, whatever follows the [V]. *)
Theorem check_version_leading_V (v : VersionInfo) (s : string) :
  check_version v (String "V" s) = check_version v s.
Proof.
  unfold check_version, split_version_string.
  assert (Hc : PyStr.contains "." (String "V" s) = PyStr.contains "." s)
    by reflexivity.
  rewrite Hc.
  assert (H : forall sep, Ascii.eqb "V" sep = false ->
            match PyStr.split sep (String "V" s) with
            | p0 :: rest => Ok (PyStr.lstrip_V p0 :: rest)
            | [] => Raise IndexError
            end
            = match PyStr.split sep s with
              | p0 :: rest => Ok (PyStr.lstrip_V p0 :: rest)
              | [] => Raise IndexError
              end).
  { intros sep Hsep. destruct (split_cons_other sep "V" s Hsep) as (p & ps & -> & ->).
    reflexivity. }
  destruct (PyStr.contains "." s); now rewrite H.
Qed.

Lemma split_replace s :
  PyStr.contains "." s = false ->
  PyStr.split "." (PyStr.replace "_" "." s) = PyStr.split "_" s.
Proof.
  induction s as [|c s IH]; [reflexivity|].
  rewrite contains_single. intros H. apply orb_false_iff in H. destruct H as [Hc Hs].
  cbn [PyStr.replace PyStr.split].
  destruct (Ascii.eqb_spec c "_") as [->|Hne].
  - rewrite append_cons, append_nil. cbn [PyStr.split].
    change (Ascii.eqb "." ".") with true. cbv iota. now rewrite IH.
  - cbn [PyStr.split]. rewrite Ascii.eqb_sym in Hc. rewrite Hc. now rewrite IH.
Qed.

Lemma contains_replace s :
  PyStr.contains "." s = false ->
  PyStr.contains "." (PyStr.replace "_" "." s) = PyStr.contains "_" s.
Proof.
  induction s as [|c s IH]; [reflexivity|].
  rewrite contains_single. intros H. apply orb_false_iff in H. destruct H as [Hc Hs].
  cbn [PyStr.replace]. rewrite (contains_single "_" c s).
  destruct (Ascii.eqb_spec c "_") as [->|Hne].
  - rewrite append_cons, append_nil. reflexivity.
  - rewrite contains_single, Hc, (IH Hs).
    destruct (Ascii.eqb_spec "_" c) as [<-|_]; [contradiction|reflexivity].
Qed.

Lemma split_absent sep s :
  PyStr.contains (String sep EmptyString) s = false -> PyStr.split sep s = [s].
Proof.
  induction s as [|c s IH]; [reflexivity|].
  rewrite contains_single. intros H. apply orb_false_iff in H. destruct H as [Hc Hs].
  cbn [PyStr.split]. rewrite Ascii.eqb_sym in Hc. now rewrite Hc, (IH Hs).
Qed.

Lemma replace_none c new s :
  PyStr.contains (String c EmptyString) s = false -> PyStr.replace c new s = s.
Proof.
  induction s as [|x s IH]; [reflexivity|].
  rewrite contains_single. intros H. apply orb_false_iff in H. destruct H as [Hc Hs].
  cbn [PyStr.replace]. rewrite Ascii.eqb_sym in Hc. now rewrite Hc, (IH Hs).
Qed.

(** X3: the two separators are interchangeable: a version string without a
    dot compares as the string in which every underscore is a dot. *)
Theorem check_version_separators (v : VersionInfo) (s : string) :
  PyStr.contains "." s = false ->
  check_version v (PyStr.replace "_" "." s) = check_version v s.
Proof.
  intros Hs. unfold check_version, split_version_string.
  rewrite Hs, (contains_replace s Hs), (split_replace s Hs).
  destruct (PyStr.contains "_" s) eqn:Hu; [reflexivity|].
  now rewrite (replace_none "_" "." s Hu).
Qed.

Lemma check_version_separators_witness :
  check_version newest "20.6.0.0" = check_version newest "20_6_0_0".
Proof.
  apply (check_version_separators newest "20_6_0_0"). vm_compute. reflexivity.
Defined.

Lemma lex_compare_exact (a b c d : Z) (v : VersionInfo) :
  lex_compare [a; b; c; d] (components v) = EXACT
  <-> [a; b; c; d] = components v.
Proof.
  unfold components. cbn [lex_compare].
  repeat match goal with
         | |- context [(?x <? ?y)%Z] => destruct (Z.ltb_spec x y)
         end;
    split; intros E;
    first [ discriminate E
          | reflexivity
          | injection E; intros; lia
          | repeat (f_equal; try lia) ].
Qed.

(** X4: [check_version] answers EXACT exactly when the string is readable
    and its first four numbers, a missing one counting as 0, are those of
    the target; further components are read but not compared. *)
Theorem check_version_exact (v : VersionInfo) (s : string) :
  check_version v s = Ok EXACT
  <-> exists nums, version_numbers s = Ok nums /\ four nums = components v.
Proof.
  rewrite check_version_lex.
  destruct (version_numbers s) as [nums|e]; cbn [bind].
  - split.
    + intros [= H]. exists nums. split; [reflexivity|].
      now apply lex_compare_exact in H.
    + intros (nums' & [= <-] & H). f_equal. now apply lex_compare_exact.
  - split; [discriminate|]. intros (nums & [=] & _).
Qed.

Lemma check_version_exact_witness :
  check_version (mkVersion 20 2 0 0) "20.2" = Ok EXACT
  /\ check_version (mkVersion 20 2 0 0) "20.2.0.0.9" = Ok EXACT.
Proof.
  split.
  - apply (proj2 (check_version_exact (mkVersion 20 2 0 0) "20.2")).
    exists [20; 2]%Z. split; vm_compute; reflexivity.
  - apply (proj2 (check_version_exact (mkVersion 20 2 0 0) "20.2.0.0.9")).
    exists [20; 2; 0; 0; 9]%Z. split; vm_compute; reflexivity.
Defined.

(** ** The attributes the two filters read *)

Lemma anyM_ext {A : Type} (p q : A -> result bool) xs :
  (forall x, p x = q x) -> anyM p xs = anyM q xs.
Proof.
  intros H. induction xs as [|x xs IH]; [reflexivity|].
  cbn [anyM]. now rewrite H, IH.
Qed.

(** X5: [should_emit_member] reads [ver1], [ver2], [vercond] and [cond] and
    nothing else: two attribute sets that agree on these four keys get the
    same answer, or the same exception. *)
Theorem should_emit_member_reads (a b : gmap string string) :
  agree_on ["ver1"; "ver2"; "vercond"; "cond"] a b ->
  should_emit_member a = should_emit_member b.
Proof.
  intros H.
  assert (H1 : a !! "ver1" = b !! "ver1") by (apply H; cbn; tauto).
  assert (H2 : a !! "ver2" = b !! "ver2") by (apply H; cbn; tauto).
  assert (H3 : a !! "vercond" = b !! "vercond") by (apply H; cbn; tauto).
  assert (H4 : a !! "cond" = b !! "cond") by (apply H; cbn; tauto).
  unfold should_emit_member. rewrite H3, H4.
  rewrite (anyM_ext (member_check_target_version a) (member_check_target_version b));
    [reflexivity|].
  intros v. unfold member_check_target_version. now rewrite H1, H2.
Qed.

Lemma should_emit_member_reads_witness :
  should_emit_member (<[ "name" := "Flags" ]> {[ "ver1" := "20.3.0.0" ]})
  = should_emit_member {[ "ver1" := "20.3.0.0" ]}.
Proof.
  apply should_emit_member_reads.
  intros k Hk. cbn in Hk.
  destruct Hk as [<-|[<-|[<-|[<-|[]]]]]; vm_compute; reflexivity.
Defined.

(** X6: [should_emit_struct] reads [versions], [module], [name], [since]
    and [until] and nothing else. *)
Theorem should_emit_struct_reads (a b : gmap string string) :
  agree_on ["versions"; "module"; "name"; "since"; "until"] a b ->
  should_emit_struct a = should_emit_struct b.
Proof.
  intros H.
  assert (H1 : a !! "versions" = b !! "versions") by (apply H; cbn; tauto).
  assert (H2 : a !! "module" = b !! "module") by (apply H; cbn; tauto).
  assert (H3 : a !! "name" = b !! "name") by (apply H; cbn; tauto).
  assert (H4 : a !! "since" = b !! "since") by (apply H; cbn; tauto).
  assert (H5 : a !! "until" = b !! "until") by (apply H; cbn; tauto).
  unfold should_emit_struct, has_key. rewrite H1, H2, H3.
  rewrite (anyM_ext (struct_check_target_version a) (struct_check_target_version b));
    [reflexivity|].
  intros v. unfold struct_check_target_version, has_key, getitem.
  now rewrite H1, H4, H5.
Qed.

Lemma should_emit_struct_reads_witness :
  should_emit_struct (<[ "inherit" := "NiObject" ]> {[ "since" := "20.3.0.0" ]})
  = should_emit_struct {[ "since" := "20.3.0.0" ]}.
Proof.
  apply should_emit_struct_reads.
  intros k Hk. cbn in Hk.
  destruct Hk as [<-|[<-|[<-|[<-|[<-|[]]]]]]; vm_compute; reflexivity.
Defined.

(** ** Bounds against the newest and the oldest target *)

Ltac split_comparisons :=
  repeat match goal with
         | H : context [(?x <? ?y)%Z] |- _ => destruct (Z.ltb_spec x y)
         | |- context [(?x <? ?y)%Z] => destruct (Z.ltb_spec x y)
         end;
  try congruence; try lia.

Lemma not_higher_newest v s :
  In v TARGET_VERSIONS -> answers_not HIGHER v s -> answers_not HIGHER newest s.
Proof.
  unfold answers_not. intros Hin (r & Hr & Hne).
  rewrite check_version_lex in Hr. rewrite check_version_lex.
  destruct (version_numbers s) as [nums|e]; cbn [bind] in *; [|discriminate].
  injection Hr as <-. eexists. split; [reflexivity|].
  unfold four in *. cbn [map] in *.
  generalize dependent (nth 0 nums 0%Z). generalize dependent (nth 1 nums 0%Z).
  generalize dependent (nth 2 nums 0%Z). generalize dependent (nth 3 nums 0%Z).
  intros d c b a Hne.
  unfold TARGET_VERSIONS in Hin.
  repeat (destruct Hin as [<-|Hin];
          [unfold components, newest in *; cbn [lex_compare major minor micro patch] in *;
           split_comparisons|]).
  all: destruct Hin.
Qed.

Lemma not_lower_oldest v s :
  In v TARGET_VERSIONS -> answers_not LOWER v s -> answers_not LOWER oldest s.
Proof.
  unfold answers_not. intros Hin (r & Hr & Hne).
  rewrite check_version_lex in Hr. rewrite check_version_lex.
  destruct (version_numbers s) as [nums|e]; cbn [bind] in *; [|discriminate].
  injection Hr as <-. eexists. split; [reflexivity|].
  unfold four in *. cbn [map] in *.
  generalize dependent (nth 0 nums 0%Z). generalize dependent (nth 1 nums 0%Z).
  generalize dependent (nth 2 nums 0%Z). generalize dependent (nth 3 nums 0%Z).
  intros d c b a Hne.
  unfold TARGET_VERSIONS in Hin.
  repeat (destruct Hin as [<-|Hin];
          [unfold components, oldest in *; cbn [lex_compare major minor micro patch] in *;
           split_comparisons|]).
  all: destruct Hin.
Qed.

Lemma answers_parses rel v s : answers_not rel v s -> parses s.
Proof. intros (r & Hr & _). now exists v, r. Qed.

(** X7: a member bounded on one side only is kept or dropped by one target.
    With [ver1] alone it is emitted exactly when [ver1] is not HIGHER than
    the newest target 20.6.0.0; with [ver2] alone exactly when [ver2] is not
    LOWER than the oldest target 20.1.0.3. *)
Theorem should_emit_member_one_bound (attrib : gmap string string) (s : string) :
  attrib !! "vercond" = None -> attrib !! "cond" = None ->
  (attrib !! "ver1" = Some s -> attrib !! "ver2" = None ->
   (should_emit_member attrib = Ok true <-> answers_not HIGHER newest s))
  /\ (attrib !! "ver1" = None -> attrib !! "ver2" = Some s ->
      (should_emit_member attrib = Ok true <-> answers_not LOWER oldest s)).
Proof.
  intros Hvc Hc. rewrite (should_emit_member_plain attrib Hvc Hc).
  assert (Hgen : forall v0, In v0 TARGET_VERSIONS ->
            (forall v, In v TARGET_VERSIONS -> member_in_range attrib v ->
                       member_in_range attrib v0) ->
            (anyM (member_check_target_version attrib) TARGET_VERSIONS = Ok true
             <-> member_in_range attrib v0)).
  { intros v0 Hin0 Hmono. split.
    - intros H. apply anyM_true_elim in H. destruct H as (v & Hin & Hp).
      apply (Hmono v Hin). now apply member_target_true.
    - intros Hr. apply anyM_true_intro.
      + destruct (member_in_range_parses attrib v0 Hr) as [P1 P2].
        intros x _. now apply member_target_total.
      + exists v0. split; [exact Hin0|]. now apply member_target_true. }
  split; intros H1 H2.
  - rewrite (Hgen newest).
    + unfold member_in_range. rewrite H1, H2. split.
      * intros [H _]. now apply H.
      * intros H. split; [now intros ? [= <-]|intros ? [=]].
    + vm_compute. tauto.
    + unfold member_in_range. rewrite H1, H2. intros v Hin [H _].
      split; [|intros ? [=]]. intros ? [= <-].
      apply (not_higher_newest v _ Hin). now apply H.
  - rewrite (Hgen oldest).
    + unfold member_in_range. rewrite H1, H2. split.
      * intros [_ H]. now apply H.
      * intros H. split; [intros ? [=]|now intros ? [= <-]].
    + vm_compute. tauto.
    + unfold member_in_range. rewrite H1, H2. intros v Hin [_ H].
      split; [intros ? [=]|]. intros ? [= <-].
      apply (not_lower_oldest v _ Hin). now apply H.
Qed.

Lemma should_emit_member_one_bound_witness :
  should_emit_member {[ "ver1" := "20.6.0.0" ]} = Ok true
  /\ should_emit_member {[ "ver2" := "20.1.0.3" ]} = Ok true.
Proof.
  split.
  - destruct (should_emit_member_one_bound {[ "ver1" := "20.6.0.0" ]} "20.6.0.0")
      as [H _]; [vm_compute; reflexivity..|].
    apply H; [vm_compute; reflexivity..|].
    exists EXACT. split; [vm_compute; reflexivity|discriminate].
  - destruct (should_emit_member_one_bound {[ "ver2" := "20.1.0.3" ]} "20.1.0.3")
      as [_ H]; [vm_compute; reflexivity..|].
    apply H; [vm_compute; reflexivity..|].
    exists EXACT. split; [vm_compute; reflexivity|discriminate].
Defined.

(** X8: on a structure that no denylist rule excludes and that declares
    [since], [until] is tested in the same direction as [since]: the
    structure is emitted exactly when [since] and, if present, [until] are
    both not HIGHER than the newest target 20.6.0.0. *)
Theorem should_emit_struct_bounds (attrib : gmap string string) (since : string) :
  ~ denied attrib ->
  attrib !! "since" = Some since ->
  (should_emit_struct attrib = Ok true
   <-> answers_not HIGHER newest since
       /\ forall until, attrib !! "until" = Some until ->
                        answers_not HIGHER newest until).
Proof.
  intros Hnd Hs. rewrite should_emit_struct_chain.
  destruct (denied_b attrib) eqn:Hd; [now apply denied_b_spec in Hd|].
  assert (Hv : attrib !! "versions" = None).
  { destruct (attrib !! "versions") eqn:E; [|reflexivity].
    exfalso. apply Hnd. left. rewrite E. now eexists. }
  assert (Hnew : In newest TARGET_VERSIONS) by (vm_compute; tauto).
  split.
  - intros H. apply anyM_true_elim in H. destruct H as (v & Hin & Hp).
    apply (struct_target_true attrib v Hv) in Hp.
    destruct (Hp since Hs) as [H1 H2]. split.
    + exact (not_higher_newest v since Hin H1).
    + intros u Hu. exact (not_higher_newest v u Hin (H2 u Hu)).
  - intros [H1 H2].
    assert (Hr : struct_in_range attrib newest).
    { intros s' Hs'. rewrite Hs in Hs'. injection Hs' as <-. now split. }
    apply anyM_true_intro.
    + intros x _. exact (struct_target_total attrib newest x Hv Hr).
    + exists newest. split; [exact Hnew|]. now apply struct_target_true.
Qed.

Lemma should_emit_struct_bounds_witness :
  should_emit_struct (<[ "until" := "20.7.0.0" ]> {[ "since" := "10.0.1.0" ]})
  <> Ok true.
Proof.
  intros H.
  apply (should_emit_struct_bounds
           (<[ "until" := "20.7.0.0" ]> {[ "since" := "10.0.1.0" ]}) "10.0.1.0")
    in H.
  - destruct H as [_ H]. destruct (H "20.7.0.0" eq_refl) as (r & Hr & Hne).
    vm_compute in Hr. injection Hr as <-. now apply Hne.
  - intros Hd. apply denied_b_spec in Hd. vm_compute in Hd. discriminate.
  - vm_compute. reflexivity.
Defined.

(** ** [parse_expression]: recursion and exceptions *)

(** X9: the recursion of [parse_expression] ends.  Whatever shape matches,
    the two operands handed to the recursive calls are set and strictly
    shorter than the expression; so the result does not depend on the bound
    of the recursion once it exceeds the length, and the bound is never
    exhausted. *)
Theorem parse_expression_terminates :
  (forall e m no_unary i1 i2 i3,
     first_shape e = Some (m, no_unary, (i1, i2, i3)) ->
     exists g1 g3,
       get_group m i1 = Ok g1 /\ get_group m i3 = Ok g3
       /\ (String.length g1 < String.length e)%nat
       /\ (String.length g3 < String.length e)%nat)
  /\ (forall e n, (String.length e < n)%nat ->
                  parse_expression_fuel n e = parse_expression e)
  /\ (forall e, parse_expression e <> Raise RecursionError).
Proof.
  split; [|split].
  - intros e m no_unary i1 i2 i3 H.
    destruct (first_shape_groups e m no_unary i1 i2 i3 H)
      as (u & g1 & op & g3 & _ & H1 & _ & H3 & L1 & L3).
    now exists g1, g3.
  - intros e n H. unfold parse_expression. apply parse_expression_fuel_stable; lia.
  - intros e. unfold parse_expression. apply parse_expression_fuel_ends. lia.
Qed.

Lemma parse_expression_terminates_witness :
  parse_expression_fuel 100 "(fizz) #ADD# (buzz)"
  = parse_expression "(fizz) #ADD# (buzz)".
Proof.
  apply (proj1 (proj2 parse_expression_terminates)). vm_compute. lia.
Defined.

Lemma parse_expression_fuel_attribute_error n : forall e x,
  (String.length e < n)%nat ->
  parse_expression_fuel n e = Raise x -> x = AttributeError.
Proof.
  induction n as [|n IH]; intros e x Hn; [lia|].
  cbn [parse_expression_fuel].
  destruct (is_compound e); [|discriminate].
  destruct (first_shape e) as [[[m no_unary] [[i1 i2] i3]]|] eqn:E; [|congruence].
  destruct (first_shape_groups e m no_unary i1 i2 i3 E)
    as (u & g1 & op & g3 & -> & -> & -> & -> & L1 & L3).
  cbn [bind].
  destruct (parse_expression_fuel n g1) as [e1|x1] eqn:E1; cbn [bind].
  2:{ intros [= ->]. apply (IH g1); [lia|exact E1]. }
  destruct (String.eqb _ "|"); [discriminate|].
  destruct (parse_expression_fuel n g3) as [e3|x3] eqn:E3; cbn [bind].
  2:{ intros [= ->]. apply (IH g3); [lia|exact E3]. }
  destruct u; discriminate.
Qed.

(** X10: the only exception of [parse_expression] is the [AttributeError]
    of a text, or of an operand inside it, that has a parenthesis or an
    operator and matches no shape; on any other text it returns. *)
Theorem parse_expression_failure (e : string) (x : exn) :
  parse_expression e = Raise x -> x = AttributeError.
Proof.
  unfold parse_expression. apply parse_expression_fuel_attribute_error. lia.
Qed.

Lemma parse_expression_failure_witness :
  parse_expression "(a+b) #ADD# (c)" = Raise AttributeError.
Proof.
  destruct (parse_expression "(a+b) #ADD# (c)") as [r|x] eqn:E.
  - vm_compute in E. discriminate.
  - f_equal. exact (parse_expression_failure _ x E).
Defined.

(** ** Field names *)

(** X11: a plain name or number is a leaf of [parse_expression]: a number
    is returned as it is, and a name in lower case, with [r#] before it when
    it is a Rust keyword. *)
Theorem parse_expression_operand (a : string) :
  ident a ->
  parse_expression a
  = Ok (if PyStr.isnumeric a then a
        else if in_list (PyStr.lower a) _RUST_KEYWORDS
             then "r#" ++ PyStr.lower a
             else PyStr.lower a).
Proof.
  intros Ha. unfold parse_expression. rewrite (parse_leaf _ a Ha).
  unfold leaf. now rewrite (convert_field_name_word a Ha).
Qed.

Lemma parse_expression_operand_witness :
  parse_expression "Type" = Ok "r#type" /\ parse_expression "16" = Ok "16".
Proof.
  split.
  - apply (parse_expression_operand "Type"). split; [discriminate|reflexivity].
  - apply (parse_expression_operand "16"). split; [discriminate|reflexivity].
Defined.

(** X12: [convert_field_name] never returns a bare Rust keyword. *)
Theorem convert_field_name_not_keyword (name : string) :
  in_list (convert_field_name name) _RUST_KEYWORDS = false.
Proof.
  unfold convert_field_name.
  destruct (String.eqb name "#ARG#"); [reflexivity|].
  destruct (PyStr.contains "." name).
  - change ("FileVersion(" ++ PyStr.join ", " (PyStr.split "." name) ++ ")")
      with (String "F" ("ileVersion(" ++ PyStr.join ", " (PyStr.split "." name) ++ ")")).
    reflexivity.
  - set (name' := PyStr.replace ":" "" _).
    destruct (in_list name' _RUST_KEYWORDS) eqn:E; [|exact E].
    change ("r#" ++ name') with (String "r" (String "#" name')).
    reflexivity.
Qed.

Lemma replace_clears c new s :
  PyStr.all_chars (fun x => negb (Ascii.eqb x c)) new = true ->
  PyStr.all_chars (fun x => negb (Ascii.eqb x c)) (PyStr.replace c new s) = true.
Proof.
  intros Hnew. induction s as [|x s IH]; [reflexivity|].
  cbn [PyStr.replace]. destruct (Ascii.eqb x c) eqn:E.
  - now rewrite all_chars_app, Hnew, IH.
  - cbn [PyStr.all_chars]. now rewrite E, IH.
Qed.

Lemma replace_keeps (q : ascii -> bool) c new s :
  PyStr.all_chars q new = true -> PyStr.all_chars q s = true ->
  PyStr.all_chars q (PyStr.replace c new s) = true.
Proof.
  intros Hnew. induction s as [|x s IH]; [reflexivity|].
  cbn [PyStr.all_chars PyStr.replace]. rewrite andb_true_iff. intros [Hx Hs].
  destruct (Ascii.eqb x c).
  - now rewrite all_chars_app, Hnew, (IH Hs).
  - cbn [PyStr.all_chars]. now rewrite Hx, (IH Hs).
Qed.

Lemma contains_absent' c s :
  PyStr.all_chars (fun x => negb (Ascii.eqb x c)) s = true ->
  PyStr.contains (String c EmptyString) s = false.
Proof.
  intros H. apply contains_absent.
  apply (all_chars_impl (fun x => negb (Ascii.eqb x c)) _ s); [|exact H].
  intros x Hx. now rewrite Ascii.eqb_sym.
Qed.

(** X13: unless the name is a version (it has a dot), the name that
    [convert_field_name] returns has no blank and no colon. *)
Theorem convert_field_name_token (name : string) :
  PyStr.contains "." name = false ->
  PyStr.contains " " (convert_field_name name) = false
  /\ PyStr.contains ":" (convert_field_name name) = false.
Proof.
  intros Hdot. unfold convert_field_name. rewrite Hdot.
  destruct (String.eqb name "#ARG#"); [split; reflexivity|].
  set (inner := PyStr.replace " " "_" (PyStr.lower name)).
  set (name' := PyStr.replace ":" "" inner).
  assert (Hb : PyStr.all_chars (fun x => negb (Ascii.eqb x " ")) name' = true).
  { apply replace_keeps; [reflexivity|]. now apply replace_clears. }
  assert (Hc : PyStr.all_chars (fun x => negb (Ascii.eqb x ":")) name' = true).
  { now apply replace_clears. }
  destruct (in_list name' _RUST_KEYWORDS).
  - change ("r#" ++ name') with (String "r" (String "#" name')).
    split; apply contains_absent'; cbn [PyStr.all_chars];
      [now rewrite Hb|now rewrite Hc].
  - split; now apply contains_absent'.
Qed.

Lemma convert_field_name_token_witness :
  PyStr.contains " " (convert_field_name "Num UV: Sets") = false.
Proof. apply (convert_field_name_token "Num UV: Sets"). reflexivity. Defined.

(** ** Type names and [Type.from_xml] *)

Lemma builtin_not_empty ty b : Dict.get _BUILTIN_TYPES ty = Some b -> b <> EmptyString.
Proof.
  unfold _BUILTIN_TYPES. cbn [Dict.get].
  repeat match goal with
         | |- context [String.eqb ?k ty] => destruct (String.eqb k ty)
         end; intros [= <-]; discriminate.
Qed.

(** X14: [_convert_type] raises exactly on the empty name, with
    [IndexError] (also though the table of built-in types would not need the
    default), and the name it returns is never empty. *)
Theorem _convert_type_total (ty : string) :
  (ty = EmptyString -> _convert_type (Some ty) = Raise IndexError)
  /\ (ty <> EmptyString ->
      exists t, _convert_type (Some ty) = Ok (Some t) /\ t <> EmptyString).
Proof.
  split.
  - intros ->. reflexivity.
  - intros Hne. destruct ty as [|c rest]; [contradiction|].
    unfold _convert_type, _convert_struct_name. cbn [bind].
    eexists. split; [reflexivity|].
    destruct (Dict.get _BUILTIN_TYPES (String c rest)) as [b|] eqn:E.
    + exact (builtin_not_empty _ b E).
    + discriminate.
Qed.

Lemma _convert_type_total_witness :
  exists t, _convert_type (Some "uint") = Ok (Some t) /\ t <> EmptyString.
Proof. apply (proj2 (_convert_type_total "uint")). discriminate. Defined.

(** X15: [Type.from_xml] returns a type exactly when [type] is present and
    not empty and [template] is absent or not empty; otherwise it raises
    [KeyError] for the missing [type] and [IndexError] for an empty name.
    The type it returns carries the six optional attributes as they are
    written. *)
Theorem Type_from_xml_total (a : gmap string string) :
  ((exists t, Type_from_xml a = Ok t)
   <-> (exists type, a !! "type" = Some type /\ type <> EmptyString)
       /\ a !! "template" <> Some EmptyString)
  /\ (forall e, Type_from_xml a = Raise e -> e = KeyError "type" \/ e = IndexError)
  /\ (forall t, Type_from_xml a = Ok t ->
        arr1 t = a !! "arr1" /\ arr2 t = a !! "arr2" /\ arg t = a !! "arg"
        /\ cond t = a !! "cond" /\ ver1 t = a !! "ver1" /\ ver2 t = a !! "ver2").
Proof.
  unfold Type_from_xml, getitem, _convert_type_str.
  destruct (a !! "type") as [type|]; cbn [bind].
  2:{ split; [|split].
      - split; [intros [t [=]]|intros [(type & [=] & _) _]].
      - intros e [= <-]. now left.
      - intros t [=]. }
  destruct type as [|c rest].
  { cbn [_convert_type _convert_struct_name bind]. split; [|split].
    - split; [intros [t [=]]|intros [(type & [= <-] & Hne) _]; contradiction].
    - intros e [= <-]. now right.
    - intros t [=]. }
  cbn [_convert_type _convert_struct_name bind].
  destruct (a !! "template") as [[|c' rest']|];
    cbn [_convert_type _convert_struct_name bind].
  - split; [|split].
    + split; [intros [t [=]]|intros [_ H]; now destruct H].
    + intros e [= <-]. now right.
    + intros t [=].
  - split; [|split].
    + split; [intros _|intros _; now eexists].
      split; [exists (String c rest); split; [reflexivity|discriminate]|discriminate].
    + intros e [=].
    + intros t [= <-]. now cbn.
  - split; [|split].
    + split; [intros _|intros _; now eexists].
      split; [exists (String c rest); split; [reflexivity|discriminate]|discriminate].
    + intros e [=].
    + intros t [= <-]. now cbn.
Qed.

Lemma Type_from_xml_total_witness :
  exists t, Type_from_xml (<[ "arr1" := "3" ]> {[ "type" := "float" ]}) = Ok t.
Proof.
  apply (proj1 (Type_from_xml_total (<[ "arr1" := "3" ]> {[ "type" := "float" ]}))).
  split.
  - exists "float". split; [vm_compute; reflexivity|discriminate].
  - vm_compute. discriminate.
Defined.

(** ** The version guard and the import attribute *)

(** X16: the version guard of a field is its guards joined by [" && "]: the
    lower bound from [ver1], then the upper bound from [ver2]; it is empty
    exactly when the field has no version range. *)
Theorem get_vercond_attr_guards (t : Type_) :
  get_vercond_attr t = PyStr.join " && " (version_guards t)
  /\ (get_vercond_attr t = EmptyString <-> ver1 t = None /\ ver2 t = None).
Proof.
  assert (Hne : forall x y, "FileVersion(" ++ x <> EmptyString
                            /\ "_header_version <= FileVersion(" ++ y <> EmptyString).
  { intros x y. split; discriminate. }
  assert (Heq : forall x, String.eqb ("FileVersion(" ++ x) EmptyString = false)
    by reflexivity.
  unfold get_vercond_attr, version_guards.
  destruct (ver1 t) as [v1|], (ver2 t) as [v2|]; cbn [app PyStr.join].
  - rewrite Heq. cbn [negb]. rewrite !append_assoc. split; [reflexivity|].
    split; [|intros [[=] _]]. intros E. now apply (Hne _ "") in E.
  - split; [reflexivity|]. split; [|intros [[=] _]].
    intros E. now apply (Hne _ "") in E.
  - split; [reflexivity|]. split; [|intros [_ [=]]].
    intros E. rewrite append_nil in E. now apply (Hne "") in E.
  - split; [reflexivity|]. tauto.
Qed.

Lemma has_arg_field fields :
  existsb (fun kv : string * Type_ =>
             if truthy (cond (snd kv))
             then PyStr.contains "#ARG#" (py_str (cond (snd kv)))
             else false) fields = true
  <-> exists k f c, In (k, f) fields /\ cond f = Some c
                    /\ PyStr.contains "#ARG#" c = true.
Proof.
  rewrite existsb_exists. split.
  - intros [[k f] [Hin H]]. cbn [snd] in H.
    destruct (cond f) as [c|] eqn:Ec; [|discriminate].
    exists k, f, c. split; [exact Hin|]. split; [exact Ec|].
    cbn [py_str] in H. destruct (truthy (Some c)); [exact H|discriminate].
  - intros (k & f & c & Hin & Hc & Harg). exists (k, f). split; [exact Hin|].
    cbn [snd]. rewrite Hc. cbn [py_str]. rewrite Harg.
    destruct c; [discriminate Harg|reflexivity].
Qed.

(** X17: a compound imports the argument exactly when it is [Morph] or
    [NiAGDDataBlocks] or one of its fields has a condition that mentions
    [#ARG#]. *)
Theorem get_import_attr_arg (c : Compound) :
  get_import_attr c
  = "#[br(import(arg: usize, _header_version: FileVersion))]"
    ++ String "010" EmptyString
  <-> c_name c = "Morph" \/ c_name c = "NiAGDDataBlocks"
      \/ exists k f cnd, In (k, f) (c_fields c) /\ cond f = Some cnd
                         /\ PyStr.contains "#ARG#" cnd = true.
Proof.
  unfold get_import_attr.
  set (needs := existsb _ (c_fields c)).
  pose proof (has_arg_field (c_fields c)) as Hneeds. fold needs in Hneeds.
  destruct (in_list (c_name c) ["Morph"; "NiAGDDataBlocks"]) eqn:Hn; cbn [orb].
  - split; [intros _|reflexivity].
    apply in_list_In in Hn. destruct Hn as [<-|[<-|[]]]; tauto.
  - assert (Hnot : ~ (c_name c = "Morph" \/ c_name c = "NiAGDDataBlocks")).
    { intros H. assert (Hin : In (c_name c) ["Morph"; "NiAGDDataBlocks"]).
      { destruct H as [-> | ->]; cbn; tauto. }
      apply in_list_In in Hin. congruence. }
    destruct needs.
    + split; [intros _|reflexivity]. right; right. now apply Hneeds.
    + split; [discriminate|].
      intros [H|[H|H]]; [tauto|tauto|]. apply Hneeds in H. discriminate.
Qed.

Lemma get_vercond_attr_guards_witness :
  get_vercond_attr (mkType "u32" None None None None None (Some "10.0.1.0") None)
  <> EmptyString.
Proof.
  intros E.
  apply (proj2 (get_vercond_attr_guards
                  (mkType "u32" None None None None None (Some "10.0.1.0") None)))
    in E.
  destruct E as [E _]. discriminate E.
Defined.

Lemma get_import_attr_arg_witness :
  get_import_attr (mkCompound "Morph" "" false [])
  = "#[br(import(arg: usize, _header_version: FileVersion))]"
    ++ String "010" EmptyString.
Proof.
  apply (proj2 (get_import_attr_arg (mkCompound "Morph" "" false []))).
  left. reflexivity.
Defined.

(** ** The field map of a compound *)

Lemma Compound_add_field_unique fields xml fields' :
  unique_keys fields -> Compound_add_field fields xml = Ok fields' ->
  unique_keys fields'.
Proof.
  intros Hu. unfold Compound_add_field.
  destruct (getitem xml "name") as [n|e]; cbn [bind]; [|discriminate].
  destruct (Dict.mem fields (convert_field_name n)); [now intros [= <-]|].
  destruct (Type_from_xml xml) as [t|e]; cbn [bind]; [|discriminate].
  intros [= <-]. now apply unique_set.
Qed.

Lemma Compound_fold cs : forall fields fields',
  foldM (fun st child =>
           let* keep := should_emit_member child in
           if keep then Compound_add_field st child else Ok st) cs fields
  = Ok fields' ->
  forall k,
    match Dict.get fields k with
    | Some t => Dict.get fields' k = Some t
    | None =>
        match first_decl cs k with
        | Some x => exists t, Type_from_xml x = Ok t /\ Dict.get fields' k = Some t
        | None => Dict.get fields' k = None
        end
    end.
Proof.
  induction cs as [|c cs IH]; intros fields fields'; cbn [foldM bind first_decl].
  - intros [= <-] k. now destruct (Dict.get fields k).
  - unfold emitted.
    destruct (should_emit_member c) as [[|]|e]; cbn [bind andb]; [| |discriminate].
    2:{ intros H k. exact (IH fields fields' H k). }
    destruct (Compound_add_field fields c) as [f1|e] eqn:E1; cbn [bind];
      [|discriminate].
    intros H k. specialize (IH f1 fields' H k).
    unfold Compound_add_field, getitem in E1. unfold declares.
    destruct (c !! "name") as [n|]; cbn [bind] in E1; [|discriminate].
    destruct (Dict.mem fields (convert_field_name n)) eqn:Em.
    + injection E1 as <-.
      destruct (Dict.get fields k) as [t|] eqn:Ek; [exact IH|].
      destruct (String.eqb_spec (convert_field_name n) k) as [<-|Hne]; [|exact IH].
      unfold Dict.mem in Em. rewrite Ek in Em. discriminate.
    + destruct (Type_from_xml c) as [t1|e] eqn:Et; cbn [bind] in E1; [|discriminate].
      injection E1 as <-.
      destruct (String.eqb_spec (convert_field_name n) k) as [<-|Hne].
      * rewrite get_set_eq in IH.
        unfold Dict.mem in Em.
        destruct (Dict.get fields (convert_field_name n)); [discriminate|].
        now exists t1.
      * rewrite get_set_ne in IH by congruence. exact IH.
Qed.

(** X18: in the compound that [Compound.from_xml] returns, the field stored
    under a name is the first emitted declaration of that name, read by
    [Type.from_xml]: later declarations of the name leave no trace, a name
    that no emitted child declares is absent, and no name is stored twice. *)
Theorem Compound_from_xml_fields (entry : Element) (c : Compound) :
  Compound_from_xml entry = Ok c ->
  unique_keys (c_fields c)
  /\ forall k,
       match first_decl (children entry) k with
       | Some x => exists t, Type_from_xml x = Ok t
                             /\ Dict.get (c_fields c) k = Some t
       | None => Dict.get (c_fields c) k = None
       end.
Proof.
  unfold Compound_from_xml.
  destruct (getitem (attrib entry) "name") as [n|e]; cbn [bind]; [|discriminate].
  destruct (_convert_type_str n) as [name|e]; cbn [bind]; [|discriminate].
  destruct (for_emitted Compound_add_field entry []) as [fields|e] eqn:E;
    cbn [bind]; [|discriminate].
  intros [= <-]. cbn [c_fields]. split.
  - refine (for_emitted_invariant unique_keys _ _ entry [] fields unique_nil E).
    intros st child st'. apply Compound_add_field_unique.
  - intros k. exact (Compound_fold (children entry) [] fields E k).
Qed.

Lemma Compound_from_xml_fields_witness :
  exists c t,
    Compound_from_xml twice_x_entry = Ok c
    /\ Dict.get (c_fields c) "x" = Some t /\ cond t = Some "A".
Proof.
  destruct (Compound_from_xml twice_x_entry) as [c|e] eqn:Hc;
    [|vm_compute in Hc; discriminate].
  destruct (Compound_from_xml_fields twice_x_entry c Hc) as [_ H].
  specialize (H "x").
  assert (Hf : first_decl (children twice_x_entry) "x"
               = Some (<[ "cond" := "A" ]> (<[ "type" := "uint" ]> {[ "name" := "x" ]})))
    by (vm_compute; reflexivity).
  rewrite Hf in H. destruct H as (t & Ht & Hg).
  exists c, t. split; [reflexivity|]. split; [exact Hg|].
  vm_compute in Ht. injection Ht as <-. reflexivity.
Defined.

(** ** The field map of an object *)

Lemma NiObject_add_field_effect obj_name fields out c f1 out1 :
  NiObject_add_field obj_name (fields, out) c = Ok (f1, out1) ->
  exists n field,
    c !! "name" = Some n /\ Type_from_xml c = Ok field
    /\ match Dict.get fields (convert_field_name n) with
       | Some old =>
           f1 = fields
           \/ f1 = Dict.set fields (convert_field_name n)
                             (set_cond old (Some (or_cond old field)))
       | None =>
           f1 = Dict.set fields (convert_field_name n)
                         (if is_palette obj_name (convert_field_name n)
                          then set_cond (set_arr1 field (Some "Num Entries")) None
                          else field)
       end.
Proof.
  unfold NiObject_add_field, getitem.
  destruct (c !! "name") as [n|]; cbn [bind]; [|discriminate].
  destruct (Type_from_xml c) as [field|e]; cbn [bind]; [|discriminate].
  intros H. exists n, field. split; [reflexivity|]. split; [reflexivity|].
  destruct (Dict.get fields (convert_field_name n)) as [old|].
  - destruct (negb (truthy (cond field)) && negb (truthy (cond old))).
    + injection H as <- _. now left.
    + destruct (negb (matches field old) && _).
      * injection H as <- _. now left.
      * injection H as <- _. now right.
  - now injection H as <- _.
Qed.

Lemma same_but_cond_refl t : same_but_cond t t.
Proof. unfold same_but_cond. tauto. Qed.

Lemma same_but_cond_trans t1 t2 t3 :
  same_but_cond t1 t2 -> same_but_cond t2 t3 -> same_but_cond t1 t3.
Proof. unfold same_but_cond. intuition congruence. Qed.

Lemma NiObject_fold obj_name cs : forall fields out fields' out',
  foldM (fun st child =>
           let* keep := should_emit_member child in
           if keep then NiObject_add_field obj_name st child else Ok st)
        cs (fields, out)
  = Ok (fields', out') ->
  forall k,
    match Dict.get fields k with
    | Some t => exists t', Dict.get fields' k = Some t' /\ same_but_cond t t'
    | None =>
        match first_decl cs k with
        | Some x => exists t0 t', Type_from_xml x = Ok t0
                                  /\ Dict.get fields' k = Some t'
                                  /\ keeps_decl obj_name k t0 t'
        | None => Dict.get fields' k = None
        end
    end.
Proof.
  induction cs as [|c cs IH]; intros fields out fields' out';
    cbn [foldM bind first_decl].
  - intros [= <- <-] k. destruct (Dict.get fields k) as [t|]; [|reflexivity].
    exists t. split; [reflexivity|apply same_but_cond_refl].
  - unfold emitted.
    destruct (should_emit_member c) as [[|]|e]; cbn [bind andb]; [| |discriminate].
    2:{ intros H k. exact (IH fields out fields' out' H k). }
    destruct (NiObject_add_field obj_name (fields, out) c) as [[f1 out1]|e] eqn:E1;
      cbn [bind]; [|discriminate].
    intros H k. specialize (IH f1 out1 fields' out' H k).
    destruct (NiObject_add_field_effect _ _ _ _ _ _ E1) as (n & field & Hn & Hf & Hcase).
    unfold declares. rewrite Hn.
    destruct (String.eqb_spec (convert_field_name n) k) as [<-|Hne].
    + destruct (Dict.get fields (convert_field_name n)) as [old|] eqn:Ek.
      * destruct Hcase as [-> | ->].
        -- now rewrite Ek in IH.
        -- rewrite get_set_eq in IH. destruct IH as (t' & Hg & Hs).
           exists t'. split; [exact Hg|].
           apply (same_but_cond_trans _ (set_cond old (Some (or_cond old field))));
             [|exact Hs].
           unfold same_but_cond. now cbn.
      * subst f1. rewrite get_set_eq in IH. destruct IH as (t' & Hg & Hs).
        exists field, t'. split; [exact Hf|]. split; [exact Hg|].
        destruct Hs as (S1 & S2 & S3 & S4 & S5 & S6 & S7).
        unfold keeps_decl.
        destruct (is_palette obj_name (convert_field_name n));
          cbn in S1, S2, S3, S4, S5, S6, S7;
          repeat split; try assumption; try discriminate; intros _; assumption.
    + assert (Hsame : Dict.get f1 k = Dict.get fields k).
      { destruct (Dict.get fields (convert_field_name n)) as [old|].
        - destruct Hcase as [-> | ->]; [reflexivity|].
          apply get_set_ne. congruence.
        - subst f1. apply get_set_ne. congruence. }
      now rewrite Hsame in IH.
Qed.

(** X19: in the object that [NiObject.from_xml] returns, the field stored
    under a name comes from the first emitted declaration of that name:
    it has its type, generic argument, second array length, argument and
    version range, and its first array length unless it is [palette] of
    [NiPalette].  Later declarations of the name can change the condition
    only, and a name that no emitted child declares is absent. *)
Theorem NiObject_from_xml_fields (entry : Element) (obj : NiObject)
  (out : list string) :
  NiObject_from_xml entry = Ok (obj, out) ->
  forall k,
    match first_decl (children entry) k with
    | Some x => exists t0 t, Type_from_xml x = Ok t0
                             /\ Dict.get (o_fields obj) k = Some t
                             /\ keeps_decl (o_name obj) k t0 t
    | None => Dict.get (o_fields obj) k = None
    end.
Proof.
  unfold NiObject_from_xml.
  destruct (getitem (attrib entry) "name") as [n|e]; cbn [bind]; [|discriminate].
  destruct (_convert_struct_name n) as [name|e]; cbn [bind]; [|discriminate].
  destruct (getitem (attrib entry) "inherit") as [par|e]; cbn [bind]; [|discriminate].
  destruct (for_emitted _ entry _) as [[fields out']|e] eqn:E; cbn [bind];
    [|discriminate].
  intros [= <- <-] k. cbn [o_fields o_name fst].
  exact (NiObject_fold name (children entry) [] [] fields out' E k).
Qed.

Lemma NiObject_from_xml_fields_witness :
  exists obj out t,
    NiObject_from_xml palette_entry = Ok (obj, out)
    /\ Dict.get (o_fields obj) "palette" = Some t /\ ty t = "ByteColor4".
Proof.
  destruct (NiObject_from_xml palette_entry) as [[obj out]|e] eqn:Ho;
    [|vm_compute in Ho; discriminate].
  pose proof (NiObject_from_xml_fields palette_entry obj out Ho "palette") as H.
  assert (Hf : first_decl (children palette_entry) "palette"
               = Some (<[ "cond" := "Num Entries #EQ# 256" ]>
                         (<[ "arr1" := "256" ]>
                            (<[ "type" := "ByteColor4" ]> {[ "name" := "Palette" ]}))))
    by (vm_compute; reflexivity).
  rewrite Hf in H. destruct H as (t0 & t & Ht0 & Hg & Hk).
  exists obj, out, t. split; [reflexivity|]. split; [exact Hg|].
  destruct Hk as (K1 & _). rewrite K1.
  vm_compute in Ht0. injection Ht0 as <-. reflexivity.
Defined.

(** ** The maps of bit flags, enumerations and bit fields *)

Lemma foldM_ext {A St : Type} (f g : St -> A -> result St) xs st :
  (forall s x, f s x = g s x) -> foldM f xs st = foldM g xs st.
Proof.
  intros H. revert st. induction xs as [|x xs IH]; intros st; [reflexivity|].
  cbn [foldM]. rewrite H. destruct (g st x) as [st'|e]; cbn [bind]; [apply IH|reflexivity].
Qed.

Lemma last_entry_fold {V : Type} (f : gmap string string -> result (string * V)) cs :
  forall st st',
    foldM (fun st child =>
             let* keep := should_emit_member child in
             if keep
             then (let* kv := f child in Ok (Dict.set st (fst kv) (snd kv)))
             else Ok st) cs st
    = Ok st' ->
    forall k, Dict.get st' k
              = match last_entry f cs k with
                | Some v => Some v
                | None => Dict.get st k
                end.
Proof.
  induction cs as [|c cs IH]; intros st st'; cbn [foldM bind last_entry].
  - now intros [= <-] k.
  - unfold emitted.
    destruct (should_emit_member c) as [[|]|e]; cbn [bind]; [| |discriminate].
    + destruct (f c) as [[k' v]|e]; cbn [bind fst snd]; [|discriminate].
      intros H k. rewrite (IH _ _ H k).
      destruct (last_entry f cs k); [reflexivity|].
      destruct (String.eqb_spec k' k) as [->|Hne].
      * apply get_set_eq.
      * apply get_set_ne. congruence.
    + intros H k. rewrite (IH _ _ H k). now destruct (last_entry f cs k).
Qed.

Lemma for_emitted_last {V : Type}
  (f : gmap string string -> result (string * V))
  (body : Dict.t V -> gmap string string -> result (Dict.t V)) entry st st' :
  (forall s c, body s c = let* kv := f c in Ok (Dict.set s (fst kv) (snd kv))) ->
  for_emitted body entry st = Ok st' ->
  forall k, Dict.get st' k
            = match last_entry f (children entry) k with
              | Some v => Some v
              | None => Dict.get st k
              end.
Proof.
  intros Hbody E. unfold for_emitted in E.
  rewrite (foldM_ext _
             (fun s child =>
                let* keep := should_emit_member child in
                if keep
                then (let* kv := f child in Ok (Dict.set s (fst kv) (snd kv)))
                else Ok s)) in E.
  - exact (last_entry_fold f (children entry) st st' E).
  - intros s c. destruct (should_emit_member c) as [[|]|e]; cbn [bind];
      [apply Hbody|reflexivity|reflexivity].
Qed.

(** X20: [BitFlags.from_xml], [Enum.from_xml] and [BitField.from_xml] let the
    last declaration win: what is stored under a name is the value of the
    last emitted child that declares it (the bit read by [int], the value
    read in base 16 when it starts with [0x] and in base 10 otherwise, or
    the type, position, mask and default of the field), and a name that no
    emitted child declares is absent. *)
Theorem last_declaration_wins (entry : Element) (prefixes : gmap string string) :
  (forall bf, BitFlags_from_xml entry = Ok bf ->
     forall k, Dict.get (flags bf) k
               = last_entry (flag_entry entry) (children entry) k)
  /\ (forall en, Enum_from_xml entry = Ok en ->
        forall k, Dict.get (options en) k
                  = last_entry (option_entry entry) (children entry) k)
  /\ (forall bf, BitField_from_xml entry prefixes = Ok bf ->
        forall k, Dict.get (bfd_fields bf) k
                  = last_entry (bitfield_entry prefixes) (children entry) k).
Proof.
  split; [|split].
  - intros bf. unfold BitFlags_from_xml.
    destruct (getitem (attrib entry) "name") as [n|e]; cbn [bind]; [|discriminate].
    destruct (getitem (attrib entry) "storage") as [s|e]; cbn [bind]; [|discriminate].
    destruct (_convert_type_str s) as [s'|e]; cbn [bind]; [|discriminate].
    match goal with
    | |- context [for_emitted ?body entry []] =>
        destruct (for_emitted body entry []) as [fl|e] eqn:E
    end; cbn [bind]; [|discriminate].
    intros [= <-] k. cbn [flags].
    transitivity (match last_entry (flag_entry entry) (children entry) k with
                  | Some v => Some v
                  | None => Dict.get [] k
                  end); [|now destruct (last_entry _ _ k)].
    eapply (for_emitted_last (flag_entry entry)); [|exact E].
    intros st c. unfold flag_entry.
    destruct (getitem c "bit") as [b|e]; cbn [bind]; [|reflexivity].
    destruct (PyStr.int b) as [bit|e]; cbn [bind]; [|reflexivity].
    destruct (getitem c "name") as [nm|e]; cbn [bind]; reflexivity.
  - intros en. unfold Enum_from_xml.
    destruct (getitem (attrib entry) "name") as [n|e]; cbn [bind]; [|discriminate].
    destruct (getitem (attrib entry) "storage") as [s|e]; cbn [bind]; [|discriminate].
    destruct (_convert_type_str s) as [s'|e]; cbn [bind]; [|discriminate].
    match goal with
    | |- context [for_emitted ?body entry []] =>
        destruct (for_emitted body entry []) as [fl|e] eqn:E
    end; cbn [bind]; [|discriminate].
    intros [= <-] k. cbn [options].
    transitivity (match last_entry (option_entry entry) (children entry) k with
                  | Some v => Some v
                  | None => Dict.get [] k
                  end); [|now destruct (last_entry _ _ k)].
    eapply (for_emitted_last (option_entry entry)); [|exact E].
    intros st c. unfold option_entry.
    destruct (getitem c "value") as [v|e]; cbn [bind]; [|reflexivity].
    destruct (if PyStr.startswith "0x" v then PyStr.int16 v else PyStr.int v)
      as [z|e]; cbn [bind]; [|reflexivity].
    destruct (getitem c "name") as [nm|e]; cbn [bind]; reflexivity.
  - intros bf. unfold BitField_from_xml.
    destruct (getitem (attrib entry) "name") as [n|e]; cbn [bind]; [|discriminate].
    destruct (getitem (attrib entry) "storage") as [s|e]; cbn [bind]; [|discriminate].
    destruct (_convert_type_str s) as [s'|e]; cbn [bind]; [|discriminate].
    match goal with
    | |- context [for_emitted ?body entry []] =>
        destruct (for_emitted body entry []) as [fl|e] eqn:E
    end; cbn [bind]; [|discriminate].
    intros [= <-] k. cbn [bfd_fields].
    transitivity (match last_entry (bitfield_entry prefixes) (children entry) k with
                  | Some v => Some v
                  | None => Dict.get [] k
                  end); [|now destruct (last_entry _ _ k)].
    eapply (for_emitted_last (bitfield_entry prefixes)); [|exact E].
    intros st c. unfold bitfield_entry.
    destruct (getitem c "pos") as [p|e]; cbn [bind]; [|reflexivity].
    destruct (getitem c "mask") as [m|e]; cbn [bind]; [|reflexivity].
    destruct (getitem c "name") as [nm|e]; cbn [bind]; [|reflexivity].
    destruct (Type_from_xml c) as [t|e]; cbn [bind]; reflexivity.
Qed.

Lemma last_declaration_wins_witness :
  exists en,
    Enum_from_xml
      (mkElement (<[ "storage" := "uint" ]> {[ "name" := "Mode" ]}) None
         [ <[ "value" := "1" ]> {[ "name" := "On" ]};
           <[ "value" := "0x10" ]> {[ "name" := "On" ]} ]) = Ok en
    /\ Dict.get (options en) "On" = Some 16%Z.
Proof.
  set (entry := mkElement (<[ "storage" := "uint" ]> {[ "name" := "Mode" ]}) None
         [ <[ "value" := "1" ]> {[ "name" := "On" ]};
           <[ "value" := "0x10" ]> {[ "name" := "On" ]} ]).
  destruct (Enum_from_xml entry) as [en|e] eqn:He; [|vm_compute in He; discriminate].
  exists en. split; [reflexivity|].
  destruct (last_declaration_wins entry ∅) as (_ & H & _).
  rewrite (H en He "On"). vm_compute. reflexivity.
Defined.

(** ** Parenthesized expressions over two plain operands *)

Section Parenthesized.

Lemma word_not_close c : PyStr.is_word c = true -> Ascii.eqb ")" c = false.
Proof.
  intros H. destruct (Ascii.eqb_spec ")" c) as [<-|_]; [|reflexivity].
  vm_compute in H. discriminate.
Qed.

Lemma search_suffix r s m :
  search r s = Some m ->
  exists pre t, s = pre ++ t /\ match_here r t = Some m.
Proof.
  induction s as [|c s IH]; cbn [search].
  - destruct (match_here r EmptyString) eqn:E; [|discriminate].
    intros [= <-]. now exists EmptyString, EmptyString.
  - destruct (match_here r (String c s)) eqn:E.
    + intros [= <-]. now exists EmptyString, (String c s).
    + intros H. destruct (IH H) as (pre & t & -> & Hm).
      now exists (String c pre), t.
Qed.

Lemma search_here r s m : match_here r s = Some m -> search r s = Some m.
Proof. intros H. destruct s; cbn [search]; now rewrite H. Qed.

(** A text whose only closing parenthesis is its last character has no
    closing parenthesis before a blank. *)
Lemma close_is_last body : forall L R,
  PyStr.all_chars (fun c => negb (Ascii.eqb ")" c)) body = true ->
  body ++ String ")" EmptyString <> L ++ String ")" (String " " R).
Proof.
  induction body as [|c body IH]; intros L R Hb E.
  - destruct L as [|c' L]; [discriminate E|].
    rewrite append_nil, append_cons in E. injection E as _ E.
    destruct L; discriminate E.
  - cbn [PyStr.all_chars] in Hb. apply andb_true_iff in Hb. destruct Hb as [Hc Hb].
    rewrite append_cons in E. destruct L as [|c' L].
    + rewrite append_nil in E. injection E as -> _. discriminate Hc.
    + rewrite append_cons in E. injection E as _ E. exact (IH L R Hb E).
Qed.

(** The first pattern needs a closing parenthesis before a blank. *)
Lemma RE_1_needs_close body :
  PyStr.all_chars (fun c => negb (Ascii.eqb ")" c)) body = true ->
  search EXPR_RE_1 (body ++ String ")" EmptyString) = None.
Proof.
  intros Hb. destruct (search EXPR_RE_1 _) as [m|] eqn:E; [|reflexivity].
  exfalso. apply search_suffix in E. destruct E as (pre & t & Hs & Hm).
  unfold match_here in Hm. apply run_sound in Hm.
  destruct Hm as (s' & caps' & H & _). unfold EXPR_RE_1 in H.
  cbn [cat reads] in H.
  destruct H as (s1 & c1 & (c0 & ((x1 & -> & _) & _) & _) & s2 & c2 & [-> _]
                 & s3 & c3 & (c2' & ((x2 & -> & _) & _) & _)
                 & s4 & c4 & [-> _] & s5 & c5 & [-> _] & _).
  assert (Heq : pre ++ x1 ++ String "(" (x2 ++ String ")" (String " " s5))
                = (pre ++ x1 ++ String "(" x2) ++ String ")" (String " " s5)).
  { now rewrite !append_assoc, append_cons. }
  rewrite Heq in Hs.
  exact (close_is_last body _ s5 Hb Hs).
Qed.

Lemma op_fails_on_word n r c rest caps k :
  PyStr.is_word c = true ->
  run (Seq (Group n OP) (Seq (Chr " ") r)) (String c rest) caps k = None.
Proof.
  intros Hc. unfold OP. cbn [cat run].
  rewrite (word_not_W c Hc). cbn [star]. rewrite (word_not_W c Hc).
  now rewrite (word_not_blank c Hc).
Qed.

Lemma close_tail b caps :
  PyStr.all_chars PyStr.is_word b = true ->
  run (Seq (Chr " ") (Seq (Group 4 (Star dot)) (Chr ")")))
      (String " " (b ++ String ")" EmptyString)) caps
      (fun _ caps' => Some caps')
  = Some ((4%nat, b) :: caps).
Proof.
  intros Hb. cbn [run]. change (Ascii.eqb " " " ") with true. cbv iota.
  apply star_app; [exact (all_chars_impl _ _ b word_dot Hb)|].
  rewrite (star_cons_true dot ")" _ _ eq_refl). cbn [star].
  change (Ascii.eqb ")" ")") with true. cbv iota. now rewrite consumed_app.
Qed.

(** The steps of [run] on a sequence, one rule each. *)
Lemma group_star n R s caps k :
  run (Seq (Group n (Star dot)) R) s caps k
  = star dot s (fun s' => run R s' ((n, consumed s s') :: caps) k).
Proof. reflexivity. Qed.

Lemma group_op n R s caps k :
  run (Seq (Group n OP) R) s caps k
  = run OP s caps (fun s' caps' => run R s' ((n, consumed s s') :: caps') k).
Proof. reflexivity. Qed.

Lemma chr_step c R t caps k :
  run (Seq (Chr c) R) (String c t) caps k = run R t caps k.
Proof. cbn [run]. now rewrite Ascii.eqb_refl. Qed.

Lemma chr_fail c c' R t caps k :
  Ascii.eqb c c' = false -> run (Seq (Chr c) R) (String c' t) caps k = None.
Proof. intros H. cbn [run]. now rewrite H. Qed.

Lemma chr_nil c R caps k : run (Seq (Chr c) R) EmptyString caps k = None.
Proof. reflexivity. Qed.

Lemma EXPR_RE_2_unfold :
  EXPR_RE_2
  = Seq (Group 1 (Star dot))
      (Seq (Chr "(")
         (Seq (Group 2 (Star dot))
            (Seq (Chr " ")
               (Seq (Group 3 OP)
                  (Seq (Chr " ") (Seq (Group 4 (Star dot)) (Chr ")"))))))).
Proof. reflexivity. Qed.

Lemma not_open_word c : PyStr.is_word c = true -> negb (Ascii.eqb "(" c) = true.
Proof. intros H. now rewrite (word_not_paren c H). Qed.

Lemma not_blank_word c : PyStr.is_word c = true -> negb (Ascii.eqb " " c) = true.
Proof. intros H. now rewrite (word_not_blank c H). Qed.

Lemma op_no_open op :
  op_shape op = true ->
  PyStr.all_chars (fun c => negb (Ascii.eqb "(" c)) op = true.
Proof.
  apply op_shape_chars; [|exact not_open_word].
  intros c Hc. now rewrite (sym_not_paren c Hc).
Qed.

Lemma op_no_blank op :
  op_shape op = true ->
  PyStr.all_chars (fun c => negb (Ascii.eqb " " c)) op = true.
Proof.
  apply op_shape_chars; [|exact not_blank_word].
  intros c Hc. now rewrite (sym_not_blank c Hc).
Qed.

(** The second pattern on [u(a op b)]: the groups are the prefix, the two
    operands and the operator. *)
Lemma match_single_paren u a op b :
  PyStr.all_chars dot u = true ->
  PyStr.all_chars PyStr.is_word a = true ->
  ident b ->
  op_shape op = true ->
  match_here EXPR_RE_2
    (u ++ String "(" (a ++ String " " (op ++ String " " (b ++ String ")" EmptyString))))
  = Some [(4%nat, b); (3%nat, op); (2%nat, a); (1%nat, u)].
Proof.
  intros Hu Ha [Hbne Hb] Hop. unfold match_here. rewrite EXPR_RE_2_unfold.
  destruct b as [|c' b'] eqn:Eb; [contradiction|]. rewrite <- Eb in *.
  assert (Hc' : PyStr.is_word c' = true).
  { rewrite Eb in Hb. cbn [PyStr.all_chars] in Hb. now apply andb_true_iff in Hb. }
  assert (Hbc : b ++ String ")" EmptyString = String c' (b' ++ String ")" EmptyString)).
  { now rewrite Eb, append_cons. }
  set (tl := b ++ String ")" EmptyString) in *.
  set (t := op ++ String " " tl).
  set (inner := a ++ String " " t).
  set (s := u ++ String "(" inner).
  rewrite group_star.
  set (k1 := fun s' : string => _).
  assert (Hk1 : forall c x, negb (Ascii.eqb "(" c) = true -> k1 (String c x) = None).
  { intros c x Hc. unfold k1. apply chr_fail. now apply negb_true_iff. }
  assert (Htl_open : PyStr.all_chars (fun c => negb (Ascii.eqb "(" c)) tl = true).
  { unfold tl. rewrite all_chars_app.
    now rewrite (all_chars_impl _ _ b not_open_word Hb). }
  assert (Htl_blank : PyStr.all_chars (fun c => negb (Ascii.eqb " " c)) tl = true).
  { unfold tl. rewrite all_chars_app.
    now rewrite (all_chars_impl _ _ b not_blank_word Hb). }
  unfold s at 1. apply star_app; [exact Hu|].
  rewrite (star_cons_true dot "(" _ _ eq_refl).
  rewrite (star_none_all dot (fun c => negb (Ascii.eqb "(" c)) inner k1 Hk1);
    [|reflexivity|].
  2:{ unfold inner, t. rewrite !all_chars_app. cbn [PyStr.all_chars].
      rewrite all_chars_app. cbn [PyStr.all_chars].
      now rewrite (all_chars_impl _ _ a not_open_word Ha), (op_no_open op Hop), Htl_open. }
  unfold k1. rewrite chr_step. unfold s. rewrite consumed_app.
  rewrite group_star.
  set (k2 := fun s' : string => _).
  assert (Hk2 : forall c x, negb (Ascii.eqb " " c) = true -> k2 (String c x) = None).
  { intros c x Hc. unfold k2. apply chr_fail. now apply negb_true_iff. }
  unfold inner at 1. apply star_app; [exact (all_chars_impl _ _ a word_dot Ha)|].
  rewrite (star_cons_true dot " " _ _ eq_refl). unfold t at 1.
  rewrite (star_none_app dot (fun c => negb (Ascii.eqb " " c)) op (String " " tl) k2 Hk2
             (op_no_blank op Hop)).
  2:{ rewrite (star_cons_true dot " " _ _ eq_refl).
      rewrite (star_none_all dot (fun c => negb (Ascii.eqb " " c)) tl k2 Hk2 eq_refl Htl_blank).
      unfold k2. rewrite chr_step, Hbc. now apply op_fails_on_word. }
  unfold k2. rewrite chr_step. unfold inner. rewrite consumed_app.
  rewrite group_op.
  set (k3 := fun (s' : string) (caps' : captures) => _).
  set (res := [(4%nat, b); (3%nat, op); (2%nat, a); (1%nat, u)]).
  assert (Hk3 : k3 (String " " tl) [(2%nat, a); (1%nat, u)] = Some res).
  { unfold k3, tl. rewrite (close_tail b _ Hb). unfold t, tl. now rewrite consumed_app. }
  assert (Hk3n : k3 tl [(2%nat, a); (1%nat, u)] = None).
  { unfold k3. rewrite Hbc. apply chr_fail. now apply word_not_blank. }
  destruct (op_shape_inv op Hop)
    as [(c & Hopeq & Hc)|(c1 & wd & c2 & Hopeq & H1 & Hwd & H2)].
  - unfold t at 1. rewrite Hopeq, append_cons, append_nil.
    rewrite Hbc in Hk3, Hk3n |- *.
    apply op_one; [now apply sym_W|exact Hc'|exact Hk3n|exact Hk3].
  - unfold t at 1. rewrite Hopeq, append_cons, append_assoc, append_cons, append_nil.
    apply op_two; [now apply sym_W|exact Hwd|now apply sym_W|exact Hk3].
Qed.

Lemma EXPR_RE_1_unfold :
  EXPR_RE_1
  = Seq (Group 1 (Star dot))
      (Seq (Chr "(")
         (Seq (Group 2 (Star dot))
            (Seq (Chr ")")
               (Seq (Chr " ")
                  (Seq (Group 3 OP)
                     (Seq (Chr " ")
                        (Seq (Chr "(")
                           (Seq (Group 4 (Star dot)) (Chr ")"))))))))).
Proof. reflexivity. Qed.

Lemma close_group b caps :
  PyStr.all_chars PyStr.is_word b = true ->
  run (Seq (Group 4 (Star dot)) (Chr ")")) (b ++ String ")" EmptyString) caps
      (fun _ caps' => Some caps')
  = Some ((4%nat, b) :: caps).
Proof.
  intros Hb. cbn [run].
  apply star_app; [exact (all_chars_impl _ _ b word_dot Hb)|].
  rewrite (star_cons_true dot ")" _ _ eq_refl). cbn [star].
  change (Ascii.eqb ")" ")") with true. cbv iota. now rewrite consumed_app.
Qed.

(** One operator character before a blank and an opening parenthesis is
    read by the second alternative, which first runs over the blank and the
    parenthesis and gives them back. *)
Lemma op_one_paren c c' x caps k r :
  W c = true -> PyStr.is_word c' = true ->
  k (String c' x) caps = None ->
  k (String "(" (String c' x)) caps = None ->
  k (String " " (String "(" (String c' x))) caps = Some r ->
  run OP (String c (String " " (String "(" (String c' x)))) caps k = Some r.
Proof.
  intros Hc Hc' H1 H2 H3. unfold OP. cbn [cat run]. rewrite Hc.
  rewrite star_cons_false by reflexivity.
  change (W " ") with true. cbv iota. rewrite H2.
  rewrite (star_cons_true W c _ _ Hc).
  rewrite (star_cons_true W " " _ _ eq_refl).
  rewrite (star_cons_true W "(" _ _ eq_refl).
  rewrite star_cons_false by now apply word_not_W.
  now rewrite H1, H2, H3.
Qed.

Lemma not_close_word c : PyStr.is_word c = true -> negb (Ascii.eqb ")" c) = true.
Proof. intros H. now rewrite (word_not_close c H). Qed.

(** The first pattern on [u(a) op (b)]. *)
Lemma match_double_paren u a op b :
  PyStr.all_chars dot u = true ->
  PyStr.all_chars PyStr.is_word a = true ->
  ident b ->
  op_shape op = true ->
  PyStr.all_chars (fun c => negb (Ascii.eqb ")" c)) op = true ->
  match_here EXPR_RE_1
    (u ++ String "("
       (a ++ String ")" (String " "
          (op ++ String " " (String "(" (b ++ String ")" EmptyString))))))
  = Some [(4%nat, b); (3%nat, op); (2%nat, a); (1%nat, u)].
Proof.
  intros Hu Ha [Hbne Hb] Hop Hcl. unfold match_here. rewrite EXPR_RE_1_unfold.
  destruct b as [|c' b'] eqn:Eb; [contradiction|]. rewrite <- Eb in *.
  assert (Hc' : PyStr.is_word c' = true).
  { rewrite Eb in Hb. cbn [PyStr.all_chars] in Hb. now apply andb_true_iff in Hb. }
  assert (Hbc : b ++ String ")" EmptyString = String c' (b' ++ String ")" EmptyString)).
  { now rewrite Eb, append_cons. }
  set (tl := b ++ String ")" EmptyString) in *.
  set (t := op ++ String " " (String "(" tl)).
  set (z := String ")" (String " " t)).
  set (rest1 := a ++ z).
  set (s := u ++ String "(" rest1).
  assert (Htl_open : PyStr.all_chars (fun c => negb (Ascii.eqb "(" c)) tl = true).
  { unfold tl. rewrite all_chars_app.
    now rewrite (all_chars_impl _ _ b not_open_word Hb). }
  rewrite group_star.
  set (k1 := fun s' : string => _).
  assert (Hk1 : forall c x, negb (Ascii.eqb "(" c) = true -> k1 (String c x) = None).
  { intros c x Hc. unfold k1. apply chr_fail. now apply negb_true_iff. }
  unfold s at 1. apply star_app; [exact Hu|].
  rewrite (star_cons_true dot "(" _ _ eq_refl).
  assert (Hnone1 : star dot rest1 k1 = None).
  { assert (Hre : rest1 = (a ++ String ")" (String " " (op ++ String " " EmptyString)))
                          ++ String "(" tl).
    { unfold rest1, z, t. now rewrite !append_assoc, !append_cons, append_assoc. }
    rewrite Hre.
    apply (star_none_app dot (fun c => negb (Ascii.eqb "(" c)) _ _ k1 Hk1).
    - rewrite !all_chars_app. cbn [PyStr.all_chars].
      rewrite all_chars_app. cbn [PyStr.all_chars].
      now rewrite (all_chars_impl _ _ a not_open_word Ha), (op_no_open op Hop).
    - rewrite (star_cons_true dot "(" _ _ eq_refl).
      rewrite (star_none_all dot (fun c => negb (Ascii.eqb "(" c)) tl k1 Hk1 eq_refl Htl_open).
      unfold k1. rewrite chr_step, group_star. unfold tl at 1.
      apply (star_none_app dot (fun c => negb (Ascii.eqb ")" c))).
      + intros c x Hc. apply chr_fail. now apply negb_true_iff.
      + exact (all_chars_impl _ _ b not_close_word Hb).
      + rewrite (star_cons_true dot ")" _ _ eq_refl). cbn [star].
        rewrite chr_nil, chr_step. apply chr_nil. }
  rewrite Hnone1.
  unfold k1. rewrite chr_step. unfold s. rewrite consumed_app.
  rewrite group_star.
  set (k2 := fun s' : string => _).
  assert (Hk2 : forall c x, negb (Ascii.eqb ")" c) = true -> k2 (String c x) = None).
  { intros c x Hc. unfold k2. apply chr_fail. now apply negb_true_iff. }
  unfold rest1 at 1. apply star_app; [exact (all_chars_impl _ _ a word_dot Ha)|].
  unfold z at 1. rewrite (star_cons_true dot ")" _ _ eq_refl).
  assert (Hnone2 : star dot (String " " t) k2 = None).
  { assert (Hre : String " " t
                  = String " " (op ++ String " " (String "(" b)) ++ String ")" EmptyString).
    { unfold t, tl. now rewrite append_cons, !append_assoc, !append_cons. }
    rewrite Hre.
    apply (star_none_app dot (fun c => negb (Ascii.eqb ")" c)) _ _ k2 Hk2).
    - cbn [PyStr.all_chars]. rewrite all_chars_app. cbn [PyStr.all_chars].
      now rewrite Hcl, (all_chars_impl _ _ b not_close_word Hb).
    - rewrite (star_cons_true dot ")" _ _ eq_refl). cbn [star].
      unfold k2. rewrite chr_nil, chr_step. apply chr_nil. }
  rewrite Hnone2.
  unfold k2, z. rewrite !chr_step. unfold rest1. rewrite consumed_app.
  rewrite group_op.
  set (k3 := fun (s' : string) (caps' : captures) => _).
  set (res := [(4%nat, b); (3%nat, op); (2%nat, a); (1%nat, u)]).
  assert (Hk3 : k3 (String " " (String "(" tl)) [(2%nat, a); (1%nat, u)] = Some res).
  { unfold k3. rewrite !chr_step. unfold tl. rewrite (close_group b _ Hb).
    unfold t, tl. now rewrite consumed_app. }
  assert (Hk3a : k3 tl [(2%nat, a); (1%nat, u)] = None).
  { unfold k3. rewrite Hbc. apply chr_fail. now apply word_not_blank. }
  assert (Hk3b : k3 (String "(" tl) [(2%nat, a); (1%nat, u)] = None).
  { unfold k3. now apply chr_fail. }
  destruct (op_shape_inv op Hop)
    as [(c & Hopeq & Hc)|(c1 & wd & c2 & Hopeq & H1 & Hwd & H2)].
  - unfold t at 1. rewrite Hopeq, append_cons, append_nil.
    rewrite Hbc in Hk3, Hk3a, Hk3b |- *.
    apply op_one_paren; [now apply sym_W|exact Hc'|exact Hk3a|exact Hk3b|exact Hk3].
  - unfold t at 1. rewrite Hopeq, append_cons, append_assoc, append_cons, append_nil.
    apply op_two; [now apply sym_W|exact Hwd|now apply sym_W|exact Hk3].
Qed.

Lemma operators_spellings tok op mid :
  In (tok, op) OPERATORS -> mid = tok \/ mid = op ->
  String.eqb (PyStr.rstrip (PyStr.lstrip mid)) "|" = String.eqb mid "|"
  /\ operators_get OPERATORS mid = op
  /\ op_shape mid = true
  /\ PyStr.all_chars (fun c => negb (Ascii.eqb ")" c)) mid = true.
Proof.
  intros H Hmid. unfold OPERATORS in H.
  repeat (destruct H as [[= <- <-]|H];
          [destruct Hmid as [-> | ->]; vm_compute; repeat split; reflexivity|]).
  destruct H.
Qed.

Lemma parse_four_groups s u a mid b :
  is_compound s = true ->
  first_shape s
  = Some ([(4%nat, b); (3%nat, mid); (2%nat, a); (1%nat, u)], false, (2, 3, 4)%nat) ->
  ident a -> ident b ->
  parse_expression s
  = if String.eqb (PyStr.rstrip (PyStr.lstrip mid)) "|" then Ok (leaf a)
    else Ok (assembled u (leaf a) (operators_get OPERATORS mid) (leaf b)).
Proof.
  intros Hc Hfs Ha Hb. unfold parse_expression.
  destruct (String.length s) as [|n] eqn:E.
  { destruct s; [discriminate Hc|discriminate E]. }
  remember (S n) as fuel eqn:Efuel.
  cbn [parse_expression_fuel]. rewrite Hc, Hfs.
  cbn [get_group group Nat.eqb bind]. subst fuel.
  rewrite (parse_leaf n a Ha). cbn [bind]. rewrite (wrap_leaf a Ha).
  destruct (String.eqb (PyStr.rstrip (PyStr.lstrip mid)) "|"); [reflexivity|].
  rewrite (parse_leaf n b Hb). cbn [bind]. rewrite (wrap_leaf b Hb).
  unfold assembled, binary. now destruct u.
Qed.

Lemma contains_open u x : PyStr.contains "(" (u ++ String "(" x) = true.
Proof. apply contains_app_r, contains_here. reflexivity. Qed.

(** X21: a binary expression over two plain operands inside one pair of
    parentheses, after any prefix [u] without a newline or a closing
    parenthesis.  [u(a op b)] is parsed by the second pattern to the two
    leaves joined by the native spelling of the operator, inside [u(...)]
    when there is a prefix and bare when there is none; with the native [|]
    the left leaf alone is returned and the prefix is dropped. *)
Theorem parse_single_paren (tok op mid a b u : string) :
  In (tok, op) OPERATORS -> mid = tok \/ mid = op ->
  ident a -> ident b -> prefix_ok u ->
  parse_expression (u ++ "(" ++ binary a mid b ++ ")")
  = Ok (if String.eqb mid "|" then leaf a
        else assembled u (leaf a) op (leaf b)).
Proof.
  intros Hin Hmid Ha Hb Hu.
  destruct (operators_spellings tok op mid Hin Hmid) as (Hbar & Hget & Hop & Hcl).
  assert (Hs : u ++ "(" ++ binary a mid b ++ ")"
               = u ++ String "(" (a ++ String " " (mid ++ String " " (b ++ String ")" EmptyString)))).
  { unfold binary. now rewrite append_cons, append_nil, !append_assoc, !append_cons, !append_nil. }
  assert (Hbody : u ++ "(" ++ binary a mid b ++ ")"
                  = (u ++ String "(" (a ++ String " " (mid ++ String " " b)))
                    ++ String ")" EmptyString).
  { rewrite Hs. repeat first [rewrite append_assoc | rewrite append_cons]. reflexivity. }
  assert (Hdot : PyStr.all_chars dot u = true).
  { apply (all_chars_impl _ dot u) in Hu; [exact Hu|].
    intros c Hc. now apply andb_true_iff in Hc. }
  assert (Hcu : PyStr.all_chars (fun c => negb (Ascii.eqb ")" c)) u = true).
  { apply (all_chars_impl _ (fun c => negb (Ascii.eqb ")" c)) u) in Hu; [exact Hu|].
    intros c Hc. now apply andb_true_iff in Hc. }
  rewrite (parse_four_groups _ u a mid b); [now rewrite Hbar, Hget; destruct (String.eqb mid "|")| | |exact Ha|exact Hb].
  - unfold is_compound. rewrite Hs, contains_open. reflexivity.
  - unfold first_shape. rewrite Hbody at 1.
    rewrite RE_1_needs_close.
    + rewrite Hs. rewrite (search_here _ _ _ (match_single_paren u a mid b Hdot (proj2 Ha) Hb Hop)).
      reflexivity.
    + rewrite all_chars_app. cbn [PyStr.all_chars].
      rewrite !all_chars_app. cbn [PyStr.all_chars]. rewrite all_chars_app.
      cbn [PyStr.all_chars].
      now rewrite Hcu, Hcl, (all_chars_impl _ _ a not_close_word (proj2 Ha)),
        (all_chars_impl _ _ b not_close_word (proj2 Hb)).
Qed.

Lemma parse_single_paren_witness :
  parse_expression "!(fizz #ADD# buzz)" = Ok "!(fizz + buzz)"
  /\ parse_expression "(fizz | buzz)" = Ok "fizz".
Proof.
  split.
  - apply (parse_single_paren "#ADD#" "+" "#ADD#" "fizz" "buzz" "!").
    + left. reflexivity.
    + left. reflexivity.
    + split; [discriminate|reflexivity].
    + split; [discriminate|reflexivity].
    + reflexivity.
  - apply (parse_single_paren "#BITOR#" "|" "|" "fizz" "buzz" "").
    + vm_compute. tauto.
    + right. reflexivity.
    + split; [discriminate|reflexivity].
    + split; [discriminate|reflexivity].
    + reflexivity.
Defined.

(** X22: a binary expression whose two plain operands are each in
    parentheses, after any prefix [u] without a newline.  [u(a) op (b)] is
    parsed by the first pattern: the parentheses around the operands are
    dropped, and the result is that of [u(a op b)]. *)
Theorem parse_double_paren (tok op mid a b u : string) :
  In (tok, op) OPERATORS -> mid = tok \/ mid = op ->
  ident a -> ident b -> PyStr.all_chars dot u = true ->
  parse_expression (u ++ "(" ++ a ++ ") " ++ mid ++ " (" ++ b ++ ")")
  = Ok (if String.eqb mid "|" then leaf a
        else assembled u (leaf a) op (leaf b)).
Proof.
  intros Hin Hmid Ha Hb Hu.
  destruct (operators_spellings tok op mid Hin Hmid) as (Hbar & Hget & Hop & Hcl).
  assert (Hs : u ++ "(" ++ a ++ ") " ++ mid ++ " (" ++ b ++ ")"
               = u ++ String "("
                   (a ++ String ")" (String " "
                      (mid ++ String " " (String "(" (b ++ String ")" EmptyString)))))).
  { now rewrite !append_cons, !append_nil. }
  rewrite (parse_four_groups _ u a mid b); [now rewrite Hbar, Hget; destruct (String.eqb mid "|")| | |exact Ha|exact Hb].
  - unfold is_compound. rewrite Hs, contains_open. reflexivity.
  - unfold first_shape. rewrite Hs.
    rewrite (search_here _ _ _ (match_double_paren u a mid b Hu (proj2 Ha) Hb Hop Hcl)).
    reflexivity.
Qed.

Lemma parse_double_paren_witness :
  parse_expression "(fizz) #ADD# (buzz)" = Ok "fizz + buzz".
Proof.
  apply (parse_double_paren "#ADD#" "+" "#ADD#" "fizz" "buzz" "").
  - left. reflexivity.
  - left. reflexivity.
  - split; [discriminate|reflexivity].
  - split; [discriminate|reflexivity].
  - reflexivity.
Defined.

End Parenthesized.

(** ** Documentation blocks and variant names *)

Lemma fold_doc ls acc :
  fold_left (fun acc line => acc ++ "/// " ++ line ++ String "010" EmptyString) ls acc
  = acc ++ fold_right (fun line r => "/// " ++ line ++ String "010" r) EmptyString ls.
Proof.
  revert acc. induction ls as [|l ls IH]; intros acc; cbn [fold_left fold_right].
  - now rewrite append_empty_r.
  - rewrite IH. repeat first [rewrite append_assoc | rewrite append_cons | rewrite append_nil].
    reflexivity.
Qed.

Lemma splitlines_line x rest :
  PyStr.all_chars (fun c => negb (is_linebreak c)) x = true ->
  splitlines_from false (x ++ String "010" rest) = x :: splitlines_from false rest.
Proof.
  induction x as [|c x IH]; intros Hx.
  - rewrite append_nil. reflexivity.
  - cbn [PyStr.all_chars] in Hx. apply andb_true_iff in Hx. destruct Hx as [Hc Hx].
    apply negb_true_iff in Hc. rewrite append_cons.
    cbn [splitlines_from andb]. rewrite Hc, (IH Hx). reflexivity.
Qed.

Lemma splitlines_block ls :
  Forall (fun l => PyStr.all_chars (fun c => negb (is_linebreak c)) l = true) ls ->
  splitlines_from false
    (fold_right (fun line r => "/// " ++ line ++ String "010" r) EmptyString ls)
  = map (fun l => "/// " ++ l) ls.
Proof.
  induction 1 as [|l ls Hl _ IH]; [reflexivity|].
  cbn [fold_right map]. rewrite <- append_assoc, splitlines_line, IH; [reflexivity|].
  rewrite all_chars_app, Hl. reflexivity.
Qed.

Lemma splitlines_no_break b s :
  Forall (fun l => PyStr.all_chars (fun c => negb (is_linebreak c)) l = true)
         (splitlines_from b s).
Proof.
  revert b. induction s as [|c s IH]; intros b; [constructor|].
  cbn [splitlines_from].
  destruct (b && Ascii.eqb c "010"); [apply IH|].
  destruct (is_linebreak c) eqn:Ec.
  - constructor; [reflexivity|apply IH].
  - specialize (IH false). destruct (splitlines_from false s) as [|l ls].
    + constructor; [|constructor]. cbn [PyStr.all_chars]. now rewrite Ec.
    + inversion IH as [|? ? Hl Hls]; subst. constructor; [|exact Hls].
      cbn [PyStr.all_chars]. now rewrite Ec, Hl.
Qed.

Lemma lstrip_with_all q p s :
  PyStr.all_chars q s = true -> PyStr.all_chars q (PyStr.lstrip_with p s) = true.
Proof.
  induction s as [|c s IH]; [reflexivity|]. intros H. cbn [PyStr.lstrip_with].
  destruct (p c); [|exact H].
  cbn [PyStr.all_chars] in H. apply andb_true_iff in H. now apply IH.
Qed.

Lemma rstrip_with_all q p s :
  PyStr.all_chars q s = true -> PyStr.all_chars q (PyStr.rstrip_with p s) = true.
Proof.
  induction s as [|c s IH]; [reflexivity|]. intros H.
  cbn [PyStr.all_chars] in H. apply andb_true_iff in H. destruct H as [Hc Hs].
  specialize (IH Hs). cbn [PyStr.rstrip_with].
  destruct (PyStr.rstrip_with p s) as [|c' r].
  - destruct (p c); [reflexivity|]. cbn [PyStr.all_chars]. now rewrite Hc.
  - cbn [PyStr.all_chars] in *. now rewrite Hc, IH.
Qed.

(** X23: the documentation block of a text has exactly one [///] line for
    each line of the stripped text, holding that line without its
    surrounding blanks: splitting the block into lines again gives the
    stripped lines of the text, each after [/// ].  No line of the text can
    end up outside a comment. *)
Theorem _format_doc_lines (d : string) :
  splitlines (_format_doc (Some d))
  = map (fun l => "/// " ++ PyStr.rstrip (PyStr.lstrip l))
        (splitlines (PyStr.strip d)).
Proof.
  destruct d as [|c d]; [reflexivity|].
  unfold _format_doc. rewrite fold_doc, append_nil. unfold splitlines.
  rewrite splitlines_block.
  - now rewrite map_map.
  - generalize (splitlines_no_break false (PyStr.strip (String c d))).
    induction 1 as [|l ls Hl _ IH]; cbn [map]; constructor; [|exact IH].
    apply rstrip_with_all, lstrip_with_all, Hl.
Qed.

(** X24: a variant name holds no blank and no colon, whatever the name
    of the XML entry was. *)
Theorem _convert_variant_name_clean (name : string) :
  PyStr.contains " " (_convert_variant_name name) = false
  /\ PyStr.contains ":" (_convert_variant_name name) = false.
Proof.
  unfold _convert_variant_name. split; apply contains_absent'.
  - apply replace_keeps; [reflexivity|]. now apply replace_clears.
  - now apply replace_clears.
Qed.
